(** * Mouseless: the focus-navigation and view-composition core

    A shallow embedding of the GNOME Shell extension's JavaScript
    ([extension/iconGrid.js], [extension/appGrid.js],
    [extension/appBackend.js], [extension/keyEvents.js],
    [extension/screen.js], [menuList.js], [extension.js]) and the
    properties its specification states about it, followed by further
    properties that the code itself shows.

    Conventions of the embedding.
    - Pixel lengths, indices and counts are JavaScript numbers that hold
      integers; they are modelled in [Z].  [Math.floor (a / b)] is [a / b]
      ([Z.div], floor division), [a % b] is [Z.rem a b].
    - A JavaScript object reference is a value of a type with decidable
      equality; [===] on references is that equality.
    - A method that mutates [this] takes the state and returns the new one.
      A loop that may not terminate runs on fuel and returns [None] when the
      JavaScript loop would not stop.
    - A string is the sequence of its code units.  Case mapping, white
      space and the order of strings follow JavaScript on ASCII strings;
      a property that rests on one of them is stated for ASCII strings.
    - Toolkit calls (Clutter, St, Meta, Shell) are modelled by what the code
      relies on; each such model says so in its comment. *)

From Stdlib Require Import ZArith Lia.
From Stdlib Require OrderedTypeEx.
From stdpp Require Import base list strings gmap sorting.

(** ** JavaScript primitives used by the sources *)

Module JS.

Local Open Scope Z_scope.

(** Truthiness of a number: every number except 0 (and NaN) is truthy. *)
Definition truthy (z : Z) : bool := negb (z =? 0).

(** [a || b] on numbers. *)
Definition or_else (a b : Z) : Z := if truthy a then a else b.

(** Truthiness of a field that starts as [undefined] and later holds a number
    ([this._fixedSpacing ? this._fixedSpacing : this._spacing]). *)
Definition pick (fixed : option Z) (fallback : Z) : Z :=
  match fixed with
  | Some z => if truthy z then z else fallback
  | None => fallback
  end.

(** [Math.ceil (a / b)] for [b <> 0]. *)
Definition ceil_div (a b : Z) : Z := - ((- a) / b).

Section Arrays.
Context {A : Type} `{EqDecision A}.

(** [Array.prototype.indexOf]: the first index holding [x], or -1. *)
Fixpoint indexOf_from (i : Z) (x : A) (l : list A) : Z :=
  match l with
  | [] => -1
  | y :: l' => if decide (y = x) then i else indexOf_from (i + 1) x l'
  end.

Definition indexOf (x : A) (l : list A) : Z := indexOf_from 0 x l.

(** [Array.prototype.includes]. *)
Definition includes (x : A) (l : list A) : bool := bool_decide (x ∈ l).

(** [a[i]] for a number [i]: [undefined] outside the array, also for a
    negative [i]. *)
Definition get (l : list A) (i : Z) : option A :=
  if i <? 0 then None else l !! Z.to_nat i.

(** The start position [Array.prototype.splice] works at: a negative start
    counts from the end, and the result is clamped to [0, length]. *)
Definition splice_start (l : list A) (start : Z) : nat :=
  let len := Z.of_nat (length l) in
  Z.to_nat (if start <? 0 then Z.max (len + start) 0 else Z.min start len).

(** [a.splice(start, 1)]. *)
Definition splice_delete1 (l : list A) (start : Z) : list A :=
  let s := splice_start l start in take s l ++ drop (S s) l.

(** [a.splice(start, 0, x)]. *)
Definition splice_insert (l : list A) (start : Z) (x : A) : list A :=
  let s := splice_start l start in take s l ++ x :: drop s l.

End Arrays.

End JS.

(** ** St and Clutter constants *)

(** [St.DirectionType], in the order of the C enumeration: [TAB_FORWARD] is
    0, so it is the one falsy direction. *)
Inductive DirectionType :=
  TAB_FORWARD | TAB_BACKWARD | UP | DOWN | LEFT | RIGHT.

Definition DirectionType_code (d : DirectionType) : Z :=
  match d with
  | TAB_FORWARD => 0 | TAB_BACKWARD => 1 | UP => 2
  | DOWN => 3 | LEFT => 4 | RIGHT => 5
  end.

#[global] Instance DirectionType_eq_dec : EqDecision DirectionType.
Proof. solve_decision. Defined.

(** [Clutter.EVENT_PROPAGATE] and [Clutter.EVENT_STOP]. *)
Inductive EventReturn := EVENT_PROPAGATE | EVENT_STOP.

(** What the grid needs of the actors it holds: reference equality, the
    [visible] property and whether [item.icon instanceof BaseIcon]. *)
Class GridItem (Item : Type) := {
  item_eq_dec :: EqDecision Item;
  item_visible : Item -> bool;
  icon_instanceof_BaseIcon : Item -> bool
}.

(** ** Meta.later_add *)

(** The closures the sources hand to [Meta.later_add (BEFORE_REDRAW, ...)]. *)
Inductive LaterCallback (Widget : Type) :=
  | UpdateIconSizes                       (* IconGrid._updateIconSizes *)
  | GrabFocusRetry (actor : Widget) (direction : DirectionType)
                                          (* MouselessScreen._grabFocus *)
  | MoveFocusToItems (list : Widget)      (* MenuList._moveFocusToItems *)
  | RedrawNoop.                           (* AppView.adaptToSize *)
Arguments UpdateIconSizes {Widget}.
Arguments GrabFocusRetry {Widget} actor direction.
Arguments MoveFocusToItems {Widget} list.
Arguments RedrawNoop {Widget}.

(** Mutter's table of pending "laters": ids are handed out from a counter
    that is incremented before use, so an id is never 0. *)
Record Laters (Widget : Type) := {
  last_later_id : N;
  pending : list (N * LaterCallback Widget)
}.
Arguments last_later_id {Widget} _.
Arguments pending {Widget} _.

Definition later_add {Widget} (cb : LaterCallback Widget) (m : Laters Widget)
  : N * Laters Widget :=
  let id := N.succ (last_later_id m) in
  (id, {| last_later_id := id; pending := pending m ++ [(id, cb)] |}).

(** [Meta.later_remove (id)]. *)
Definition later_remove {Widget} (id : N) (m : Laters Widget) : Laters Widget :=
  {| last_later_id := last_later_id m;
     pending := List.filter (fun p => negb (fst p =? id)%N) (pending m) |}.

(** A call that either returns normally or throws; both leave a state. *)
Inductive completion (S : Type) :=
  | Returns (s : S)
  | Throws (error : string) (s : S).
Arguments Returns {S} s.
Arguments Throws {S} error s.

(** [Clutter.ActorBox]. *)
Module ActorBox.

Record t := { x1 : Z; y1 : Z; x2 : Z; y2 : Z }.

End ActorBox.

(** [St.Align]. *)
Inductive Align := Align_START | Align_MIDDLE | Align_END.

(** ** extension/iconGrid.js: IconGrid *)

Module IconGrid.

Local Open Scope Z_scope.

Definition ICON_SIZE : Z := 160.
Definition MIN_ICON_SIZE : Z := 16.

Section Grid.
Context {Item : Type} `{GridItem Item}.

(** The fields of an [IconGrid] the modelled methods read or write.
    [children] is the actor's list of Clutter children; [allocation_x1],
    [allocation_x2] are the horizontal bounds of [this.allocation]. *)
Record state := {
  _rowLimit : option Z;
  _colLimit : option Z;
  _minRows : Z;
  _minColumns : Z;
  _padWithSpacing : bool;
  topPadding : Z;
  bottomPadding : Z;
  rightPadding : Z;
  leftPadding : Z;
  _updateIconSizesLaterId : N;
  _items : list Item;
  children : list Item;
  _spacing : Z;
  _hItemSize : Z;
  _vItemSize : Z;
  _fixedSpacing : option Z;
  _fixedHItemSize : option Z;
  _fixedVItemSize : option Z;
  _nonIconWidth : Z;
  _nonIconHeight : Z;
  allocation_x1 : Z;
  allocation_x2 : Z
}.

(** The grid [_init] builds from its parameters (style lengths still at
    their hard-coded defaults, nothing allocated). *)
Definition init (rowLimit columnLimit : option Z) (minRows minColumns : Z)
    (padWithSpacing : bool) : state :=
  {| _rowLimit := rowLimit; _colLimit := columnLimit;
     _minRows := minRows; _minColumns := minColumns;
     _padWithSpacing := padWithSpacing;
     topPadding := 0; bottomPadding := 0; rightPadding := 0; leftPadding := 0;
     _updateIconSizesLaterId := 0%N;
     _items := []; children := [];
     _spacing := 0; _hItemSize := ICON_SIZE; _vItemSize := ICON_SIZE;
     _fixedSpacing := None; _fixedHItemSize := None; _fixedVItemSize := None;
     _nonIconWidth := 0; _nonIconHeight := 0;
     allocation_x1 := 0; allocation_x2 := 0 |}.

(** *** Field assignments *)

(** [setSpacing (spacing)]: [this._fixedSpacing = spacing]. *)
Definition setSpacing (spacing : Z) (g : state) : state :=
  {| _rowLimit := _rowLimit g; _colLimit := _colLimit g;
     _minRows := _minRows g; _minColumns := _minColumns g;
     _padWithSpacing := _padWithSpacing g;
     topPadding := topPadding g; bottomPadding := bottomPadding g;
     rightPadding := rightPadding g; leftPadding := leftPadding g;
     _updateIconSizesLaterId := _updateIconSizesLaterId g;
     _items := _items g; children := children g;
     _spacing := _spacing g; _hItemSize := _hItemSize g;
     _vItemSize := _vItemSize g;
     _fixedSpacing := Some spacing;
     _fixedHItemSize := _fixedHItemSize g;
     _fixedVItemSize := _fixedVItemSize g;
     _nonIconWidth := _nonIconWidth g; _nonIconHeight := _nonIconHeight g;
     allocation_x1 := allocation_x1 g; allocation_x2 := allocation_x2 g |}.

(** [this.topPadding = this.rightPadding = this.bottomPadding =
    this.leftPadding = p]. *)
Definition set_padding (p : Z) (g : state) : state :=
  {| _rowLimit := _rowLimit g; _colLimit := _colLimit g;
     _minRows := _minRows g; _minColumns := _minColumns g;
     _padWithSpacing := _padWithSpacing g;
     topPadding := p; bottomPadding := p; rightPadding := p; leftPadding := p;
     _updateIconSizesLaterId := _updateIconSizesLaterId g;
     _items := _items g; children := children g;
     _spacing := _spacing g; _hItemSize := _hItemSize g;
     _vItemSize := _vItemSize g;
     _fixedSpacing := _fixedSpacing g;
     _fixedHItemSize := _fixedHItemSize g;
     _fixedVItemSize := _fixedVItemSize g;
     _nonIconWidth := _nonIconWidth g; _nonIconHeight := _nonIconHeight g;
     allocation_x1 := allocation_x1 g; allocation_x2 := allocation_x2 g |}.

(** [this._fixedHItemSize = h; this._fixedVItemSize = v]. *)
Definition set_fixedItemSize (h v : Z) (g : state) : state :=
  {| _rowLimit := _rowLimit g; _colLimit := _colLimit g;
     _minRows := _minRows g; _minColumns := _minColumns g;
     _padWithSpacing := _padWithSpacing g;
     topPadding := topPadding g; bottomPadding := bottomPadding g;
     rightPadding := rightPadding g; leftPadding := leftPadding g;
     _updateIconSizesLaterId := _updateIconSizesLaterId g;
     _items := _items g; children := children g;
     _spacing := _spacing g; _hItemSize := _hItemSize g;
     _vItemSize := _vItemSize g;
     _fixedSpacing := _fixedSpacing g;
     _fixedHItemSize := Some h;
     _fixedVItemSize := Some v;
     _nonIconWidth := _nonIconWidth g; _nonIconHeight := _nonIconHeight g;
     allocation_x1 := allocation_x1 g; allocation_x2 := allocation_x2 g |}.

(** [this._nonIconWidth = w; this._nonIconHeight = h]. *)
Definition set_nonIconSize (w h : Z) (g : state) : state :=
  {| _rowLimit := _rowLimit g; _colLimit := _colLimit g;
     _minRows := _minRows g; _minColumns := _minColumns g;
     _padWithSpacing := _padWithSpacing g;
     topPadding := topPadding g; bottomPadding := bottomPadding g;
     rightPadding := rightPadding g; leftPadding := leftPadding g;
     _updateIconSizesLaterId := _updateIconSizesLaterId g;
     _items := _items g; children := children g;
     _spacing := _spacing g; _hItemSize := _hItemSize g;
     _vItemSize := _vItemSize g;
     _fixedSpacing := _fixedSpacing g;
     _fixedHItemSize := _fixedHItemSize g;
     _fixedVItemSize := _fixedVItemSize g;
     _nonIconWidth := w; _nonIconHeight := h;
     allocation_x1 := allocation_x1 g; allocation_x2 := allocation_x2 g |}.

(** [this._updateIconSizesLaterId = id]. *)
Definition set_updateIconSizesLaterId (id : N) (g : state) : state :=
  {| _rowLimit := _rowLimit g; _colLimit := _colLimit g;
     _minRows := _minRows g; _minColumns := _minColumns g;
     _padWithSpacing := _padWithSpacing g;
     topPadding := topPadding g; bottomPadding := bottomPadding g;
     rightPadding := rightPadding g; leftPadding := leftPadding g;
     _updateIconSizesLaterId := id;
     _items := _items g; children := children g;
     _spacing := _spacing g; _hItemSize := _hItemSize g;
     _vItemSize := _vItemSize g;
     _fixedSpacing := _fixedSpacing g;
     _fixedHItemSize := _fixedHItemSize g;
     _fixedVItemSize := _fixedVItemSize g;
     _nonIconWidth := _nonIconWidth g; _nonIconHeight := _nonIconHeight g;
     allocation_x1 := allocation_x1 g; allocation_x2 := allocation_x2 g |}.

(** [this._items = items] together with the actor's children. *)
Definition set_items (items kids : list Item) (g : state) : state :=
  {| _rowLimit := _rowLimit g; _colLimit := _colLimit g;
     _minRows := _minRows g; _minColumns := _minColumns g;
     _padWithSpacing := _padWithSpacing g;
     topPadding := topPadding g; bottomPadding := bottomPadding g;
     rightPadding := rightPadding g; leftPadding := leftPadding g;
     _updateIconSizesLaterId := _updateIconSizesLaterId g;
     _items := items; children := kids;
     _spacing := _spacing g; _hItemSize := _hItemSize g;
     _vItemSize := _vItemSize g;
     _fixedSpacing := _fixedSpacing g;
     _fixedHItemSize := _fixedHItemSize g;
     _fixedVItemSize := _fixedVItemSize g;
     _nonIconWidth := _nonIconWidth g; _nonIconHeight := _nonIconHeight g;
     allocation_x1 := allocation_x1 g; allocation_x2 := allocation_x2 g |}.

(** [this.set_allocation (box)], horizontal bounds only. *)
Definition set_allocation (x1 x2 : Z) (g : state) : state :=
  {| _rowLimit := _rowLimit g; _colLimit := _colLimit g;
     _minRows := _minRows g; _minColumns := _minColumns g;
     _padWithSpacing := _padWithSpacing g;
     topPadding := topPadding g; bottomPadding := bottomPadding g;
     rightPadding := rightPadding g; leftPadding := leftPadding g;
     _updateIconSizesLaterId := _updateIconSizesLaterId g;
     _items := _items g; children := children g;
     _spacing := _spacing g; _hItemSize := _hItemSize g;
     _vItemSize := _vItemSize g;
     _fixedSpacing := _fixedSpacing g;
     _fixedHItemSize := _fixedHItemSize g;
     _fixedVItemSize := _fixedVItemSize g;
     _nonIconWidth := _nonIconWidth g; _nonIconHeight := _nonIconHeight g;
     allocation_x1 := x1; allocation_x2 := x2 |}.

(** *** Getters *)

Definition _getSpacing (g : state) : Z :=
  JS.pick (_fixedSpacing g) (_spacing g).
Definition _getHItemSize (g : state) : Z :=
  JS.pick (_fixedHItemSize g) (_hItemSize g).
Definition _getVItemSize (g : state) : Z :=
  JS.pick (_fixedVItemSize g) (_vItemSize g).

Definition _getVisibleChildren (g : state) : list Item :=
  List.filter item_visible (children g).

(** *** _computeLayout *)

(** The [while] loop of [_computeLayout]: one unit of fuel per iteration,
    [None] when the fuel runs out before the loop condition fails. *)
Fixpoint _computeLayout_loop (fuel : nat) (colLimit : option Z)
    (hItemSize spacing forWidth nColumns usedWidth : Z) : option (Z * Z) :=
  if (match colLimit with None => true | Some c => nColumns <? c end)
     && (usedWidth + hItemSize <=? forWidth)
  then
    match fuel with
    | O => None
    | S fuel' =>
        _computeLayout_loop fuel' colLimit hItemSize spacing forWidth
          (nColumns + 1) (usedWidth + (hItemSize + spacing))
    end
  else Some (nColumns, usedWidth).

(** Fuel that covers every run of the loop that stops: the column limit
    when there is one; else, when each iteration adds at least one pixel, the
    pixels left; else an iteration never makes the condition false, and no
    fuel is given. *)
Definition _computeLayout_fuel (colLimit : option Z)
    (hItemSize spacing forWidth usedWidth : Z) : nat :=
  match colLimit with
  | Some c => Z.to_nat c
  | None =>
      if 0 <? hItemSize + spacing
      then Z.to_nat (forWidth - usedWidth - hItemSize + 1)
      else O
  end.

(** [_computeLayout (forWidth)]: the number of columns and the used width;
    [None] when the loop does not stop. *)
Definition _computeLayout (g : state) (forWidth : Z) : option (Z * Z) :=
  let usedWidth := leftPadding g + rightPadding g in
  let spacing := _getSpacing g in
  '(nColumns, usedWidth) ←
    _computeLayout_loop
      (_computeLayout_fuel (_colLimit g) (_getHItemSize g) spacing forWidth
         usedWidth)
      (_colLimit g) (_getHItemSize g) spacing forWidth 0 usedWidth;
  Some (nColumns, if nColumns >? 0 then usedWidth - spacing else usedWidth).

Definition columnsForWidth (g : state) (rowWidth : Z) : option Z :=
  fst <$> _computeLayout g rowWidth.

Definition rowsForHeight (g : state) (forHeight : Z) : Z :=
  (forHeight - (topPadding g + bottomPadding g) + _getSpacing g)
  / (_getVItemSize g + _getSpacing g).

Definition usedHeightForNRows (g : state) (nRows : Z) : Z :=
  (_getVItemSize g + _getSpacing g) * nRows - _getSpacing g
  + topPadding g + bottomPadding g.

Definition usedWidthForNColumns (g : state) (columns : Z) : Z :=
  let usedWidth := columns * (_getHItemSize g + _getSpacing g) in
  let usedWidth := usedWidth - _getSpacing g in
  usedWidth + leftPadding g + rightPadding g.

(** *** addItem *)

(** [Clutter.Actor.insert_child_at_index].  An actor that already has a
    parent is refused: Clutter warns and returns, and the children stay as
    they are.  The grid is the only parent this program gives an item, so
    the actors with a parent are the grid's children.  Otherwise the child
    goes to position [index]; a negative index, or one past the number of
    children, appends (Clutter's documented behaviour). *)
Definition insert_child_at_index (kids : list Item) (child : Item) (index : Z)
  : list Item :=
  if bool_decide (child ∈ kids) then kids
  else if (index <? 0) || (Z.of_nat (length kids) <? index)
  then kids ++ [child]
  else take (Z.to_nat index) kids ++ child :: drop (Z.to_nat index) kids.

(** [Clutter.Actor.add_actor]: the child is appended, unless it already has
    a parent, when it is refused in the same way. *)
Definition add_actor (kids : list Item) (child : Item) : list Item :=
  if bool_decide (child ∈ kids) then kids else kids ++ [child].

(** [addItem (item, index)]; [index = None] is the omitted argument. *)
Definition addItem (item : Item) (index : option Z) (g : state)
  : completion state :=
  if negb (icon_instanceof_BaseIcon item) then
    Throws "Only items with a BaseIcon icon property can be added to IconGrid" g
  else
    let items := _items g ++ [item] in
    match index with
    | Some i =>
        Returns
          (set_items items (insert_child_at_index (children g) item i) g)
    | None => Returns (set_items items (add_actor (children g) item) g)
    end.

(** *** _updateSpacingForSize and adaptToSize *)

Definition _updateSpacingForSize (availWidth availHeight : Z) (g : state)
  : state :=
  let maxEmptyVArea := availHeight - _minRows g * _getVItemSize g in
  let maxEmptyHArea := availWidth - _minColumns g * _getHItemSize g in
  let maxVSpacing :=
    if _padWithSpacing g then maxEmptyVArea / (_minRows g + 1)
    else if _minRows g <=? 1 then maxEmptyVArea
    else maxEmptyVArea / (_minRows g - 1) in
  let maxHSpacing :=
    if _padWithSpacing g then maxEmptyHArea / (_minColumns g + 1)
    else if _minColumns g <=? 1 then maxEmptyHArea
    else maxEmptyHArea / (_minColumns g - 1) in
  let maxSpacing := Z.min maxHSpacing maxVSpacing in
  let maxSpacing :=
    Z.min maxSpacing (Z.min (_getVItemSize g) (_getHItemSize g)) in
  let spacing := Z.max (_spacing g) maxSpacing in
  let g := setSpacing spacing g in
  if _padWithSpacing g then set_padding spacing g else g.

(** The layout pass of [adaptToSize]: everything the method does before it
    looks at [_updateIconSizesLaterId].  [scaleFactor] is what
    [St.ThemeContext.get_for_stage (global.stage).scale_factor] reads. *)
Definition adaptToSize_layout (scaleFactor availWidth availHeight : Z)
    (g : state) : option state :=
  let g := set_fixedItemSize (_hItemSize g) (_vItemSize g) g in
  let g := _updateSpacingForSize availWidth availHeight g in
  let g :=
    set_nonIconSize (Z.max 0 (_hItemSize g - scaleFactor * ICON_SIZE))
      (Z.max 0 (_vItemSize g - scaleFactor * ICON_SIZE)) g in
  columns ← columnsForWidth g availWidth;
  if (columns <? _minColumns g) || (rowsForHeight g availHeight <? _minRows g)
  then
    let neededWidth := usedWidthForNColumns g (_minColumns g) - availWidth in
    let neededHeight := usedHeightForNRows g (_minRows g) - availHeight in
    let neededSpacePerItem :=
      if neededWidth >? neededHeight
      then JS.ceil_div neededWidth (_minColumns g)
      else JS.ceil_div neededHeight (_minRows g) in
    let g :=
      set_fixedItemSize
        (Z.max (_hItemSize g - neededSpacePerItem)
           (_nonIconWidth g + scaleFactor * MIN_ICON_SIZE))
        (Z.max (_vItemSize g - neededSpacePerItem)
           (_nonIconHeight g + scaleFactor * MIN_ICON_SIZE)) g in
    Some (_updateSpacingForSize availWidth availHeight g)
  else Some g.

(** [adaptToSize (availWidth, availHeight)]: the layout pass, then
    [_updateIconSizes] is registered as a later unless one is registered
    already.  The table of laters is threaded through for that. *)
Definition adaptToSize {Widget : Type} (scaleFactor availWidth availHeight : Z)
    (st : state * Laters Widget) : option (state * Laters Widget) :=
  let '(g, laters) := st in
  g ← adaptToSize_layout scaleFactor availWidth availHeight g;
  Some (if (_updateIconSizesLaterId g =? 0)%N
        then
          let '(id, laters) := later_add UpdateIconSizes laters in
          (set_updateIconSizesLaterId id g, laters)
        else (g, laters)).

(** The geometry a layout pass leaves: item sizes, spacing, paddings and
    the number of columns that fit [availWidth]. *)
Definition geometry (g : state) (availWidth : Z)
  : Z * Z * Z * (Z * Z * Z * Z) * option Z :=
  (_getHItemSize g, _getVItemSize g, _getSpacing g,
   (topPadding g, bottomPadding g, leftPadding g, rightPadding g),
   columnsForWidth g availWidth).

(** *** navigate_focus *)

(** The index arithmetic of [navigate_focus]: the value of [newIndex] when
    the method reaches [children[newIndex]], [None] on the [return false] of
    a direction that is none of LEFT, RIGHT, UP, DOWN. *)
Definition newIndex (direction : DirectionType) (wrap : bool)
    (idx n nColumns : Z) : option Z :=
  match direction with
  | LEFT =>
      let newIndex := idx - 1 in
      Some (if newIndex <? 0 then (if wrap then n - 1 else 0) else newIndex)
  | RIGHT =>
      let newIndex := idx + 1 in
      Some (if newIndex >=? n then (if wrap then 0 else n - 1) else newIndex)
  | UP =>
      let newIndex := idx - nColumns in
      Some (if newIndex <? 0 then
              let newIndex := Z.rem idx nColumns in
              let lastRow := (n - 1) / nColumns in
              let newIndex := newIndex + lastRow * nColumns in
              if newIndex >=? n then newIndex - nColumns else newIndex
            else newIndex)
  | DOWN =>
      let newIndex := idx + nColumns in
      Some (if newIndex >=? n then Z.rem idx nColumns else newIndex)
  | _ => None
  end.

(** [navigate_focus (current, direction, wrap)].  The result is the child
    whose [grab_key_focus] was called, if any, and the returned boolean;
    [None] when [_computeLayout] does not return. *)
Definition navigate_focus (g : state) (current : option Item)
    (direction : DirectionType) (wrap : bool) : option (option Item * bool) :=
  let children := _getVisibleChildren g in
  match children with
  | [] => Some (None, false)
  | first :: _ =>
      let idx :=
        match current with
        | Some c => JS.indexOf c children
        | None => -1
        end in
      if idx <? 0 then Some (Some first, true)
      else
        let n := Z.of_nat (length children) in
        let gridWidth := allocation_x2 g - allocation_x1 g in
        layout ← _computeLayout g gridWidth;
        let nColumns := JS.or_else (fst layout) 1 in
        match newIndex direction wrap idx n nColumns with
        | None => Some (None, false)
        | Some newIndex =>
            match JS.get children newIndex with
            | Some newChild => Some (Some newChild, true)
            | None => Some (None, false)
            end
        end
  end.

(** *** Rows, used width and the bookkeeping of items *)

(** [usedWidth (forWidth)]. *)
Definition usedWidth (g : state) (forWidth : Z) : option Z :=
  usedWidthForNColumns g <$> columnsForWidth g forWidth.

(** [nRows (forWidth)].  A row limit of 0 is falsy, like [null]: it limits
    nothing. *)
Definition nRows (g : state) (forWidth : Z) : option Z :=
  let children := _getVisibleChildren g in
  nColumns ←
    (if forWidth <? 0 then Some (Z.of_nat (length children))
     else fst <$> _computeLayout g forWidth);
  let nRows :=
    if nColumns >? 0 then JS.ceil_div (Z.of_nat (length children)) nColumns
    else 0 in
  Some (match _rowLimit g with
        | Some limit => if JS.truthy limit then Z.min nRows limit else nRows
        | None => nRows
        end).

(** [removeAll ()] and [destroyAll ()] leave the same grid. *)
Definition removeAll (g : state) : state := set_items [] [] g.
Definition destroyAll (g : state) : state := set_items [] [] g.

(** [removeItem (item)]: [remove_child] takes the actor out of the
    children; [_items] is not touched. *)
Definition removeItem (item : Item) (g : state) : state :=
  set_items (_items g)
    (List.filter (fun c => negb (bool_decide (c = item))) (children g)) g.

(** [visibleItemsCount ()]. *)
Definition visibleItemsCount (g : state) : Z :=
  Z.of_nat (length (List.filter item_visible (children g))).

(** [_updateIconSizes ()]: the later id is cleared and every item's icon is
    given the new size.  The number returned is the dividend of
    [newIconSize], which is that number divided by the scale factor; [None]
    is the [NaN] that an undefined fixed item size gives. *)
Definition _updateIconSizes (g : state) : option Z * state :=
  (match _fixedHItemSize g, _fixedVItemSize g with
   | Some h, Some v =>
       Some (Z.min (h - _nonIconWidth g) (v - _nonIconHeight g))
   | _, _ => None
   end,
   set_updateIconSizesLaterId 0%N g).

(** [_onDestroy ()]. *)
Definition _onDestroy {Widget : Type} (st : state * Laters Widget)
  : state * Laters Widget :=
  let '(g, laters) := st in
  if negb (_updateIconSizesLaterId g =? 0)%N
  then (set_updateIconSizesLaterId 0%N g,
        later_remove (_updateIconSizesLaterId g) laters)
  else (g, laters).

(** *** vfunc_allocate *)

Section Allocate.
(** What an allocation reads from the toolkit and from the fields that
    [state] does not hold: the theme node's [get_content_box], the parent's
    allocation, each child's natural size ([get_preferred_size]), whether
    the text direction is right-to-left, and the grid's [_xAlign] and
    [_fillParent] (the grids of this extension are built with the defaults,
    [St.Align.MIDDLE] and [false]). *)
Variable get_content_box : ActorBox.t -> ActorBox.t.
Variable parent_allocation : ActorBox.t.
Variable natural_size : Item -> Z * Z.
Variable text_direction_rtl : bool.
Variable _xAlign : Align.
Variable _fillParent : bool.

(** [_getAllocatedChildSizeAndSpacing (child)].  The dividends of the two
    spacings are even whenever the sizes are whole pixels (they are 0). *)
Definition _getAllocatedChildSizeAndSpacing (g : state) (child : Item)
  : Z * Z * Z * Z :=
  let '(natWidth, natHeight) := natural_size child in
  let width := Z.min (_getHItemSize g) natWidth in
  let xSpacing := Z.max 0 (width - natWidth) / 2 in
  let height := Z.min (_getVItemSize g) natHeight in
  let ySpacing := Z.max 0 (height - natHeight) / 2 in
  (width, height, xSpacing, ySpacing).

(** [_calculateChildBox (child, x, y, box)]. *)
Definition _calculateChildBox (g : state) (child : Item) (x y : Z)
    (box : ActorBox.t) : ActorBox.t :=
  let '(width, height, childXSpacing, childYSpacing) :=
    _getAllocatedChildSizeAndSpacing g child in
  let x1 :=
    if text_direction_rtl then
      let _x := ActorBox.x2 box - (x + width) in
      _x - childXSpacing
    else x + childXSpacing in
  let y1 := y + childYSpacing in
  {| ActorBox.x1 := x1; ActorBox.y1 := y1;
     ActorBox.x2 := x1 + width; ActorBox.y2 := y1 + height |}.

(** The [for] loop of [vfunc_allocate] from child [i] on.  Each child comes
    with the box it is allocated, or with [None] when the loop sets its
    opacity to 0 and allocates nothing.  (A child that is allocated is made
    opaque unless clones are animating; the easing delay that
    [animateIconPosition] sets does not change the box.) *)
Fixpoint allocate_children (g : state) (box : ActorBox.t)
    (leftEmptySpace availHeight nColumns spacing : Z) (children : list Item)
    (x y columnIndex rowIndex : Z) : list (Item * option ActorBox.t) :=
  match children with
  | [] => []
  | child :: rest =>
      let childBox := _calculateChildBox g child x y box in
      let hidden :=
        (match _rowLimit g with
         | Some limit => JS.truthy limit && (rowIndex >=? limit)
         | None => false
         end)
        || (_fillParent
            && (ActorBox.y2 childBox >? availHeight - bottomPadding g)) in
      let columnIndex := columnIndex + 1 in
      let '(columnIndex, rowIndex) :=
        if columnIndex =? nColumns then (0, rowIndex + 1)
        else (columnIndex, rowIndex) in
      let '(x, y) :=
        if columnIndex =? 0
        then (ActorBox.x1 box + leftEmptySpace + leftPadding g,
              y + (_getVItemSize g + spacing))
        else (x + (_getHItemSize g + spacing), y) in
      (child, if hidden then None else Some childBox)
      :: allocate_children g box leftEmptySpace availHeight nColumns spacing
           rest x y columnIndex rowIndex
  end.

(** [vfunc_allocate (box)]: the grid with its allocation set, and what the
    loop does to the visible children; [None] when [_computeLayout] does
    not return. *)
Definition vfunc_allocate (box : ActorBox.t) (g : state)
  : option (state * list (Item * option ActorBox.t)) :=
  let g := set_allocation (ActorBox.x1 box) (ActorBox.x2 box) g in
  let box := get_content_box box in
  let box :=
    if _fillParent then
      let gridBox := get_content_box parent_allocation in
      get_content_box gridBox
    else box in
  let children := _getVisibleChildren g in
  let availWidth := ActorBox.x2 box - ActorBox.x1 box in
  let availHeight := ActorBox.y2 box - ActorBox.y1 box in
  let spacing := _getSpacing g in
  '(nColumns, usedWidth) ← _computeLayout g availWidth;
  let leftEmptySpace :=
    match _xAlign with
    | Align_START => 0
    | Align_MIDDLE => (availWidth - usedWidth) / 2
    | Align_END => availWidth - usedWidth
    end in
  let x := ActorBox.x1 box + leftEmptySpace + leftPadding g in
  let y := ActorBox.y1 box + topPadding g in
  Some (g, allocate_children g box leftEmptySpace availHeight nColumns
             spacing children x y 0 0).

End Allocate.

End Grid.

Arguments state Item : clear implicits.

(** *** The zoom-out animation of an activated icon *)

Definition APPICON_ANIMATION_OUT_SCALE : Z := 3.

(** [clamp (value, min, max)]. *)
Definition clamp (value min max : Z) : Z := Z.max (Z.min value max) min.

(** A monitor of the layout manager. *)
Record Monitor := {
  monitor_x : Z;
  monitor_y : Z;
  monitor_width : Z;
  monitor_height : Z
}.

(** [zoomOutActorAtPos (actor, x, y)] for an actor of transformed size
    [width] by [height] on [monitor]: the [translation_x] and
    [translation_y] the clone is eased to while it is scaled by
    [APPICON_ANIMATION_OUT_SCALE] around its centre.
    ([(scaledWidth - width) / 2] is [width], a whole number.) *)
Definition zoomOutActorAtPos (width height x y : Z) (monitor : Monitor)
  : Z * Z :=
  let scaledWidth := width * APPICON_ANIMATION_OUT_SCALE in
  let scaledHeight := height * APPICON_ANIMATION_OUT_SCALE in
  let scaledX := x - (scaledWidth - width) / 2 in
  let scaledY := y - (scaledHeight - height) / 2 in
  let containedX :=
    clamp scaledX (monitor_x monitor)
      (monitor_x monitor + monitor_width monitor - scaledWidth) in
  let containedY :=
    clamp scaledY (monitor_y monitor)
      (monitor_y monitor + monitor_height monitor - scaledHeight) in
  (containedX - scaledX, containedY - scaledY).

End IconGrid.

(** ** JavaScript strings and [Array.prototype.sort] *)

Module JSString.

(** A string is the sequence of its code units.  The case mapping, the
    white space and the order below are those of JavaScript on strings of
    ASCII code units ([is_ascii]): there [toLowerCase] is
    [String.prototype.toLowerCase], [trim_is_empty] is [s.trim () === ""]
    and [gt] is [>].  Outside that range JavaScript follows Unicode and
    these definitions do not; a property that rests on one of them is
    stated for ASCII strings. *)
Definition is_ascii (s : string) : bool :=
  forallb (fun c => (Ascii.nat_of_ascii c <? 128)%nat)
    (String.list_ascii_of_string s).

Definition toLowerCase_ascii (c : Ascii.ascii) : Ascii.ascii :=
  let n := Ascii.nat_of_ascii c in
  if (65 <=? n)%nat && (n <=? 90)%nat then Ascii.ascii_of_nat (n + 32) else c.

Fixpoint toLowerCase (s : string) : string :=
  match s with
  | EmptyString => EmptyString
  | String c s' => String (toLowerCase_ascii c) (toLowerCase s')
  end.

(** [s.startsWith (p)]. *)
Definition startsWith (s p : string) : bool := String.prefix p s.

Definition is_white_space (c : Ascii.ascii) : bool :=
  let n := Ascii.nat_of_ascii c in
  ((9 <=? n)%nat && (n <=? 13)%nat) || (n =? 32)%nat.

(** [s.trim () === ""]: the string holds white space only. *)
Fixpoint trim_is_empty (s : string) : bool :=
  match s with
  | EmptyString => true
  | String c s' => is_white_space c && trim_is_empty s'
  end.

(** [a > b] on strings: lexicographic on code units. *)
Definition gt (a b : string) : bool :=
  match String.compare a b with Gt => true | _ => false end.

(** [s.length > 0]. *)
Definition nonempty (s : string) : bool :=
  match s with EmptyString => false | _ => true end.

End JSString.

Module JSSort.

Local Open Scope Z_scope.

Section Sort.
Context {A : Type} (comparefn : A -> A -> Z).

(** One step of the engine's insertion sort: [item] travels left past every
    element [swap] with [comparefn (swap, item) > 0] and stops at the first
    one without.  The sorted prefix is held reversed, nearest element
    first. *)
Fixpoint insert (item : A) (prefix_rev : list A) : list A :=
  match prefix_rev with
  | [] => [item]
  | swap :: rest =>
      if comparefn swap item >? 0 then swap :: insert item rest
      else item :: prefix_rev
  end.

(** [Array.prototype.sort (comparefn)] as the engine of gjs (SpiderMonkey)
    performs it: a stable comparison sort that moves an element only when
    [comparefn] returns a number greater than 0.  (The engine switches to a
    merge sort with the same test on long arrays; the two agree whenever
    "greater than 0" is the strict part of a total preorder, which is the
    only use made of it here.) *)
Definition sort (l : list A) : list A :=
  rev (foldl (fun prefix_rev item => insert item prefix_rev) [] l).

End Sort.

(** A comparator that returns a boolean: [true] is 1 and [false] is 0 once
    the engine compares the result with 0. *)
Definition of_bool {A : Type} (f : A -> A -> bool) : A -> A -> Z :=
  fun a b => Z.b2z (f a b).

End JSSort.

(** A JavaScript object used as a dictionary with string keys, in the order
    [Object.keys] and [Object.values] enumerate it: insertion order (keys
    that spell array indices, which would come first, do not occur among
    desktop-file ids). *)
Module JSObject.

Section Obj.
Context {V : Type}.

Definition t := list (string * V).

(** [o[k] = v] *)
Fixpoint set (k : string) (v : V) (o : t) : t :=
  match o with
  | [] => [(k, v)]
  | (k', v') :: o' =>
      if decide (k' = k) then (k, v) :: o' else (k', v') :: set k v o'
  end.

(** [o[k]]; [None] is [undefined]. *)
Fixpoint get (k : string) (o : t) : option V :=
  match o with
  | [] => None
  | (k', v) :: o' => if decide (k' = k) then Some v else get k o'
  end.

Definition keys (o : t) : list string := map fst o.
Definition values (o : t) : list V := map snd o.

End Obj.

Arguments t V : clear implicits.

End JSObject.

(** ** Shell.App as the sources use it *)

Module App.

(** [desktop_file_id] is what [get_app_info ().get_desktop_file_id ()]
    returns, [None] when that call throws. *)
Record t := {
  get_id : string;
  get_name : string;
  desktop_file_id : option string
}.

#[global] Instance eq_dec : EqDecision t.
Proof. solve_decision. Defined.

End App.

(** ** extension/appBackend.js: AppBackend *)

Module AppBackend.

Record state := {
  _appsByCategory : JSObject.t (list App.t);
  _allAppsCache : option (list App.t)
}.

(** [_allApps ()]: the cache when there is one; else the categories'
    apps concatenated and made unique by id, which is then cached. *)
Definition _allApps (b : state) : list App.t * state :=
  match _allAppsCache b with
  | Some apps => (apps, b)
  | None =>
      let apps := concat (JSObject.values (_appsByCategory b)) in
      let unique :=
        foldl (fun unique app => JSObject.set (App.get_id app) app unique)
          [] apps in
      let all := JSObject.values unique in
      (all, {| _appsByCategory := _appsByCategory b;
               _allAppsCache := Some all |})
  end.

(** The comparator of [getAllApps]: it returns the boolean
    [a.get_name ().toLowerCase () > b.get_name ().toLowerCase ()]. *)
Definition getAllApps_comparefn (a b : App.t) : bool :=
  JSString.gt (JSString.toLowerCase (App.get_name a))
    (JSString.toLowerCase (App.get_name b)).

(** [getAllApps ()]: sorts the cached array in place and returns it. *)
Definition getAllApps (b : state) : list App.t * state :=
  let '(apps, b) := _allApps b in
  let apps := JSSort.sort (JSSort.of_bool getAllApps_comparefn) apps in
  (apps, {| _appsByCategory := _appsByCategory b;
            _allAppsCache := Some apps |}).

(** [getAppsByCategory (category_menu_id)]; [None] is an argument that is
    [undefined] or [null].  A category that is no key of [_appsByCategory]
    makes [undefined.slice ()] throw. *)
Definition getAppsByCategory (category_menu_id : option string) (b : state)
  : completion (list App.t * state) :=
  match category_menu_id with
  | Some category =>
      if bool_decide (category = "all_apps") then Returns (getAllApps b)
      else if JSString.nonempty category then
        match JSObject.get category (_appsByCategory b) with
        | Some apps =>
            Returns (JSSort.sort (JSSort.of_bool getAllApps_comparefn) apps, b)
        | None => Throws "TypeError" ([], b)
        end
      else Returns ([], b)
  | None => Returns ([], b)
  end.

End AppBackend.

(** ** extension/appGrid.js: AppIcon and AppView *)

(** [getRunningAppId (app)]: the lower-cased id, replaced by the lower-cased
    desktop-file id for a ["window:"] id; [None] is the [null] returned
    when the desktop-file lookup throws. *)
Definition getRunningAppId (app : App.t) : option string :=
  let rawId := JSString.toLowerCase (App.get_id app) in
  if JSString.startsWith rawId "window:" then
    match App.desktop_file_id app with
    | None => None
    | Some desktopId =>
        if JSString.nonempty desktopId
           && negb (JSString.trim_is_empty desktopId)
        then Some (JSString.toLowerCase desktopId)
        else Some rawId
    end
  else Some rawId.

Module AppIcon.

(** An [AppIcon] object: [ref] is its identity (the allocation that
    [new AppIcon (app)] made), the other fields are the properties the
    sources read.  [icon] is always the [IconGrid.BaseIcon] that
    [BaseAppIcon._init] creates. *)
Record t := {
  ref : nat;
  app : App.t;
  name : string;
  id : string;
  visible : bool
}.

#[global] Instance eq_dec : EqDecision t.
Proof. solve_decision. Defined.

(** [new AppIcon (app)] for an app with [get_name], [get_id] and
    [get_app_info]. *)
Definition new (ref : nat) (app : App.t) : t :=
  let name := App.get_name app in
  let id := App.get_id app in
  let id :=
    if JSString.startsWith id "window:" then
      match App.desktop_file_id app with
      | Some desktopId => if JSString.nonempty desktopId then desktopId else id
      | None => id
      end
    else id in
  {| ref := ref; app := app; name := name; id := id; visible := true |}.

Definition getId (icon : t) : string := id icon.

#[global] Instance grid_item : GridItem t :=
  {| item_visible := visible; icon_instanceof_BaseIcon := fun _ => true |}.

End AppIcon.

Module EmptyRow.

(** An [EmptyRow]: its [icon] property is the row itself, an [St.Widget]
    that is no [BaseIcon]. *)
Record t := { id : string; visible : bool }.

#[global] Instance eq_dec : EqDecision t.
Proof. solve_decision. Defined.

#[global] Instance grid_item : GridItem t :=
  {| item_visible := visible; icon_instanceof_BaseIcon := fun _ => false |}.

End EmptyRow.

Module AppView.

Local Open Scope Z_scope.

(** What [_loadApps] reads from outside the view: [Me.stateObj.appBackend]
    (absent until first use), what [new AppBackend ()] would build ([None]
    when the constructor throws), for every window actor the app that
    [appSystem.lookup_app (meta.get_wm_class ())] finds, the object
    [getFavoriteMap ()] returns, and the next free object reference. *)
Record Env := {
  appBackend : option AppBackend.state;
  new_AppBackend : option AppBackend.state;
  window_apps : list (option App.t);
  favorites : JSObject.t App.t;
  next_ref : nat
}.

Record state := {
  _grid : IconGrid.state AppIcon.t;
  _items : gmap string AppIcon.t;
  _orderedItems : list AppIcon.t;
  _viewIsReady : bool;
  _lastFocused : option AppIcon.t
}.

(** [icons.push (new AppIcon (app))] over [backendApps]. *)
Fixpoint new_icons (ref : nat) (backendApps : list App.t) : list AppIcon.t :=
  match backendApps with
  | [] => []
  | app :: rest => AppIcon.new ref app :: new_icons (S ref) rest
  end.

(** [Array.prototype.find]. *)
Definition find {A : Type} (f : A -> bool) (l : list A) : option A :=
  List.find f l.

Definition runningAppIds_of (window_apps : list (option App.t)) : list string :=
  List.filter JSString.nonempty
    (map (fun runningApp : option App.t =>
            match runningApp with
            | Some a => JSString.toLowerCase (App.get_id a)
            | None => ""%string
            end) window_apps).

Definition favoriteAppIds_of (favorites : JSObject.t App.t) : list string :=
  map JSString.toLowerCase (JSObject.keys favorites).

Definition favIcons_of (favoriteAppIds : list string) (icons : list AppIcon.t)
  : list AppIcon.t :=
  omap (fun id =>
          find (fun icon =>
                  bool_decide (JSString.toLowerCase (AppIcon.getId icon) = id))
            icons)
    favoriteAppIds.

Definition is_runningIcon (runningAppIds favoriteAppIds : list string)
    (icon : AppIcon.t) : bool :=
  match getRunningAppId (AppIcon.app icon) with
  | Some id =>
      JS.includes id runningAppIds && negb (JS.includes id favoriteAppIds)
  | None => false
  end.

Definition is_otherIcon (runningAppIds favoriteAppIds : list string)
    (icon : AppIcon.t) : bool :=
  let id := JSString.toLowerCase (AppIcon.getId icon) in
  negb (JS.includes id favoriteAppIds) && negb (JS.includes id runningAppIds).

(** The backend [_loadApps] works with: the existing one, else the one it
    creates; [None] when creating it throws. *)
Definition backend_of (env : Env) : option AppBackend.state :=
  match appBackend env with
  | Some b => Some b
  | None => new_AppBackend env
  end.

Section LoadApps.
(** [String.prototype.localeCompare] depends on the locale of the session;
    it is a parameter. *)
Variable localeCompare : string -> string -> Z.

Definition otherIcons_comparefn (a b : AppIcon.t) : Z :=
  localeCompare (AppIcon.name a) (AppIcon.name b).

(** [_loadApps ()] once the backend exists. *)
Definition _loadApps_from (backendApps : list App.t) (env : Env)
  : list AppIcon.t :=
  let icons := new_icons (next_ref env) backendApps in
  let runningAppIds := runningAppIds_of (window_apps env) in
  let favoriteAppIds := favoriteAppIds_of (favorites env) in
  let favIcons := favIcons_of favoriteAppIds icons in
  let runningIcons :=
    List.filter (is_runningIcon runningAppIds favoriteAppIds) icons in
  let otherIcons :=
    List.filter (is_otherIcon runningAppIds favoriteAppIds) icons in
  let otherIcons := JSSort.sort otherIcons_comparefn otherIcons in
  let sortedIcons := [] in
  let sortedIcons :=
    if (0 <? Z.of_nat (length favIcons)) then sortedIcons ++ favIcons
    else sortedIcons in
  let sortedIcons :=
    if (0 <? Z.of_nat (length runningIcons)) then sortedIcons ++ runningIcons
    else sortedIcons in
  let sortedIcons :=
    if (0 <? Z.of_nat (length otherIcons)) then sortedIcons ++ otherIcons
    else sortedIcons in
  sortedIcons.

(** [_loadApps ()]: the icons in display order, and the environment with the
    backend created, its cache sorted and the references used. *)
Definition _loadApps (env : Env) : list AppIcon.t * Env :=
  match backend_of env with
  | None => ([], env)
  | Some b =>
      let '(backendApps, b) := AppBackend.getAllApps b in
      (_loadApps_from backendApps env,
       {| appBackend := Some b; new_AppBackend := new_AppBackend env;
          window_apps := window_apps env; favorites := favorites env;
          next_ref := (next_ref env + length backendApps)%nat |})
  end.

End LoadApps.

(** *** _redisplay *)

(** [icon.destroy ()] as far as the grid is concerned: the actor leaves its
    parent's children. *)
Definition destroy (icon : AppIcon.t) (g : IconGrid.state AppIcon.t)
  : IconGrid.state AppIcon.t :=
  IconGrid.set_items (IconGrid._items g)
    (List.filter (fun c => negb (bool_decide (c = icon))) (IconGrid.children g))
    g.

Definition addedApps (oldApps newApps : list AppIcon.t) : list AppIcon.t :=
  let oldAppIds := map AppIcon.id oldApps in
  List.filter (fun icon => negb (JS.includes (AppIcon.id icon) oldAppIds))
    newApps.

Definition removedApps (oldApps newApps : list AppIcon.t) : list AppIcon.t :=
  let newAppIds := map AppIcon.id newApps in
  List.filter (fun icon => negb (JS.includes (AppIcon.id icon) newAppIds))
    oldApps.

(** The body of [removedApps.forEach]. *)
Definition remove_icon (v : state) (icon : AppIcon.t) : state :=
  let iconIndex := JS.indexOf icon (_orderedItems v) in
  let id := AppIcon.id icon in
  {| _grid := destroy icon (_grid v);
     _items := delete id (_items v);
     _orderedItems := JS.splice_delete1 (_orderedItems v) iconIndex;
     _viewIsReady := _viewIsReady v;
     _lastFocused := _lastFocused v |}.

(** The body of [addedApps.forEach]; an exception of [addItem] ends the
    loop. *)
Definition add_icon (newApps : list AppIcon.t) (c : completion state)
    (icon : AppIcon.t) : completion state :=
  match c with
  | Throws e v => Throws e v
  | Returns v =>
      let iconIndex := JS.indexOf icon newApps in
      let ordered := JS.splice_insert (_orderedItems v) iconIndex icon in
      match IconGrid.addItem icon (Some iconIndex) (_grid v) with
      | Throws e g =>
          Throws e {| _grid := g; _items := _items v;
                      _orderedItems := ordered;
                      _viewIsReady := _viewIsReady v;
                      _lastFocused := _lastFocused v |}
      | Returns g =>
          Returns {| _grid := g;
                     _items := <[AppIcon.id icon := icon]> (_items v);
                     _orderedItems := ordered;
                     _viewIsReady := _viewIsReady v;
                     _lastFocused := _lastFocused v |}
      end
  end.

(** [_redisplay ()] from the point where [this._loadApps ()] has returned
    [newApps].  The ['view-loaded'] signal it emits at the end is handled by
    the screen. *)
Definition _redisplay_with (newApps : list AppIcon.t) (v : state)
  : completion state :=
  let oldApps := _orderedItems v in
  let added := addedApps oldApps newApps in
  let removed := removedApps oldApps newApps in
  let v := foldl remove_icon v removed in
  match foldl (add_icon newApps) (Returns v) added with
  | Throws e v => Throws e v
  | Returns v =>
      Returns {| _grid := _grid v; _items := _items v;
                 _orderedItems := _orderedItems v;
                 _viewIsReady := true;
                 _lastFocused := _lastFocused v |}
  end.

Definition _redisplay (localeCompare : string -> string -> Z) (env : Env)
    (v : state) : completion state * Env :=
  let '(newApps, env) := _loadApps localeCompare env in
  (_redisplay_with newApps v, env).

(** *** movement *)

(** The event's [movementDirection] property: [None] when the stage handler
    has not set it. *)
Definition direction_truthy (d : option DirectionType) : bool :=
  match d with
  | Some d => JS.truthy (DirectionType_code d)
  | None => false
  end.

(** [movement (actor, event)]: the value returned, the child that grabbed
    the key focus (if any), and the view, whose [_lastFocused] follows the
    grab through ['child-focused'].  [None] when the grid's layout loop does
    not return. *)
Definition movement (movementDirection : option DirectionType) (v : state)
  : option (EventReturn * option AppIcon.t * state) :=
  match movementDirection, _lastFocused v with
  | Some direction, Some lastFocused =>
      if direction_truthy movementDirection then
        r ← IconGrid.navigate_focus (_grid v) (Some lastFocused) direction
              false;
        let v :=
          match r.1 with
          | Some child =>
              {| _grid := _grid v; _items := _items v;
                 _orderedItems := _orderedItems v;
                 _viewIsReady := _viewIsReady v;
                 _lastFocused := Some child |}
          | None => v
          end in
        Some (EVENT_STOP, r.1, v)
      else Some (EVENT_PROPAGATE, None, v)
  | _, _ => Some (EVENT_PROPAGATE, None, v)
  end.

End AppView.

(** ** The shell around the views: stage focus, laters, timeouts *)

(** The widgets of the interface: the modal group ([this.actor]), the
    lightbox, the settings list manager ([this.list]) with its two menu
    lists, the app grid ([this.apps]) and its view. *)
Inductive Widget :=
  | W_actor | W_lightbox | W_list | W_mainView | W_ifaceSettings
  | W_apps | W_appView.

#[global] Instance Widget_eq_dec : EqDecision Widget.
Proof. solve_decision. Defined.

(** Who holds the key focus of the stage: nobody, a widget itself, or a
    focusable descendant of a widget. *)
Inductive KeyFocus :=
  | FocusNone
  | FocusOn (w : Widget)
  | FocusInside (w : Widget).

#[global] Instance KeyFocus_eq_dec : EqDecision KeyFocus.
Proof. solve_decision. Defined.

Module Shell.

(** The part of GNOME Shell the screen and the menu lists act on.
    [focusable] lists the widgets on which [navigate_focus (null, _, false)]
    currently succeeds (mapped, laid out, holding a focusable child);
    [pushModal_ok] is whether [Main.pushModal] grants a grab.  Both belong
    to the environment.  [navigate_log] records every such [navigate_focus]
    call, [timeouts] the armed long-press timers by icon reference. *)
Record state := {
  key_focus : KeyFocus;
  focusable : list Widget;
  pushModal_ok : bool;
  laters : Laters Widget;
  last_source_id : N;
  timeouts : list (N * nat);
  navigate_log : list (Widget * DirectionType);
  notifications : list string
}.

Definition set_key_focus (f : KeyFocus) (sh : state) : state :=
  {| key_focus := f; focusable := focusable sh;
     pushModal_ok := pushModal_ok sh; laters := laters sh;
     last_source_id := last_source_id sh; timeouts := timeouts sh;
     navigate_log := navigate_log sh; notifications := notifications sh |}.

Definition set_laters (l : Laters Widget) (sh : state) : state :=
  {| key_focus := key_focus sh; focusable := focusable sh;
     pushModal_ok := pushModal_ok sh; laters := l;
     last_source_id := last_source_id sh; timeouts := timeouts sh;
     navigate_log := navigate_log sh; notifications := notifications sh |}.

Definition set_timeouts (id : N) (t : list (N * nat)) (sh : state) : state :=
  {| key_focus := key_focus sh; focusable := focusable sh;
     pushModal_ok := pushModal_ok sh; laters := laters sh;
     last_source_id := id; timeouts := t;
     navigate_log := navigate_log sh; notifications := notifications sh |}.

Definition log_navigate (w : Widget) (d : DirectionType) (sh : state) : state :=
  {| key_focus := key_focus sh; focusable := focusable sh;
     pushModal_ok := pushModal_ok sh; laters := laters sh;
     last_source_id := last_source_id sh; timeouts := timeouts sh;
     navigate_log := navigate_log sh ++ [(w, d)];
     notifications := notifications sh |}.

(** [Main.notify (text)]. *)
Definition notify (text : string) (sh : state) : state :=
  {| key_focus := key_focus sh; focusable := focusable sh;
     pushModal_ok := pushModal_ok sh; laters := laters sh;
     last_source_id := last_source_id sh; timeouts := timeouts sh;
     navigate_log := navigate_log sh;
     notifications := notifications sh ++ [text] |}.

(** [w.navigate_focus (null, direction, false)] of an St container that
    does not override the handler: when it succeeds a descendant of [w]
    takes the key focus and the call returns [true]; otherwise nothing
    changes and it returns [false]. *)
Definition navigate_focus (w : Widget) (direction : DirectionType) (sh : state)
  : bool * state :=
  let sh := log_navigate w direction sh in
  if bool_decide (w ∈ focusable sh)
  then (true, set_key_focus (FocusInside w) sh)
  else (false, sh).

(** [Meta.later_add (Meta.LaterType.BEFORE_REDRAW, cb)]. *)
Definition later_add (cb : LaterCallback Widget) (sh : state) : state :=
  set_laters (snd (later_add cb (laters sh))) sh.

(** A later whose callback returned [false] leaves the table. *)
Definition later_done (id : N) (sh : state) : state :=
  set_laters
    {| last_later_id := last_later_id (laters sh);
       pending :=
         List.filter (fun p => negb (fst p =? id)%N) (pending (laters sh)) |}
    sh.

(** [GLib.timeout_add (PRIORITY_DEFAULT, 800, ...)] of an icon's long-press
    detection, and [GLib.source_remove]. *)
Definition timeout_add (icon_ref : nat) (sh : state) : N * state :=
  let id := N.succ (last_source_id sh) in
  (id, set_timeouts id (timeouts sh ++ [(id, icon_ref)]) sh).

Definition source_remove (id : N) (sh : state) : state :=
  set_timeouts (last_source_id sh)
    (List.filter (fun p => negb (fst p =? id)%N) (timeouts sh)) sh.

End Shell.

(** ** menuList.js: MenuList *)

Module MenuList.

(** What [addItem] receives; [activate] names the action. *)
Record MenuListItem := { id : string; label : string; activate : string }.

Record state := { _items : gmap string MenuListItem }.

(** [_moveFocusToItems ()] of the menu list [this]. *)
Definition _moveFocusToItems (this : Widget) (m : state) (sh : Shell.state)
  : Shell.state :=
  let hasItems := (0 <? Z.of_nat (length (map_to_list (_items m))))%Z in
  if negb hasItems then sh
  else if negb (bool_decide (Shell.key_focus sh = FocusOn this)) then sh
  else
    let '(focusSet, sh) := Shell.navigate_focus this TAB_FORWARD sh in
    if negb focusSet
    then Shell.later_add (MoveFocusToItems this) sh
    else sh.

(** [addItem (data)]: the item is stored under its id, then focus is moved
    to the items. *)
Definition addItem (this : Widget) (data : MenuListItem) (m : state)
    (sh : Shell.state) : state * Shell.state :=
  let m := {| _items := <[id data := data]> (_items m) |} in
  (m, _moveFocusToItems this m sh).

(** [removeItem (label)]. *)
Definition removeItem (label : string) (m : state) : state :=
  match _items m !! label with
  | None => m
  | Some _ => {| _items := delete label (_items m) |}
  end.

(** [numItems ()]. *)
Definition numItems (m : state) : Z :=
  Z.of_nat (length (map_to_list (_items m))).

End MenuList.

(** ** extension/keyEvents.js: KeyEvents *)

Module KeyEvents.

Local Open Scope Z_scope.

(** The Clutter key symbols the handlers test (X11 keysyms). *)
Definition KEY_Escape : Z := 65307.
Definition KEY_Return : Z := 65293.
Definition KEY_KP_Enter : Z := 65421.
Definition KEY_Left : Z := 65361.
Definition KEY_Up : Z := 65362.
Definition KEY_Right : Z := 65363.
Definition KEY_Down : Z := 65364.

(** What a handler emits on the screen: the signal, and for ['movement']
    the [movementDirection] it has set on the event ([None] while the
    property is undefined). *)
Inductive Signal :=
  | Back
  | Movement (movementDirection : option DirectionType)
  | Select.

(** [handleStageKeyPress (screen, event)] for an event with key symbol
    [symbol]: the signal emitted on the screen, if any, and the value
    returned. *)
Definition handleStageKeyPress (symbol : Z) : option Signal * EventReturn :=
  if symbol =? KEY_Escape then (Some Back, EVENT_STOP)
  else if JS.includes symbol [KEY_Up; KEY_Down; KEY_Left; KEY_Right] then
    let movementDirection :=
      if symbol =? KEY_Up then Some UP
      else if symbol =? KEY_Down then Some DOWN
      else if symbol =? KEY_Left then Some LEFT
      else if symbol =? KEY_Right then Some RIGHT
      else None in
    (Some (Movement movementDirection), EVENT_PROPAGATE)
  else if (symbol =? KEY_Return) || (symbol =? KEY_KP_Enter)
  then (Some Select, EVENT_STOP)
  else (None, EVENT_PROPAGATE).

End KeyEvents.

(** ** extension/screen.js: ViewManager and MouselessScreen *)

Module Screen.

Local Open Scope Z_scope.

Inductive ViewName := View_list | View_apps.

#[global] Instance ViewName_eq_dec : EqDecision ViewName.
Proof. solve_decision. Defined.

(** [Shell.AppState]. *)
Inductive AppState := STOPPED | STARTING | RUNNING.

#[global] Instance AppState_eq_dec : EqDecision AppState.
Proof. solve_decision. Defined.

(** The modal group [this.actor]; [transition] is the opacity a running
    [ease] heads for, if one runs. *)
Record Actor := {
  visible : bool;
  opacity : Z;
  transition : option Z;
  reactive : bool;
  can_focus : bool
}.

(** [this.actor] and [this.lightbox] are [None] once [destroy] has run.
    [_modalToken] holds whether a grab token is stored; [_nAppsRunning] is
    [None] while undefined.  [list_visible] and [apps_visible] are the
    [visible] flags of the two views of the view manager, [_currentView] its
    current view.  [mainView], [ifaceSettings] are the two menu lists. *)
Record state := {
  actor : option Actor;
  lightbox : option bool;
  lightbox_handlers : nat;
  _isShown : bool;
  _modalToken : bool;
  _nAppsRunning : option Z;
  _currentView : option ViewName;
  list_visible : bool;
  apps_visible : bool;
  mainView : MenuList.state;
  ifaceSettings : MenuList.state;
  shell : Shell.state
}.

Definition set_shell (sh : Shell.state) (s : state) : state :=
  {| actor := actor s; lightbox := lightbox s;
     lightbox_handlers := lightbox_handlers s;
     _isShown := _isShown s; _modalToken := _modalToken s;
     _nAppsRunning := _nAppsRunning s; _currentView := _currentView s;
     list_visible := list_visible s; apps_visible := apps_visible s;
     mainView := mainView s; ifaceSettings := ifaceSettings s;
     shell := sh |}.

Definition set_actor (a : option Actor) (s : state) : state :=
  {| actor := a; lightbox := lightbox s;
     lightbox_handlers := lightbox_handlers s;
     _isShown := _isShown s; _modalToken := _modalToken s;
     _nAppsRunning := _nAppsRunning s; _currentView := _currentView s;
     list_visible := list_visible s; apps_visible := apps_visible s;
     mainView := mainView s; ifaceSettings := ifaceSettings s;
     shell := shell s |}.

Definition set_lightbox (l : option bool) (handlers : nat) (s : state)
  : state :=
  {| actor := actor s; lightbox := l;
     lightbox_handlers := handlers;
     _isShown := _isShown s; _modalToken := _modalToken s;
     _nAppsRunning := _nAppsRunning s; _currentView := _currentView s;
     list_visible := list_visible s; apps_visible := apps_visible s;
     mainView := mainView s; ifaceSettings := ifaceSettings s;
     shell := shell s |}.

Definition set_isShown (b : bool) (s : state) : state :=
  {| actor := actor s; lightbox := lightbox s;
     lightbox_handlers := lightbox_handlers s;
     _isShown := b; _modalToken := _modalToken s;
     _nAppsRunning := _nAppsRunning s; _currentView := _currentView s;
     list_visible := list_visible s; apps_visible := apps_visible s;
     mainView := mainView s; ifaceSettings := ifaceSettings s;
     shell := shell s |}.

Definition set_modalToken (b : bool) (s : state) : state :=
  {| actor := actor s; lightbox := lightbox s;
     lightbox_handlers := lightbox_handlers s;
     _isShown := _isShown s; _modalToken := b;
     _nAppsRunning := _nAppsRunning s; _currentView := _currentView s;
     list_visible := list_visible s; apps_visible := apps_visible s;
     mainView := mainView s; ifaceSettings := ifaceSettings s;
     shell := shell s |}.

Definition set_nAppsRunning (n : Z) (s : state) : state :=
  {| actor := actor s; lightbox := lightbox s;
     lightbox_handlers := lightbox_handlers s;
     _isShown := _isShown s; _modalToken := _modalToken s;
     _nAppsRunning := Some n; _currentView := _currentView s;
     list_visible := list_visible s; apps_visible := apps_visible s;
     mainView := mainView s; ifaceSettings := ifaceSettings s;
     shell := shell s |}.

Definition set_views (current : option ViewName) (list_v apps_v : bool)
    (s : state) : state :=
  {| actor := actor s; lightbox := lightbox s;
     lightbox_handlers := lightbox_handlers s;
     _isShown := _isShown s; _modalToken := _modalToken s;
     _nAppsRunning := _nAppsRunning s; _currentView := current;
     list_visible := list_v; apps_visible := apps_v;
     mainView := mainView s; ifaceSettings := ifaceSettings s;
     shell := shell s |}.

(** *** _grabFocus *)

(** [ListViewManager.vfunc_navigate_focus (from, direction)], the override
    behind [this.list.navigate_focus]: the inherited handler runs, then
    [this.mainView.navigate_focus (this, TAB_FORWARD, false)]; nothing is
    returned.  The inherited handler is the one of [St.Widget]: the manager
    can focus, so it takes the key focus itself where the stage lets it
    (the manager is among [Shell.focusable]).  The manager is no descendant
    of its main list, so for the list the call goes as one from outside. *)
Definition ListViewManager_vfunc_navigate_focus (direction : DirectionType)
    (sh : Shell.state) : Shell.state :=
  let sh := Shell.log_navigate W_list direction sh in
  let sh :=
    if bool_decide (W_list ∈ Shell.focusable sh)
    then Shell.set_key_focus (FocusOn W_list) sh
    else sh in
  snd (Shell.navigate_focus W_mainView TAB_FORWARD sh).

(** [actor.navigate_focus (null, direction, false)] for the actors
    [_grabFocus] is given.  The override of the list manager returns
    [undefined], which the toolkit reads as [false]. *)
Definition actor_navigate_focus (w : Widget) (direction : DirectionType)
    (sh : Shell.state) : bool * Shell.state :=
  match w with
  | W_list => (false, ListViewManager_vfunc_navigate_focus direction sh)
  | _ => Shell.navigate_focus w direction sh
  end.

(** [_grabFocus (actor, direction)]: one immediate attempt; when it fails,
    one later whose callback makes a second attempt and returns [false]. *)
Definition _grabFocus (w : Widget) (direction : DirectionType) (s : state)
  : state :=
  let '(focusSet, sh) := actor_navigate_focus w direction (shell s) in
  if negb focusSet
  then set_shell (Shell.later_add (GrabFocusRetry w direction) sh) s
  else set_shell sh s.

(** *** ViewManager *)

Definition view_visible (name : ViewName) (s : state) : bool :=
  match name with
  | View_list => list_visible s
  | View_apps => apps_visible s
  end.

(** [view.hide ()]. *)
Definition view_hide (name : ViewName) (s : state) : state :=
  match name with
  | View_list => set_views (_currentView s) false (apps_visible s) s
  | View_apps => set_views (_currentView s) (list_visible s) false s
  end.

(** [view.show ()]: a hidden view becomes visible and its ['show'] handler
    runs ([this.list]: [_grabFocus (this.list)]; [this.apps]:
    [_grabFocus (this.apps.appView, TAB_BACKWARD)]); showing a visible view
    emits nothing. *)
Definition view_show (name : ViewName) (s : state) : state :=
  if view_visible name s then s
  else
    match name with
    | View_list =>
        _grabFocus W_list TAB_FORWARD
          (set_views (_currentView s) true (apps_visible s) s)
    | View_apps =>
        _grabFocus W_appView TAB_BACKWARD
          (set_views (_currentView s) (list_visible s) true s)
    end.

(** [viewManager.showView (name)]; both names are registered views. *)
Definition showView (name : ViewName) (s : state) : state :=
  let s :=
    match _currentView s with
    | Some current =>
        if negb (bool_decide (current = name)) then view_hide current s else s
    | None => s
    end in
  let s := set_views (Some name) (list_visible s) (apps_visible s) s in
  view_show name s.

Definition showSettings (s : state) : state := showView View_list s.
Definition homeScreen (s : state) : state := showView View_apps s.

(** The handler of ['view-loaded'] of the app view. *)
Definition on_view_loaded (s : state) : state :=
  _grabFocus W_appView TAB_FORWARD s.

(** *** Modal grab *)

(** [_grabModal ()]: the value tested by [showModal], and the state. *)
Definition _grabModal (s : state) : bool * state :=
  if _modalToken s then (true, s)
  else
    let token := Shell.pushModal_ok (shell s) in
    (token, set_modalToken token s).

Definition _removeModal (s : state) : state :=
  if _modalToken s then set_modalToken false s else s.

(** *** showModal and hideModal *)

(** [showModal (skipAnimation)].  On a destroyed screen the first use of
    the missing actor throws. *)
Definition showModal (skipAnimation : bool) (s : state) : completion state :=
  match actor s, lightbox s with
  | Some _, Some _ =>
      let '(granted, s) := _grabModal s in
      let s :=
        if negb granted
        then set_shell
               (Shell.notify "Unable to acquire modal grab for the interface!"
                  (shell s)) s
        else s in
      let s := set_isShown true s in
      let s := set_lightbox (Some true) (S (lightbox_handlers s)) s in
      let s :=
        match actor s with
        | Some a =>
            if negb (visible a) then
              (* this.actor.show (): the 'show' handler adjusts the size and
                 calls _grabFocus (this.apps) *)
              let s :=
                set_actor
                  (Some {| visible := true; opacity := opacity a;
                           transition := transition a;
                           reactive := reactive a; can_focus := can_focus a |})
                  s in
              let s := _grabFocus W_apps TAB_FORWARD s in
              set_actor
                (Some {| visible := true;
                         opacity := if skipAnimation then 255 else 0;
                         transition :=
                           if skipAnimation then transition a else Some 255;
                         reactive := reactive a; can_focus := can_focus a |})
                s
            else s
        | None => s
        end in
      let s :=
        match actor s with
        | Some a =>
            set_actor
              (Some {| visible := visible a; opacity := opacity a;
                       transition := transition a;
                       reactive := true; can_focus := true |}) s
        | None => s
        end in
      Returns (set_shell (Shell.set_key_focus (FocusOn W_actor) (shell s)) s)
  | _, _ => Throws "TypeError" s
  end.

(** [hideModal (userHidden)]. *)
Definition hideModal (userHidden : bool) (s : state) : state :=
  match actor s with
  | None => s
  | Some a =>
      let s :=
        set_actor
          (Some {| visible := visible a; opacity := 0; transition := None;
                   reactive := reactive a; can_focus := can_focus a |}) s in
      let s := if userHidden then set_isShown false s else s in
      let s := _removeModal s in
      let s :=
        match lightbox s with
        | Some _ => set_lightbox (Some false) (lightbox_handlers s) s
        | None => s
        end in
      let s :=
        set_actor
          (Some {| visible := false; opacity := 0; transition := None;
                   reactive := reactive a; can_focus := can_focus a |}) s in
      homeScreen s
  end.

(** [exit ()]. *)
Definition exit (s : state) : state := homeScreen (hideModal true s).

(** [destroy ()]: the modal group and the lightbox are destroyed and
    forgotten.  The handler of ['app-state-changed'] stays connected. *)
Definition destroy (s : state) : state :=
  let s := match actor s with Some _ => set_actor None s | None => s end in
  match lightbox s with
  | Some _ => set_lightbox None (lightbox_handlers s) s
  | None => s
  end.

(** *** _updateRunningCount *)

(** [_updateRunningCount (appSys, app)]: [app] is the state of the app the
    signal carries ([None] when there is none), [apps] what
    [Shell.AppSystem.get_default ().get_running ()] returns. *)
Definition _updateRunningCount {A : Type} (app : option AppState)
    (apps : list A) (s : state) : completion state :=
  if bool_decide (app = Some STARTING) then Returns s
  else
    let s := set_nAppsRunning (Z.of_nat (length apps)) s in
    if JS.truthy (Z.of_nat (length apps)) then Returns (hideModal false s)
    else if _isShown s then showModal true s
    else Returns s.

(** Whether the interface is on screen. *)
Definition is_visible (s : state) : bool :=
  match actor s with
  | Some a => visible a
  | None => false
  end.

(** A sequence of 'app-state-changed' signals, each with the state of its
    app and the running apps at that moment; an exception ends it. *)
Fixpoint signals {A : Type} (l : list (option AppState * list A)) (s : state)
  : completion state :=
  match l with
  | [] => Returns s
  | (app, apps) :: l' =>
      match _updateRunningCount app apps s with
      | Returns s' => signals l' s'
      | Throws e s' => Throws e s'
      end
  end.

(** *** Redraw: the pending laters run *)

(** The menu list a widget is, if it is one. *)
Definition menu_of (w : Widget) (s : state) : option MenuList.state :=
  match w with
  | W_mainView => Some (mainView s)
  | W_ifaceSettings => Some (ifaceSettings s)
  | _ => None
  end.

(** What each registered callback does when it runs.  ([_updateIconSizes]
    touches icon textures only.) *)
Definition run_later (cb : LaterCallback Widget) (s : state) : state :=
  match cb with
  | GrabFocusRetry w direction =>
      set_shell (snd (actor_navigate_focus w direction (shell s))) s
  | MoveFocusToItems this =>
      match menu_of this s with
      | Some m => set_shell (MenuList._moveFocusToItems this m (shell s)) s
      | None => s
      end
  | UpdateIconSizes => s
  | RedrawNoop => s
  end.

(** Before a redraw the laters pending at that moment run in order; each
    modelled callback returns [false], so each is removed once it has run.
    A later added meanwhile waits for the next redraw. *)
Definition run_pending (s : state) (p : N * LaterCallback Widget) : state :=
  let s := run_later (snd p) s in
  set_shell (Shell.later_done (fst p) (shell s)) s.

Definition redraw (s : state) : state :=
  foldl run_pending s (pending (Shell.laters (shell s))).

Fixpoint redraws (n : nat) (s : state) : state :=
  match n with
  | O => s
  | S n' => redraws n' (redraw s)
  end.

(** *** Long-press detection of an app icon *)

(** [vfunc_button_press_event] with the primary button: an 800 ms timeout
    is armed; the id returned is what the icon keeps in
    [_longPressTimeout]. *)
Definition button_press_primary (icon_ref : nat) (s : state) : N * state :=
  let '(id, sh) := Shell.timeout_add icon_ref (shell s) in
  (id, set_shell sh s).

(** [vfunc_button_release_event] and [vfunc_clicked]: the timeout the icon
    keeps in [_longPressTimeout], if any, is removed. *)
Definition button_release (_longPressTimeout : option N) (s : state) : state :=
  match _longPressTimeout with
  | Some id => set_shell (Shell.source_remove id (shell s)) s
  | None => s
  end.

(** *** Key presses on the modal group *)

(** The ['key-press-event'] handler of [this.actor] together with the
    handlers of the three signals it emits: ['back'] hides the interface as
    the user's doing, ['movement'] is handed to the app view, ['select']
    calls [activate] of the actor that holds the key focus when it has such
    a function ([focused_activate], what that function does to the screen).
    [None] when the grid's layout loop does not return. *)
Definition key_press_event
    (focused_activate : option (state -> state)) (symbol : Z)
    (st : state * AppView.state)
  : option (EventReturn * (state * AppView.state)) :=
  let '(s, v) := st in
  let '(signal, result) := KeyEvents.handleStageKeyPress symbol in
  match signal with
  | Some KeyEvents.Back => Some (result, (hideModal true s, v))
  | Some (KeyEvents.Movement movementDirection) =>
      r ← AppView.movement movementDirection v;
      Some (result, (s, r.2))
  | Some KeyEvents.Select =>
      match focused_activate with
      | Some activate => Some (result, (activate s, v))
      | None => Some (result, (s, v))
      end
  | None => Some (result, (s, v))
  end.

End Screen.

(** ** extension.js: Mouseless *)

Module Mouseless.

(** [hide (closeModal)]: [hideModal] is called without an argument, so its
    [userHidden] is [false]. *)
Definition hide (closeModal : bool) (screen : Screen.state)
  : completion Screen.state :=
  if closeModal then Returns (Screen.hideModal false screen)
  else
    match Screen.actor screen with
    | Some a =>
        Returns
          (Screen.set_actor
             (Some {| Screen.visible := false;
                      Screen.opacity := Screen.opacity a;
                      Screen.transition := Screen.transition a;
                      Screen.reactive := Screen.reactive a;
                      Screen.can_focus := Screen.can_focus a |}) screen)
    | None => Throws "TypeError" screen
    end.

(** [_exitKeyHandler ()], bound to the exit shortcut. *)
Definition _exitKeyHandler (screen : Screen.state) : completion Screen.state :=
  hide true screen.

(** [disable ()] as far as the screen goes: it is hidden and destroyed, and
    the extension forgets it.  The result is the screen object that the
    ['app-state-changed'] handler still refers to. *)
Definition disable (screen : Screen.state) : Screen.state :=
  Screen.destroy (Screen.hideModal false screen).

End Mouseless.

(** ** Concrete data for the scenarios *)

Module Examples.

Local Open Scope Z_scope.
Local Open Scope string_scope.

Definition app (id name : string) : App.t :=
  {| App.get_id := id; App.get_name := name;
     App.desktop_file_id := Some id |}.

Definition icon_a : AppIcon.t := AppIcon.new 0 (app "a" "a").
Definition icon_b : AppIcon.t := AppIcon.new 1 (app "b" "b").
Definition icon_c : AppIcon.t := AppIcon.new 2 (app "c" "c").
Definition icon_d : AppIcon.t := AppIcon.new 3 (app "d" "d").

(** The grid [AppView._init] creates (column limit 5, at least 4 rows and
    3 columns, no padding with spacing), holding three icons and allocated
    1000 pixels of width. *)
Definition grid3 : IconGrid.state AppIcon.t :=
  IconGrid.set_allocation 0 1000
    (IconGrid.set_items [icon_a; icon_b; icon_c] [icon_a; icon_b; icon_c]
       (IconGrid.init None (Some 5) 4 3 false)).

(** A view on [grid3] whose last focused icon is [focused]. *)
Definition view3 (focused : AppIcon.t) : AppView.state :=
  {| AppView._grid := grid3;
     AppView._items :=
       <["a" := icon_a]> (<["b" := icon_b]> (<["c" := icon_c]> ∅));
     AppView._orderedItems := [icon_a; icon_b; icon_c];
     AppView._viewIsReady := true;
     AppView._lastFocused := Some focused |}.

(** A view whose grid and ordered items hold [icons]. *)
Definition view_of (icons : list AppIcon.t) : AppView.state :=
  {| AppView._grid :=
       IconGrid.set_items icons icons (IconGrid.init None (Some 5) 4 3 false);
     AppView._items :=
       list_to_map (map (fun icon => (AppIcon.id icon, icon)) icons);
     AppView._orderedItems := icons;
     AppView._viewIsReady := true;
     AppView._lastFocused := None |}.

(** Icons a later [_loadApps] creates for the apps [a] to [d]. *)
Definition icon_a' : AppIcon.t := AppIcon.new 10 (app "a" "a").
Definition icon_b' : AppIcon.t := AppIcon.new 11 (app "b" "b").
Definition icon_c' : AppIcon.t := AppIcon.new 12 (app "c" "c").
Definition icon_d' : AppIcon.t := AppIcon.new 13 (app "d" "d").

(** Scenario A of the specification: the backend knows the apps [a] to [g]
    (name and id alike) in two categories, in no particular order; the
    favorites are [a], [b], [c], in that order; one window belongs to [d]
    and one to no known app. *)
Definition scenario_A_backend : AppBackend.state :=
  {| AppBackend._appsByCategory :=
       [("Utilities", [app "g" "g"; app "d" "d"; app "a" "a"]);
        ("Games", [app "f" "f"; app "b" "b"; app "e" "e"; app "c" "c";
                   app "d" "d"])];
     AppBackend._allAppsCache := None |}.

Definition scenario_A : AppView.Env :=
  {| AppView.appBackend := None;
     AppView.new_AppBackend := Some scenario_A_backend;
     AppView.window_apps := [Some (app "d" "d"); None];
     AppView.favorites :=
       [("a", app "a" "a"); ("b", app "b" "b"); ("c", app "c" "c")];
     AppView.next_ref := 100 |}.

(** A [localeCompare] for the scenarios: case-insensitive comparison of
    code units, as a collation for unaccented Latin letters gives. *)
Definition localeCompare (a b : string) : Z :=
  match String.compare (JSString.toLowerCase a) (JSString.toLowerCase b) with
  | Lt => -1
  | Eq => 0
  | Gt => 1
  end.

(** The screen as its constructor leaves it: hidden, the apps view
    current, the main menu list holding its five entries, nothing laid out
    yet (so no widget can take the focus), a modal grab available. *)
Definition menu_entry (id label : string) : MenuList.MenuListItem :=
  {| MenuList.id := id; MenuList.label := label; MenuList.activate := id |}.

Definition main_menu : MenuList.state :=
  {| MenuList._items :=
       list_to_map
         [("back", menu_entry "back" "Back");
          ("iface-settings", menu_entry "iface-settings" "Interface Settings");
          ("display-settings",
           menu_entry "display-settings" "Display Settings");
          ("audio-settings", menu_entry "audio-settings" "Audio Settings");
          ("exit", menu_entry "exit" "Exit Interface")] |}.

Definition settings_menu : MenuList.state :=
  {| MenuList._items := <["back" := menu_entry "back" "Back"]> ∅ |}.

Definition shell0 : Shell.state :=
  {| Shell.key_focus := FocusNone;
     Shell.focusable := [];
     Shell.pushModal_ok := true;
     Shell.laters := {| last_later_id := 0%N; pending := [] |};
     Shell.last_source_id := 0%N;
     Shell.timeouts := [];
     Shell.navigate_log := [];
     Shell.notifications := [] |}.

Definition screen0 : Screen.state :=
  {| Screen.actor :=
       Some {| Screen.visible := false; Screen.opacity := 255;
               Screen.transition := None;
               Screen.reactive := false; Screen.can_focus := false |};
     Screen.lightbox := Some false;
     Screen.lightbox_handlers := 0;
     Screen._isShown := false;
     Screen._modalToken := false;
     Screen._nAppsRunning := None;
     Screen._currentView := Some Screen.View_apps;
     Screen.list_visible := false;
     Screen.apps_visible := true;
     Screen.mainView := main_menu;
     Screen.ifaceSettings := settings_menu;
     Screen.shell := shell0 |}.

(** The screen once [showModal ()] has run on [screen0]. *)
Definition screen_shown : Screen.state :=
  match Screen.showModal false screen0 with
  | Returns s => s
  | Throws _ s => s
  end.

(** The main menu list holds the key focus itself and tries to move it to
    its items, while nothing can take the focus. *)
Definition menu_waiting : Screen.state :=
  let s :=
    Screen.set_shell (Shell.set_key_focus (FocusOn W_mainView) shell0)
      screen0 in
  Screen.set_shell
    (MenuList._moveFocusToItems W_mainView (Screen.mainView s)
       (Screen.shell s)) s.

(** An empty table of laters. *)
Definition no_laters : Laters Widget :=
  {| last_later_id := 0%N; pending := [] |}.

(** A grid of [EmptyRow]s, and a row. *)
Definition row_grid : IconGrid.state EmptyRow.t :=
  IconGrid.init None None 1 1 false.

Definition a_row : EmptyRow.t :=
  {| EmptyRow.id := "row"; EmptyRow.visible := true |}.

End Examples.

(** ** Vocabulary of the properties *)

Section LayoutVocabulary.
Context {Item : Type}.

Local Open Scope Z_scope.

(** What a layout pass reads of the grid it starts from: the parameters,
    the style lengths and, unless it pads with spacing, the paddings.  The
    fixed sizes, the fixed spacing and the non-icon sizes, which the pass
    overwrites before it reads them, are not among them. *)
Definition layout_inputs (g : IconGrid.state Item) :=
  (IconGrid._rowLimit g, IconGrid._colLimit g, IconGrid._minRows g,
   IconGrid._minColumns g, IconGrid._padWithSpacing g,
   IconGrid._spacing g, IconGrid._hItemSize g, IconGrid._vItemSize g,
   (IconGrid._items g, IconGrid.children g,
    IconGrid.allocation_x1 g, IconGrid.allocation_x2 g),
   if IconGrid._padWithSpacing g then None
   else Some (IconGrid.topPadding g, IconGrid.bottomPadding g,
              IconGrid.rightPadding g, IconGrid.leftPadding g)).

(** The first three assignments of the pass. *)
Definition layout_prepare (scaleFactor availWidth availHeight : Z)
    (g : IconGrid.state Item) : IconGrid.state Item :=
  let g :=
    IconGrid.set_fixedItemSize (IconGrid._hItemSize g) (IconGrid._vItemSize g)
      g in
  let g := IconGrid._updateSpacingForSize availWidth availHeight g in
  IconGrid.set_nonIconSize
    (Z.max 0 (IconGrid._hItemSize g - scaleFactor * IconGrid.ICON_SIZE))
    (Z.max 0 (IconGrid._vItemSize g - scaleFactor * IconGrid.ICON_SIZE)) g.

(** The rest of the pass: the test of the minima and the shrinking. *)
Definition layout_finish (scaleFactor availWidth availHeight : Z)
    (g : IconGrid.state Item) : option (IconGrid.state Item) :=
  columns ← IconGrid.columnsForWidth g availWidth;
  if (columns <? IconGrid._minColumns g)
     || (IconGrid.rowsForHeight g availHeight <? IconGrid._minRows g)
  then
    let neededWidth :=
      IconGrid.usedWidthForNColumns g (IconGrid._minColumns g) - availWidth in
    let neededHeight :=
      IconGrid.usedHeightForNRows g (IconGrid._minRows g) - availHeight in
    let neededSpacePerItem :=
      if neededWidth >? neededHeight
      then JS.ceil_div neededWidth (IconGrid._minColumns g)
      else JS.ceil_div neededHeight (IconGrid._minRows g) in
    let g :=
      IconGrid.set_fixedItemSize
        (Z.max (IconGrid._hItemSize g - neededSpacePerItem)
           (IconGrid._nonIconWidth g + scaleFactor * IconGrid.MIN_ICON_SIZE))
        (Z.max (IconGrid._vItemSize g - neededSpacePerItem)
           (IconGrid._nonIconHeight g + scaleFactor * IconGrid.MIN_ICON_SIZE))
        g in
    Some (IconGrid._updateSpacingForSize availWidth availHeight g)
  else Some g.

End LayoutVocabulary.

Section OrderVocabulary.

Local Open Scope Z_scope.

(** The order a comparator stands for: [x] may stay before [y]. *)
Definition sort_le {A : Type} (comparefn : A -> A -> Z) (x y : A) : Prop :=
  comparefn x y <= 0.

(** Alphabetical by lower-cased name, the order [getAllApps] sorts in. *)
Definition app_name_le (a b : App.t) : Prop :=
  AppBackend.getAllApps_comparefn a b = false.



End OrderVocabulary.

Section AppVocabulary.



(** Ids and names within ASCII, where the case map and the order of the
    embedding are those of JavaScript. *)
Definition ascii_ids (apps : list App.t) : bool :=
  forallb (fun app => JSString.is_ascii (App.get_id app)) apps.

Definition ascii_names (apps : list App.t) : bool :=
  forallb (fun app => JSString.is_ascii (App.get_name app)) apps.

(** The ids [_loadApps] reads from the session, the favorite map's keys and
    the ids of the apps that have a window, are within ASCII. *)
Definition ascii_session (env : AppView.Env) : bool :=
  forallb JSString.is_ascii (JSObject.keys (AppView.favorites env))
  && forallb (fun runningApp : option App.t =>
                match runningApp with
                | Some a => JSString.is_ascii (App.get_id a)
                | None => true
                end)
       (AppView.window_apps env).



End AppVocabulary.

Section ScreenVocabulary.

Local Open Scope Z_scope.

(** What a focus attempt or a change of view leaves as it was: the modal
    group and the lightbox, the flags, the menu lists, the armed timeouts
    and the environment; the laters pending before are still pending, in
    front of any new one. *)
Definition focus_frame (s s' : Screen.state) : Prop :=
  Screen.actor s' = Screen.actor s
  /\ Screen.lightbox s' = Screen.lightbox s
  /\ Screen._isShown s' = Screen._isShown s
  /\ Screen._modalToken s' = Screen._modalToken s
  /\ Screen.mainView s' = Screen.mainView s
  /\ Screen.ifaceSettings s' = Screen.ifaceSettings s
  /\ Shell.timeouts (Screen.shell s') = Shell.timeouts (Screen.shell s)
  /\ Shell.focusable (Screen.shell s') = Shell.focusable (Screen.shell s)
  /\ pending (Shell.laters (Screen.shell s))
     `prefix_of` pending (Shell.laters (Screen.shell s')).

(** The steps of [hideModal] before [homeScreen ()]. *)
Definition hide_steps (userHidden : bool) (a : Screen.Actor)
    (s : Screen.state) : Screen.state :=
  let s :=
    Screen.set_actor
      (Some {| Screen.visible := Screen.visible a; Screen.opacity := 0;
               Screen.transition := None;
               Screen.reactive := Screen.reactive a;
               Screen.can_focus := Screen.can_focus a |}) s in
  let s := if userHidden then Screen.set_isShown false s else s in
  let s := Screen._removeModal s in
  let s :=
    match Screen.lightbox s with
    | Some _ => Screen.set_lightbox (Some false) (Screen.lightbox_handlers s) s
    | None => s
    end in
  Screen.set_actor
    (Some {| Screen.visible := false; Screen.opacity := 0;
             Screen.transition := None;
             Screen.reactive := Screen.reactive a;
             Screen.can_focus := Screen.can_focus a |}) s.

(** A menu list waits for the focus: it has items, it holds the key focus
    itself, [navigate_focus] fails on it, and its retry is the one pending
    later. *)
Definition waiting (this : Widget) (s : Screen.state) : Prop :=
  exists m id,
    Screen.menu_of this s = Some m
    /\ 0 < Z.of_nat (length (map_to_list (MenuList._items m)))
    /\ Shell.key_focus (Screen.shell s) = FocusOn this
    /\ (this ∉ Shell.focusable (Screen.shell s))
    /\ pending (Shell.laters (Screen.shell s)) = [(id, MoveFocusToItems this)]
    /\ (id <= last_later_id (Shell.laters (Screen.shell s)))%N.

End ScreenVocabulary.

(** * Properties *)

(** ** Arrays *)

Section ArrayFacts.
Context {A : Type} `{EqDecision A}.

Local Open Scope Z_scope.

Lemma indexOf_from_range (x : A) (l : list A) (i : Z) :
  JS.indexOf_from i x l = -1
  \/ i <= JS.indexOf_from i x l < i + Z.of_nat (length l).
Proof.
  revert i. induction l as [|y l IH]; intros i; simpl; [by left|].
  destruct (decide (y = x)); [right; lia|].
  destruct (IH (i + 1)) as [->|?]; [by left | right; lia].
Qed.

Lemma indexOf_from_lookup (x : A) (l : list A) (i : Z) :
  0 <= i -> 0 <= JS.indexOf_from i x l ->
  l !! Z.to_nat (JS.indexOf_from i x l - i) = Some x.
Proof.
  revert i. induction l as [|y l IH]; intros i Hi; simpl; [lia|].
  destruct (decide (y = x)) as [->|Hne]; intros Hidx.
  - by replace (i - i) with 0 by lia.
  - specialize (IH (i + 1) ltac:(lia) Hidx).
    destruct (indexOf_from_range x l (i + 1)) as [E|E]; [lia|].
    replace (Z.to_nat (JS.indexOf_from (i + 1) x l - i))
      with (S (Z.to_nat (JS.indexOf_from (i + 1) x l - (i + 1)))) by lia.
    exact IH.
Qed.

(** A found element is the one stored at the index found. *)
Lemma indexOf_get (x : A) (l : list A) :
  0 <= JS.indexOf x l -> JS.get l (JS.indexOf x l) = Some x.
Proof.
  intros Hidx. unfold JS.get.
  destruct (Z.ltb_spec (JS.indexOf x l) 0); [lia|].
  unfold JS.indexOf in *.
  pose proof (indexOf_from_lookup x l 0 ltac:(lia) Hidx) as E.
  by rewrite Z.sub_0_r in E.
Qed.

Lemma indexOf_lt_length (x : A) (l : list A) :
  JS.indexOf x l < Z.of_nat (length l).
Proof.
  unfold JS.indexOf. destruct (indexOf_from_range x l 0); lia.
Qed.

Lemma get_in_range (l : list A) (i : Z) :
  0 <= i < Z.of_nat (length l) -> is_Some (JS.get l i).
Proof.
  intros Hi. unfold JS.get. destruct (Z.ltb_spec i 0); [lia|].
  apply lookup_lt_is_Some. lia.
Qed.

End ArrayFacts.

(** ** Directional navigation *)

Section Navigation.

Local Open Scope Z_scope.

(** The index [navigate_focus] computes for a spatial direction lies in the
    collection. *)
Lemma newIndex_spatial (direction : DirectionType) (wrap : bool)
    (columns count idx : Z) :
  1 <= columns -> 0 <= idx < count ->
  direction <> TAB_FORWARD -> direction <> TAB_BACKWARD ->
  exists j, IconGrid.newIndex direction wrap idx count columns = Some j
            /\ 0 <= j < count.
Proof.
  intros Hc Hi Hf Hb. destruct direction; try done; simpl.
  - (* UP *)
    eexists; split; [reflexivity|].
    destruct (Z.ltb_spec (idx - columns) 0); [|lia].
    rewrite Z.rem_small by lia.
    pose proof (Z.div_mod (count - 1) columns ltac:(lia)) as Hdm.
    pose proof (Z.mod_pos_bound (count - 1) columns ltac:(lia)) as Hm.
    set (q := (count - 1) / columns) in *.
    assert (0 <= q) by (apply Z.div_pos; lia).
    clearbody q.
    destruct (Z.geb_spec (idx + q * columns) count).
    + assert (1 <= q) by nia.
      assert (0 <= (q - 1) * columns) by nia. lia.
    + assert (0 <= q * columns) by nia. lia.
  - (* DOWN *)
    eexists; split; [reflexivity|].
    destruct (Z.geb_spec (idx + columns) count); [|lia].
    pose proof (Z.rem_bound_pos idx columns ltac:(lia) ltac:(lia)).
    pose proof (Z.rem_le idx columns ltac:(lia) ltac:(lia)). lia.
  - (* LEFT *)
    eexists; split; [reflexivity|].
    destruct (Z.ltb_spec (idx - 1) 0), wrap; lia.
  - (* RIGHT *)
    eexists; split; [reflexivity|].
    destruct (Z.geb_spec (idx + 1) count), wrap; lia.
Qed.

(** Scenario B of the specification: 5 items in 3 columns, focus on index 4,
    Up wraps to index 1. *)
Example newIndex_scenario_B : IconGrid.newIndex UP true 4 5 3 = Some 1.
Proof. reflexivity. Qed.

Example newIndex_down_ragged : IconGrid.newIndex DOWN true 2 5 3 = Some 2.
Proof. reflexivity. Qed.

Example newIndex_up_ragged : IconGrid.newIndex UP true 2 5 3 = Some 2.
Proof. reflexivity. Qed.

(** C1.  For each direction, each column count [columns >= 1] and each
    current index [idx] in [0, count), the index arithmetic of
    [IconGrid.navigate_focus] either reports no movement (only for the two
    tab directions, which the method does not handle) or resolves a target
    index in [0, count); for Up, Down, Left and Right it always resolves one,
    also when the last row is ragged. *)
Theorem navigate_focus_index_in_range (direction : DirectionType)
    (wrap : bool) (columns count idx : Z) :
  1 <= columns -> 0 <= idx < count ->
  match IconGrid.newIndex direction wrap idx count columns with
  | Some j => 0 <= j < count
  | None => direction = TAB_FORWARD \/ direction = TAB_BACKWARD
  end.
Proof.
  intros Hc Hi.
  destruct (decide (direction = TAB_FORWARD)) as [->|Hf]; [by left|].
  destruct (decide (direction = TAB_BACKWARD)) as [->|Hb]; [by right|].
  destruct (newIndex_spatial direction wrap columns count idx Hc Hi Hf Hb)
    as (j & -> & Hj).
  exact Hj.
Qed.

Lemma navigate_focus_index_in_range_witness :
  match IconGrid.newIndex UP true 4 5 3 with
  | Some j => 0 <= j < 5
  | None => UP = TAB_FORWARD \/ UP = TAB_BACKWARD
  end.
Proof.
  apply (navigate_focus_index_in_range UP true 3 5 4); lia.
Defined.

(** C9.  With wrap enabled, Right followed by Left leads back to the
    index the movement started from, for every column count. *)
Theorem newIndex_right_then_left (c n i : Z) :
  1 <= n -> 0 <= i < n ->
  exists j, IconGrid.newIndex RIGHT true i n c = Some j
            /\ IconGrid.newIndex LEFT true j n c = Some i.
Proof.
  intros Hn Hi. simpl. eexists; split; [reflexivity|]. f_equal.
  destruct (Z.geb_spec (i + 1) n).
  - simpl. lia.
  - destruct (Z.ltb_spec (i + 1 - 1) 0); lia.
Qed.

Lemma newIndex_right_then_left_witness :
  exists j, IconGrid.newIndex RIGHT true 4 5 3 = Some j
            /\ IconGrid.newIndex LEFT true j 5 3 = Some 4.
Proof.
  apply (newIndex_right_then_left 3 5 4); lia.
Defined.

End Navigation.

(** ** The layout loop *)

Section LayoutLoop.

Local Open Scope Z_scope.

(** The loop only counts upwards. *)
Lemma _computeLayout_loop_columns (fuel : nat) (colLimit : option Z)
    (hItemSize spacing forWidth nColumns usedWidth n u : Z) :
  IconGrid._computeLayout_loop fuel colLimit hItemSize spacing forWidth
    nColumns usedWidth = Some (n, u) ->
  nColumns <= n.
Proof.
  revert nColumns usedWidth.
  induction fuel as [|fuel IH]; intros nColumns usedWidth; simpl.
  - destruct (_ && _); [done|]. intros [= <- <-]. lia.
  - destruct (_ && _).
    + intros E. apply IH in E. lia.
    + intros [= <- <-]. lia.
Qed.

Lemma _computeLayout_columns {Item : Type} (g : IconGrid.state Item)
    (forWidth n u : Z) :
  IconGrid._computeLayout g forWidth = Some (n, u) -> 0 <= n.
Proof.
  unfold IconGrid._computeLayout.
  destruct (IconGrid._computeLayout_loop _ _ _ _ _ _ _) as [[n' u']|] eqn:E;
    [|done].
  simpl. intros [= <- <-].
  by apply _computeLayout_loop_columns in E.
Qed.

(** The fuel is enough whenever the JavaScript loop stops: with a column
    limit it always does; without one it does when an iteration adds width,
    or when the condition is false from the start. *)
Lemma _computeLayout_loop_limit (fuel : nat) (c : Z)
    (hItemSize spacing forWidth nColumns usedWidth : Z) :
  (Z.to_nat (c - nColumns) <= fuel)%nat ->
  is_Some (IconGrid._computeLayout_loop fuel (Some c) hItemSize spacing
             forWidth nColumns usedWidth).
Proof.
  revert nColumns usedWidth.
  induction fuel as [|fuel IH]; intros nColumns usedWidth Hf; simpl.
  - destruct (Z.ltb_spec nColumns c); [lia|]. by eexists.
  - destruct (Z.ltb_spec nColumns c); simpl; [|by eexists].
    destruct (_ <=? _); [|by eexists]. apply IH. lia.
Qed.

Lemma _computeLayout_loop_step (fuel : nat) (colLimit : option Z)
    (hItemSize spacing forWidth nColumns usedWidth : Z) :
  0 < hItemSize + spacing ->
  (Z.to_nat (forWidth - usedWidth - hItemSize + 1) <= fuel)%nat ->
  is_Some (IconGrid._computeLayout_loop fuel colLimit hItemSize spacing
             forWidth nColumns usedWidth).
Proof.
  intros Hstep. revert nColumns usedWidth.
  induction fuel as [|fuel IH]; intros nColumns usedWidth Hf; simpl.
  - destruct (Z.leb_spec (usedWidth + hItemSize) forWidth); [lia|].
    rewrite andb_false_r. by eexists.
  - destruct (Z.leb_spec (usedWidth + hItemSize) forWidth);
      [|rewrite andb_false_r; by eexists].
    destruct (match colLimit with Some c => _ | None => _ end); simpl;
      [|by eexists].
    apply IH. lia.
Qed.

(** [_computeLayout] returns unless the grid has no column limit, an
    iteration adds no width and the first item already fits: the case in
    which the JavaScript loop runs forever. *)
Lemma _computeLayout_returns {Item : Type} (g : IconGrid.state Item)
    (forWidth : Z) :
  is_Some (IconGrid._colLimit g)
  \/ 0 < IconGrid._getHItemSize g + IconGrid._getSpacing g
  \/ forWidth
     < IconGrid.leftPadding g + IconGrid.rightPadding g
       + IconGrid._getHItemSize g ->
  is_Some (IconGrid._computeLayout g forWidth).
Proof.
  intros Hcase. unfold IconGrid._computeLayout.
  match goal with
  | |- is_Some (mbind _ ?loop) => assert (is_Some loop) as [[n u] ->]
  end; [|by eexists].
  unfold IconGrid._computeLayout_fuel.
  destruct (IconGrid._colLimit g) as [c|] eqn:Ec.
  - apply _computeLayout_loop_limit. lia.
  - destruct Hcase as [[? [=]]|Hcase].
    destruct (Z.ltb_spec 0 (IconGrid._getHItemSize g + IconGrid._getSpacing g)).
    + by apply _computeLayout_loop_step.
    + destruct Hcase as [?|Hfit]; [lia|]. simpl.
      destruct (Z.leb_spec
                  (IconGrid.leftPadding g + IconGrid.rightPadding g
                   + IconGrid._getHItemSize g) forWidth); [lia|].
      by eexists.
Qed.

End LayoutLoop.

(** ** navigate_focus on a grid *)

Section GridNavigation.
Context {Item : Type} `{GridItem Item}.

Local Open Scope Z_scope.

(** On a grid whose layout loop returns, a spatial movement from a visible
    child always hands the key focus to the visible child at the index
    [newIndex] computes, and returns [true]. *)
Lemma navigate_focus_spatial (g : IconGrid.state Item) (current : Item)
    (direction : DirectionType) (wrap : bool) :
  let kids := IconGrid._getVisibleChildren g in
  is_Some (IconGrid._computeLayout g
             (IconGrid.allocation_x2 g - IconGrid.allocation_x1 g)) ->
  0 <= JS.indexOf current kids ->
  direction <> TAB_FORWARD -> direction <> TAB_BACKWARD ->
  exists layout j child,
    IconGrid._computeLayout g
      (IconGrid.allocation_x2 g - IconGrid.allocation_x1 g) = Some layout
    /\ IconGrid.newIndex direction wrap (JS.indexOf current kids)
         (Z.of_nat (length kids)) (JS.or_else (fst layout) 1) = Some j
    /\ JS.get kids j = Some child
    /\ IconGrid.navigate_focus g (Some current) direction wrap
       = Some (Some child, true).
Proof.
  intros kids [[n u] Hl] Hidx Hf Hb.
  pose proof (indexOf_lt_length current kids) as Hlt.
  pose proof (_computeLayout_columns g _ n u Hl) as Hn.
  assert (1 <= JS.or_else n 1) as Hcols.
  { unfold JS.or_else, JS.truthy. destruct (Z.eqb_spec n 0); simpl; lia. }
  assert (0 <= JS.indexOf current kids < Z.of_nat (length kids)) as Hrange
    by (split; [exact Hidx | exact Hlt]).
  destruct (newIndex_spatial direction wrap (JS.or_else n 1)
              (Z.of_nat (length kids)) (JS.indexOf current kids)
              Hcols Hrange Hf Hb) as (j & Ej & Hj).
  destruct (get_in_range kids j Hj) as [child Ec].
  exists (n, u), j, child. repeat split; [done..|].
  unfold IconGrid.navigate_focus. fold kids.
  destruct kids as [|first rest] eqn:Ek; [simpl in *; lia|].
  destruct (Z.ltb_spec (JS.indexOf current (first :: rest)) 0); [lia|].
  rewrite Hl. simpl. simpl in Ej. rewrite Ej. by rewrite Ec.
Qed.

(** Without wrap, Left at the first child and Right at the last one resolve
    to the child the movement started from. *)
Lemma navigate_focus_clamped (g : IconGrid.state Item) (current : Item) :
  let kids := IconGrid._getVisibleChildren g in
  is_Some (IconGrid._computeLayout g
             (IconGrid.allocation_x2 g - IconGrid.allocation_x1 g)) ->
  0 <= JS.indexOf current kids ->
  (JS.indexOf current kids = 0 ->
   IconGrid.navigate_focus g (Some current) LEFT false
   = Some (Some current, true))
  /\ (JS.indexOf current kids = Z.of_nat (length kids) - 1 ->
      IconGrid.navigate_focus g (Some current) RIGHT false
      = Some (Some current, true)).
Proof.
  intros kids Hl Hidx.
  pose proof (indexOf_get current kids Hidx) as Hget.
  split; intros E.
  - destruct (navigate_focus_spatial g current LEFT false Hl Hidx)
      as (layout & j & child & _ & Ej & Ec & ->); [done..|].
    fold kids in Ej, Ec. rewrite E in Ej, Hget. simpl in Ej.
    injection Ej as <-. by rewrite Hget in Ec; injection Ec as <-.
  - destruct (navigate_focus_spatial g current RIGHT false Hl Hidx)
      as (layout & j & child & _ & Ej & Ec & ->); [done..|].
    fold kids in Ej, Ec. rewrite E in Ej, Hget. simpl in Ej.
    destruct (Z.geb_spec (Z.of_nat (length kids) - 1 + 1)
                (Z.of_nat (length kids))); [|lia].
    injection Ej as <-. by rewrite Hget in Ec; injection Ec as <-.
Qed.

End GridNavigation.

(** ** AppView.movement at the edges *)

Section MovementEdges.

Local Open Scope Z_scope.

(** C4.  At the edges the code does not report "no movement", against
    its own documentation.  With wrap disabled and the focus on the first of
    three icons, Left makes [navigate_focus] grab the focus for that same
    icon and return [true] (documented: "True if focus changed"), and
    [movement] returns [EVENT_STOP] (documented: "EVENT_STOP if the focus is
    successfully moved; otherwise EVENT_PROPAGATE"); likewise Right on the
    last icon.  The key event itself propagates, as it does for every arrow
    key: the screen's handler drops what [movement] returns. *)
Lemma movement_at_the_edge_reports_a_move :
  IconGrid.navigate_focus Examples.grid3 (Some Examples.icon_a) LEFT false
  = Some (Some Examples.icon_a, true)
  /\ AppView.movement (Some LEFT) (Examples.view3 Examples.icon_a)
     = Some (EVENT_STOP, Some Examples.icon_a,
             Examples.view3 Examples.icon_a)
  /\ IconGrid.navigate_focus Examples.grid3 (Some Examples.icon_c) RIGHT false
     = Some (Some Examples.icon_c, true)
  /\ AppView.movement (Some RIGHT) (Examples.view3 Examples.icon_c)
     = Some (EVENT_STOP, Some Examples.icon_c,
             Examples.view3 Examples.icon_c)
  /\ Screen.key_press_event None KeyEvents.KEY_Left
       (Examples.screen_shown, Examples.view3 Examples.icon_a)
     = Some (EVENT_PROPAGATE,
             (Examples.screen_shown, Examples.view3 Examples.icon_a))
  /\ Screen.key_press_event None KeyEvents.KEY_Right
       (Examples.screen_shown, Examples.view3 Examples.icon_c)
     = Some (EVENT_PROPAGATE,
             (Examples.screen_shown, Examples.view3 Examples.icon_c)).
Proof. repeat split; vm_compute; reflexivity. Qed.

(** X28.  The same on every grid.  With wrap disabled, a Left movement
    from the first visible child and a Right movement from the last one are
    clamped to the child they start from: [navigate_focus] hands the key
    focus to that same child and returns [true], and [AppView.movement]
    leaves the view as it is and returns [EVENT_STOP]. *)
Theorem movement_clamps_at_the_edges (v : AppView.state)
    (current : AppIcon.t) :
  let g := AppView._grid v in
  let kids := IconGrid._getVisibleChildren g in
  is_Some (IconGrid._computeLayout g
             (IconGrid.allocation_x2 g - IconGrid.allocation_x1 g)) ->
  AppView._lastFocused v = Some current ->
  0 <= JS.indexOf current kids ->
  (JS.indexOf current kids = 0 ->
   IconGrid.navigate_focus g (Some current) LEFT false
   = Some (Some current, true)
   /\ AppView.movement (Some LEFT) v = Some (EVENT_STOP, Some current, v))
  /\ (JS.indexOf current kids = Z.of_nat (length kids) - 1 ->
      IconGrid.navigate_focus g (Some current) RIGHT false
      = Some (Some current, true)
      /\ AppView.movement (Some RIGHT) v
         = Some (EVENT_STOP, Some current, v)).
Proof.
  intros g kids Hl Hlast Hidx.
  destruct (navigate_focus_clamped g current Hl Hidx) as [HL HR].
  split; intros E.
  - specialize (HL E). split; [done|].
    unfold AppView.movement. rewrite Hlast. simpl.
    fold g. rewrite HL. simpl. destruct v; simpl in *. by subst.
  - specialize (HR E). split; [done|].
    unfold AppView.movement. rewrite Hlast. simpl.
    fold g. rewrite HR. simpl. destruct v; simpl in *. by subst.
Qed.

Lemma movement_clamps_at_the_edges_witness :
  (IconGrid.navigate_focus Examples.grid3 (Some Examples.icon_a) LEFT false
   = Some (Some Examples.icon_a, true)
   /\ AppView.movement (Some LEFT) (Examples.view3 Examples.icon_a)
      = Some (EVENT_STOP, Some Examples.icon_a,
              Examples.view3 Examples.icon_a))
  /\ (IconGrid.navigate_focus Examples.grid3 (Some Examples.icon_c) RIGHT false
      = Some (Some Examples.icon_c, true)
      /\ AppView.movement (Some RIGHT) (Examples.view3 Examples.icon_c)
         = Some (EVENT_STOP, Some Examples.icon_c,
                 Examples.view3 Examples.icon_c)).
Proof.
  split.
  - apply (movement_clamps_at_the_edges (Examples.view3 Examples.icon_a)
             Examples.icon_a).
    + vm_compute. by eexists.
    + reflexivity.
    + vm_compute. discriminate.
    + reflexivity.
  - apply (movement_clamps_at_the_edges (Examples.view3 Examples.icon_c)
             Examples.icon_c).
    + vm_compute. by eexists.
    + reflexivity.
    + vm_compute. discriminate.
    + reflexivity.
Defined.

End MovementEdges.

(** ** The layout pass *)

Section LayoutPass.
Context {Item : Type}.

Local Open Scope Z_scope.

(** Once prepared, the grid differs from another grid with the same inputs
    in [_updateIconSizesLaterId] at most. *)
Lemma layout_prepare_inputs (scaleFactor availWidth availHeight : Z)
    (g1 g2 : IconGrid.state Item) :
  layout_inputs g1 = layout_inputs g2 ->
  layout_prepare scaleFactor availWidth availHeight g1
  = IconGrid.set_updateIconSizesLaterId (IconGrid._updateIconSizesLaterId g1)
      (layout_prepare scaleFactor availWidth availHeight g2).
Proof.
  destruct g1, g2. unfold layout_inputs. simpl.
  intros E. injection E as -> -> -> -> -> -> -> -> -> -> -> -> Hpad.
  unfold layout_prepare, IconGrid._updateSpacingForSize. simpl.
  match goal with
  | H : context [if ?b then _ else _] |- _ => destruct b
  end; simpl.
  - reflexivity.
  - injection Hpad as -> -> -> ->. reflexivity.
Qed.

Lemma layout_prepare_laterId (scaleFactor availWidth availHeight : Z)
    (g : IconGrid.state Item) :
  IconGrid._updateIconSizesLaterId
    (layout_prepare scaleFactor availWidth availHeight g)
  = IconGrid._updateIconSizesLaterId g.
Proof.
  unfold layout_prepare, IconGrid._updateSpacingForSize. simpl.
  by destruct (IconGrid._padWithSpacing g).
Qed.

Lemma layout_prepare_same_inputs (scaleFactor availWidth availHeight : Z)
    (g : IconGrid.state Item) :
  layout_inputs (layout_prepare scaleFactor availWidth availHeight g)
  = layout_inputs g.
Proof.
  destruct g as [? ? ? ? pad ? ? ? ? ? ? ? ? ? ? ? ? ? ? ? ? ?].
  unfold layout_prepare, IconGrid._updateSpacingForSize, layout_inputs.
  by destruct pad.
Qed.

Lemma adaptToSize_layout_split (scaleFactor availWidth availHeight : Z)
    (g : IconGrid.state Item) :
  IconGrid.adaptToSize_layout scaleFactor availWidth availHeight g
  = layout_finish scaleFactor availWidth availHeight
      (layout_prepare scaleFactor availWidth availHeight g).
Proof. reflexivity. Qed.

Lemma _updateSpacingForSize_laterId (availWidth availHeight : Z) (id : N)
    (g : IconGrid.state Item) :
  IconGrid._updateSpacingForSize availWidth availHeight
    (IconGrid.set_updateIconSizesLaterId id g)
  = IconGrid.set_updateIconSizesLaterId id
      (IconGrid._updateSpacingForSize availWidth availHeight g).
Proof.
  destruct g as [? ? ? ? pad ? ? ? ? ? ? ? ? ? ? ? ? ? ? ? ? ?].
  unfold IconGrid._updateSpacingForSize. by destruct pad.
Qed.

Lemma layout_finish_laterId (scaleFactor availWidth availHeight : Z) (id : N)
    (g : IconGrid.state Item) :
  layout_finish scaleFactor availWidth availHeight
    (IconGrid.set_updateIconSizesLaterId id g)
  = IconGrid.set_updateIconSizesLaterId id
    <$> layout_finish scaleFactor availWidth availHeight g.
Proof.
  unfold layout_finish.
  change (IconGrid.columnsForWidth (IconGrid.set_updateIconSizesLaterId id g)
            availWidth)
    with (IconGrid.columnsForWidth g availWidth).
  destruct (IconGrid.columnsForWidth g availWidth) as [columns|]; [|done].
  simpl.
  change (IconGrid.rowsForHeight (IconGrid.set_updateIconSizesLaterId id g)
            availHeight)
    with (IconGrid.rowsForHeight g availHeight).
  destruct (_ || _); simpl; [|done].
  f_equal.
  exact (_updateSpacingForSize_laterId availWidth availHeight id
           (IconGrid.set_fixedItemSize _ _ g)).
Qed.

Lemma layout_finish_same_inputs (scaleFactor availWidth availHeight : Z)
    (g g' : IconGrid.state Item) :
  layout_finish scaleFactor availWidth availHeight g = Some g' ->
  layout_inputs g' = layout_inputs g
  /\ IconGrid._updateIconSizesLaterId g' = IconGrid._updateIconSizesLaterId g.
Proof.
  unfold layout_finish.
  destruct (IconGrid.columnsForWidth g availWidth) as [columns|]; [|done].
  simpl. destruct (_ || _).
  - intros [= <-].
    destruct g as [? ? ? ? pad ? ? ? ? ? ? ? ? ? ? ? ? ? ? ? ? ?].
    unfold IconGrid._updateSpacingForSize, layout_inputs.
    by destruct pad.
  - by intros [= <-].
Qed.

Lemma set_updateIconSizesLaterId_same (g : IconGrid.state Item) :
  IconGrid.set_updateIconSizesLaterId (IconGrid._updateIconSizesLaterId g) g
  = g.
Proof. by destruct g. Qed.

Lemma set_updateIconSizesLaterId_inputs (id : N) (g : IconGrid.state Item) :
  layout_inputs (IconGrid.set_updateIconSizesLaterId id g) = layout_inputs g.
Proof. reflexivity. Qed.

(** A second layout pass, started from the result of a first one in which
    [_updateIconSizesLaterId] may have been reassigned, ends in the same
    grid. *)
Lemma adaptToSize_layout_again (scaleFactor availWidth availHeight : Z)
    (id : N) (g g1 : IconGrid.state Item) :
  IconGrid.adaptToSize_layout scaleFactor availWidth availHeight g = Some g1 ->
  IconGrid.adaptToSize_layout scaleFactor availWidth availHeight
    (IconGrid.set_updateIconSizesLaterId id g1)
  = Some (IconGrid.set_updateIconSizesLaterId id g1).
Proof.
  rewrite !adaptToSize_layout_split. intros E.
  destruct (layout_finish_same_inputs _ _ _ _ _ E) as [Hin Hid].
  rewrite layout_prepare_same_inputs in Hin.
  rewrite (layout_prepare_inputs scaleFactor availWidth availHeight
             (IconGrid.set_updateIconSizesLaterId id g1) g)
    by (by rewrite set_updateIconSizesLaterId_inputs).
  rewrite layout_finish_laterId, E. simpl. by destruct g1.
Qed.

Lemma layout_prepare_sizes (scaleFactor availWidth availHeight : Z)
    (g : IconGrid.state Item) :
  IconGrid._getHItemSize (layout_prepare scaleFactor availWidth availHeight g)
  = IconGrid._hItemSize g
  /\ exists m,
       IconGrid._fixedSpacing
         (layout_prepare scaleFactor availWidth availHeight g)
       = Some (Z.max (IconGrid._spacing g) m)
       /\ IconGrid._spacing
            (layout_prepare scaleFactor availWidth availHeight g)
          = IconGrid._spacing g.
Proof.
  destruct g as [? ? ? ? pad ? ? ? ? ? ? ? ? h ? ? ? ? ? ? ? ?].
  unfold layout_prepare, IconGrid._updateSpacingForSize,
    IconGrid._getHItemSize.
  destruct pad; simpl.
  - split; [unfold JS.pick; by destruct (JS.truthy h)|].
    eexists; split; reflexivity.
  - split; [unfold JS.pick; by destruct (JS.truthy h)|].
    eexists; split; reflexivity.
Qed.

(** On a grid with positive item sizes and non-negative style spacing the
    layout loop stops, so the pass returns. *)
Lemma adaptToSize_layout_returns (scaleFactor availWidth availHeight : Z)
    (g : IconGrid.state Item) :
  0 < IconGrid._hItemSize g -> 0 <= IconGrid._spacing g ->
  is_Some (IconGrid.adaptToSize_layout scaleFactor availWidth availHeight g).
Proof.
  intros Hh Hs. rewrite adaptToSize_layout_split. unfold layout_finish.
  destruct (layout_prepare_sizes scaleFactor availWidth availHeight g)
    as (EH & m & EF & ES).
  set (g0 := layout_prepare scaleFactor availWidth availHeight g) in *.
  assert (is_Some (IconGrid.columnsForWidth g0 availWidth)) as [columns ->].
  { unfold IconGrid.columnsForWidth.
    destruct (_computeLayout_returns g0 availWidth) as [layout ->];
      [|by eexists].
    right; left. rewrite EH.
    unfold IconGrid._getSpacing, JS.pick, JS.truthy. rewrite EF, ES.
    destruct (Z.eqb_spec (Z.max (IconGrid._spacing g) m) 0); simpl; lia. }
  simpl. destruct (_ || _); by eexists.
Qed.

End LayoutPass.

Section AdaptToSize.
Context {Item Widget : Type}.

Local Open Scope Z_scope.

(** C8.  On a grid with at least one row and one column required, positive
    item sizes, non-negative style spacing and a scale factor of at least 1
    (where the integer model agrees with the JavaScript arithmetic),
    [adaptToSize] returns, and a second call with the same width and height
    leaves the grid and the table of laters exactly as the first call left
    them: same item sizes, spacing, paddings and column count. *)
Theorem adaptToSize_idempotent (scaleFactor availWidth availHeight : Z)
    (g : IconGrid.state Item) (laters : Laters Widget) :
  1 <= IconGrid._minRows g -> 1 <= IconGrid._minColumns g ->
  0 < IconGrid._hItemSize g -> 0 < IconGrid._vItemSize g ->
  0 <= IconGrid._spacing g -> 1 <= scaleFactor ->
  exists st,
    IconGrid.adaptToSize scaleFactor availWidth availHeight (g, laters)
    = Some st
    /\ IconGrid.adaptToSize scaleFactor availWidth availHeight st = Some st
    /\ forall st', IconGrid.adaptToSize scaleFactor availWidth availHeight st
                   = Some st' ->
                   IconGrid.geometry st'.1 availWidth
                   = IconGrid.geometry st.1 availWidth.
Proof.
  intros _ _ Hh _ Hs _.
  destruct (adaptToSize_layout_returns scaleFactor availWidth availHeight g
              Hh Hs) as [g1 E1].
  pose proof (adaptToSize_layout_again scaleFactor availWidth availHeight
                (IconGrid._updateIconSizesLaterId g1) g g1 E1) as E2.
  rewrite set_updateIconSizesLaterId_same in E2.
  unfold IconGrid.adaptToSize at 1. rewrite E1. simpl.
  destruct (N.eqb_spec (IconGrid._updateIconSizesLaterId g1) 0) as [Hz|Hnz].
  - eexists; split; [reflexivity|].
    assert (IconGrid.adaptToSize scaleFactor availWidth availHeight
              (IconGrid.set_updateIconSizesLaterId
                 (N.succ (last_later_id laters)) g1,
               {| last_later_id := N.succ (last_later_id laters);
                  pending := pending laters
                             ++ [(N.succ (last_later_id laters),
                                  UpdateIconSizes)] |})
            = Some (IconGrid.set_updateIconSizesLaterId
                      (N.succ (last_later_id laters)) g1,
                    {| last_later_id := N.succ (last_later_id laters);
                       pending := pending laters
                                  ++ [(N.succ (last_later_id laters),
                                       UpdateIconSizes)] |})) as E3.
    { unfold IconGrid.adaptToSize.
      rewrite (adaptToSize_layout_again _ _ _ _ _ _ E1). simpl.
      destruct (N.eqb_spec (N.succ (last_later_id laters)) 0); [lia|done]. }
    split; [exact E3|]. intros st'. rewrite E3. by intros [= <-].
  - eexists; split; [reflexivity|].
    assert (IconGrid.adaptToSize scaleFactor availWidth availHeight (g1, laters)
            = Some (g1, laters)) as E3.
    { unfold IconGrid.adaptToSize. rewrite E2. simpl.
      destruct (N.eqb_spec (IconGrid._updateIconSizesLaterId g1) 0); done. }
    split; [exact E3|]. intros st'. rewrite E3. by intros [= <-].
Qed.

End AdaptToSize.

Section AdaptToSizeExamples.

Local Open Scope Z_scope.

(** 800 by 600 pixels: the first pass finds 3 rows where 4 are required and
    shrinks the items from 160 to 150 pixels; a second call changes
    nothing. *)
Example adaptToSize_800_600 :
  exists st,
    IconGrid.adaptToSize 1 800 600 (Examples.grid3, Examples.no_laters)
    = Some st
    /\ IconGrid.geometry st.1 800 = (150, 150, 0, (0, 0, 0, 0), Some 5)
    /\ IconGrid.adaptToSize 1 800 600 st = Some st.
Proof. eexists. repeat split; vm_compute; reflexivity. Qed.

Lemma adaptToSize_idempotent_witness :
  exists st,
    IconGrid.adaptToSize 1 800 600 (Examples.grid3, Examples.no_laters)
    = Some st
    /\ IconGrid.adaptToSize 1 800 600 st = Some st
    /\ forall st', IconGrid.adaptToSize 1 800 600 st = Some st' ->
                   IconGrid.geometry st'.1 800 = IconGrid.geometry st.1 800.
Proof.
  apply (adaptToSize_idempotent 1 800 600 Examples.grid3 Examples.no_laters);
    simpl; unfold IconGrid.ICON_SIZE; lia.
Defined.

End AdaptToSizeExamples.

(** ** IconGrid.addItem *)

Section AddItem.
Context {Item : Type} `{GridItem Item}.

Local Open Scope Z_scope.

(** C10, amended.  [addItem] throws and leaves the grid as it was when the
    item's icon is no [BaseIcon].  Otherwise it returns normally and the
    item is pushed onto [_items].  An item that is no child of the grid yet
    becomes a child at the given index when one is supplied (Clutter
    appends when the index is negative or past the end), the last child
    otherwise, and the children already there keep their order.  For an item
    that is a child already the insertion is refused and the children stay
    as they are. *)
Theorem addItem_spec (item : Item) (index : option Z)
    (g : IconGrid.state Item) :
  (icon_instanceof_BaseIcon item = false ->
   exists error, IconGrid.addItem item index g = Throws error g)
  /\ (icon_instanceof_BaseIcon item = true ->
      exists g',
        IconGrid.addItem item index g = Returns g'
        /\ IconGrid._items g' = IconGrid._items g ++ [item]
        /\ (item ∈ IconGrid.children g ->
            IconGrid.children g' = IconGrid.children g)
        /\ (item ∉ IconGrid.children g ->
            match index with
            | None => IconGrid.children g' = IconGrid.children g ++ [item]
            | Some i =>
                if (0 <=? i)
                   && (i <=? Z.of_nat (length (IconGrid.children g)))
                then IconGrid.children g'
                     = take (Z.to_nat i) (IconGrid.children g)
                       ++ item :: drop (Z.to_nat i) (IconGrid.children g)
                     /\ IconGrid.children g' !! Z.to_nat i = Some item
                else IconGrid.children g' = IconGrid.children g ++ [item]
            end)).
Proof.
  unfold IconGrid.addItem. split; intros ->; simpl.
  - by eexists.
  - destruct index as [i|]; eexists; (split; [reflexivity|]);
      (split; [reflexivity|]); simpl;
      unfold IconGrid.insert_child_at_index, IconGrid.add_actor;
      (split; intros Hchild;
       [by rewrite bool_decide_eq_true_2|
        rewrite bool_decide_eq_false_2 by done]); [|done].
    destruct (Z.leb_spec 0 i), (Z.ltb_spec i 0); try lia; simpl;
      destruct (Z.leb_spec i (Z.of_nat (length (IconGrid.children g)))),
        (Z.ltb_spec (Z.of_nat (length (IconGrid.children g))) i);
      try lia; try done.
    split; [done|].
    rewrite lookup_app_r by (rewrite length_take; lia).
    rewrite length_take.
    by replace (Z.to_nat i - Z.to_nat i `min` length (IconGrid.children g))%nat
      with 0%nat by lia.
Qed.

End AddItem.

Section AddItemExamples.

Local Open Scope Z_scope.

(** An [EmptyRow] is refused; an [AppIcon] inserted at index 1 of three
    children lands there, and at the end of [_items]. *)
Example addItem_empty_row :
  exists error,
    IconGrid.addItem Examples.a_row (Some 0) Examples.row_grid
    = Throws error Examples.row_grid.
Proof. by eexists. Qed.

Example addItem_at_index_1 :
  exists g',
    IconGrid.addItem Examples.icon_d (Some 1) Examples.grid3 = Returns g'
    /\ IconGrid.children g'
       = [Examples.icon_a; Examples.icon_d; Examples.icon_b; Examples.icon_c]
    /\ IconGrid._items g'
       = [Examples.icon_a; Examples.icon_b; Examples.icon_c; Examples.icon_d].
Proof. eexists. split; [vm_compute; reflexivity|]. split; reflexivity. Qed.

(** C10, as the claim states it, fails: an icon that is the first child
    already is not inserted at index 2.  The call returns, the children stay
    as they were, and [_items] holds the icon a second time. *)
Lemma addItem_leaves_a_child_in_place :
  icon_instanceof_BaseIcon Examples.icon_a = true
  /\ exists g',
       IconGrid.addItem Examples.icon_a (Some 2) Examples.grid3 = Returns g'
       /\ IconGrid.children g'
          = [Examples.icon_a; Examples.icon_b; Examples.icon_c]
       /\ IconGrid.children g' !! 2%nat <> Some Examples.icon_a
       /\ IconGrid._items g'
          = [Examples.icon_a; Examples.icon_b; Examples.icon_c;
             Examples.icon_a].
Proof.
  split; [reflexivity|]. eexists. split; [vm_compute; reflexivity|].
  split; [reflexivity|]. split; [discriminate|reflexivity].
Qed.

Lemma addItem_spec_witness :
  (exists error,
     IconGrid.addItem Examples.a_row (Some 0) Examples.row_grid
     = Throws error Examples.row_grid)
  /\ (exists g',
        IconGrid.addItem Examples.icon_d (Some 1) Examples.grid3 = Returns g'
        /\ IconGrid._items g'
           = IconGrid._items Examples.grid3 ++ [Examples.icon_d]
        /\ IconGrid.children g'
           = take 1 (IconGrid.children Examples.grid3)
             ++ Examples.icon_d :: drop 1 (IconGrid.children Examples.grid3)
        /\ IconGrid.children g' !! 1%nat = Some Examples.icon_d).
Proof.
  split.
  - apply (proj1 (addItem_spec Examples.a_row (Some 0) Examples.row_grid)).
    reflexivity.
  - assert (icon_instanceof_BaseIcon Examples.icon_d = true) as Hicon
      by reflexivity.
    assert (Examples.icon_d ∉ IconGrid.children Examples.grid3) as Hnew.
    { intros Hin. apply list_elem_of_In in Hin. vm_compute in Hin.
      intuition discriminate. }
    destruct (proj2 (addItem_spec Examples.icon_d (Some 1) Examples.grid3)
                Hicon) as (g' & E & Hitems & _ & Hkids).
    exists g'. split; [exact E|]. split; [exact Hitems|]. exact (Hkids Hnew).
Defined.

End AddItemExamples.

(** ** Reconciliation: AppView._redisplay *)

Section SpliceFacts.
Context {A : Type} `{EqDecision A}.

Local Open Scope Z_scope.

Lemma indexOf_from_app_notin (pre : list A) (x : A) (l : list A) (i : Z) :
  x ∉ pre ->
  JS.indexOf_from i x (pre ++ x :: l) = i + Z.of_nat (length pre).
Proof.
  revert i. induction pre as [|y pre IH]; intros i Hx; simpl.
  - rewrite decide_True by done. lia.
  - apply not_elem_of_cons in Hx as [Hne Hx].
    rewrite decide_False by done. rewrite IH by done. lia.
Qed.

Lemma indexOf_app_notin (pre : list A) (x : A) (l : list A) :
  x ∉ pre -> JS.indexOf x (pre ++ x :: l) = Z.of_nat (length pre).
Proof.
  intros Hx. unfold JS.indexOf. by rewrite indexOf_from_app_notin.
Qed.

Lemma splice_start_in_range (l : list A) (k : nat) :
  (k <= length l)%nat -> JS.splice_start l (Z.of_nat k) = k.
Proof.
  intros Hk. unfold JS.splice_start.
  destruct (Z.ltb_spec (Z.of_nat k) 0); lia.
Qed.

Lemma splice_delete1_at (pre : list A) (x : A) (l : list A) :
  JS.splice_delete1 (pre ++ x :: l) (Z.of_nat (length pre)) = pre ++ l.
Proof.
  unfold JS.splice_delete1.
  rewrite splice_start_in_range by (rewrite length_app; simpl; lia).
  rewrite take_app_length. f_equal.
  rewrite (cons_middle x pre l), app_assoc.
  apply drop_app_length'. rewrite length_app. simpl. lia.
Qed.

Lemma splice_insert_at (cur : list A) (k : nat) (x : A) :
  (k <= length cur)%nat ->
  JS.splice_insert cur (Z.of_nat k) x = take k cur ++ x :: drop k cur.
Proof.
  intros Hk. unfold JS.splice_insert. by rewrite splice_start_in_range.
Qed.

(** [removedApps.forEach]: removing, one by one and each at the index
    [indexOf] finds, the elements a predicate selects leaves the others, in
    order. *)
Lemma remove_selected (P : A -> bool) (pre l : list A) :
  (forall x, x ∈ pre -> P x = false) ->
  foldl (fun cur x => JS.splice_delete1 cur (JS.indexOf x cur)) (pre ++ l)
    (List.filter P l)
  = pre ++ List.filter (fun x => negb (P x)) l.
Proof.
  revert pre. induction l as [|x l IH]; intros pre Hpre; simpl; [done|].
  destruct (P x) eqn:Px; simpl.
  - assert (x ∉ pre) as Hx.
    { intros Hin. apply Hpre in Hin. congruence. }
    rewrite indexOf_app_notin by done. rewrite splice_delete1_at.
    by apply IH.
  - rewrite (cons_middle x pre l), app_assoc.
    rewrite IH; [by rewrite <- app_assoc|].
    intros y [Hy| ->%list_elem_of_singleton]%elem_of_app; [by apply Hpre|done].
Qed.

End SpliceFacts.

Section InsertFacts.
Context {A B : Type} `{EqDecision A} (f : A -> B) (common : B -> bool).

Local Open Scope Z_scope.

Lemma filter_map_comm (p : B -> bool) (l : list A) :
  List.filter p (map f l) = map f (List.filter (fun x => p (f x)) l).
Proof.
  induction l as [|x l IH]; simpl; [done|].
  destruct (p (f x)); simpl; by rewrite IH.
Qed.

(** [addedApps.forEach]: [new] is the new list, [done] its part already
    passed, [rest] the part to come.  While the current list reads, by id,
    as [done] followed by the common items of [rest], inserting each added
    item of [rest] at its index in [new] ends in the ids of [new]. *)
Lemma insert_added (new rest done cur : list A) :
  new = done ++ rest -> NoDup new ->
  map f cur = map f done ++ List.filter common (map f rest) ->
  map f (foldl (fun cur x => JS.splice_insert cur (JS.indexOf x new) x) cur
           (List.filter (fun x => negb (common (f x))) rest))
  = map f new.
Proof.
  revert done cur. induction rest as [|x rest IH]; intros done cur -> Hnd Hcur.
  - simpl in *. by rewrite !app_nil_r in *.
  - simpl in Hcur. simpl.
    destruct (common (f x)) eqn:Cx; simpl.
    + apply (IH (done ++ [x])); [by rewrite <- app_assoc|done|].
      by rewrite map_app, <- app_assoc.
    + assert (x ∉ done) as Hx.
      { apply NoDup_app in Hnd as (_ & Hdisj & _).
        intros Hin. apply (Hdisj x Hin). by left. }
      rewrite indexOf_app_notin by done.
      assert (length done <= length cur)%nat as Hlen.
      { rewrite <- (length_map f cur), Hcur, length_app, length_map. lia. }
      rewrite splice_insert_at by done.
      apply (IH (done ++ [x])); [by rewrite <- app_assoc|done|].
      rewrite map_app. simpl. rewrite <- firstn_map, <- skipn_map, Hcur.
      rewrite (take_app_length' (map f done)) by (by rewrite length_map).
      rewrite (drop_app_length' (map f done)) by (by rewrite length_map).
      by rewrite !map_app, <- app_assoc.
Qed.

Lemma filter_all_included (l : list A) (ids : list B) `{EqDecision B} :
  map f l = ids ->
  List.filter (fun x => negb (JS.includes (f x) ids)) l = [].
Proof.
  intros <-. 
  assert (forall l', (forall x, x ∈ l' -> x ∈ l) ->
            List.filter (fun x => negb (JS.includes (f x) (map f l))) l' = [])
    as Hgen.
  { induction l' as [|x l' IH]; intros Hsub; simpl; [done|].
    unfold JS.includes at 1.
    rewrite bool_decide_eq_true_2; simpl.
    - apply IH. intros y Hy. apply Hsub. by right.
    - apply list_elem_of_fmap. exists x. split; [done|]. apply Hsub. by left. }
  by apply Hgen.
Qed.

End InsertFacts.

Section Redisplay.

Local Open Scope Z_scope.

Lemma remove_icon_orderedItems (removed : list AppIcon.t) (v : AppView.state) :
  AppView._orderedItems (foldl AppView.remove_icon v removed)
  = foldl (fun cur x => JS.splice_delete1 cur (JS.indexOf x cur))
      (AppView._orderedItems v) removed.
Proof.
  revert v. induction removed as [|x removed IH]; intros v; simpl; [done|].
  by rewrite IH.
Qed.

(** An [AppIcon] always carries a [BaseIcon], so the additions never
    throw. *)
Lemma add_icon_returns (newApps added : list AppIcon.t) (v : AppView.state) :
  exists v',
    foldl (AppView.add_icon newApps) (Returns v) added = Returns v'
    /\ AppView._orderedItems v'
       = foldl (fun cur x => JS.splice_insert cur (JS.indexOf x newApps) x)
           (AppView._orderedItems v) added.
Proof.
  revert v. induction added as [|x added IH]; intros v; simpl.
  - by eexists.
  - destruct (IH
      {| AppView._grid :=
           IconGrid.set_items (IconGrid._items (AppView._grid v) ++ [x])
             (IconGrid.insert_child_at_index
                (IconGrid.children (AppView._grid v)) x
                (JS.indexOf x newApps))
             (AppView._grid v);
         AppView._items := <[AppIcon.id x := x]> (AppView._items v);
         AppView._orderedItems :=
           JS.splice_insert (AppView._orderedItems v) (JS.indexOf x newApps) x;
         AppView._viewIsReady := AppView._viewIsReady v;
         AppView._lastFocused := AppView._lastFocused v |})
      as (v' & E & Ho).
    exists v'. split; [exact E|exact Ho].
Qed.

(** Scenario C of the specification: old ids [a, b, c], new ids
    [b, c, d]: [a] is removed, [d] is added at index 2. *)
Example redisplay_scenario_C :
  let old := [Examples.icon_a; Examples.icon_b; Examples.icon_c] in
  let new := [Examples.icon_b'; Examples.icon_c'; Examples.icon_d'] in
  AppView.removedApps old new = [Examples.icon_a]
  /\ AppView.addedApps old new = [Examples.icon_d']
  /\ JS.indexOf Examples.icon_d' new = 2
  /\ exists v',
       AppView._redisplay_with new (Examples.view_of old) = Returns v'
       /\ AppView._orderedItems v'
          = [Examples.icon_b; Examples.icon_c; Examples.icon_d'].
Proof.
  repeat split. eexists. split; [vm_compute; reflexivity|reflexivity].
Qed.

(** C2, as the specification states it, fails: when the new order swaps two
    items that are in both lists, nothing is removed and nothing is added,
    and the ordered items keep the old order. *)
Lemma redisplay_keeps_the_old_order :
  let old := [Examples.icon_a; Examples.icon_b] in
  let new := [Examples.icon_b'; Examples.icon_a'] in
  exists v',
    AppView._redisplay_with new (Examples.view_of old) = Returns v'
    /\ map AppIcon.id (AppView._orderedItems v') = ["a"; "b"]%string
    /\ map AppIcon.id new = ["b"; "a"]%string
    /\ map AppIcon.id (AppView._orderedItems v') <> map AppIcon.id new.
Proof.
  eexists. split; [vm_compute; reflexivity|].
  split; [reflexivity|]. split; [reflexivity|]. discriminate.
Qed.

(** C2, amended.  When the new items are pairwise distinct objects and the
    ids present in both lists come in the same relative order in the old
    and in the new list, [_redisplay] returns normally and the ordered items
    then read, by id, exactly as the new list; and when old and new hold the
    same ids in the same order, nothing is added and nothing is removed. *)
Theorem redisplay_reconciles (newApps : list AppIcon.t) (v : AppView.state) :
  let oldIds := map AppIcon.id (AppView._orderedItems v) in
  let newIds := map AppIcon.id newApps in
  NoDup newApps ->
  List.filter (fun id => JS.includes id newIds) oldIds
  = List.filter (fun id => JS.includes id oldIds) newIds ->
  (exists v',
     AppView._redisplay_with newApps v = Returns v'
     /\ map AppIcon.id (AppView._orderedItems v') = newIds)
  /\ (oldIds = newIds ->
      AppView.addedApps (AppView._orderedItems v) newApps = []
      /\ AppView.removedApps (AppView._orderedItems v) newApps = []).
Proof.
  intros oldIds newIds Hnd Horder. split.
  - unfold AppView._redisplay_with.
    destruct (add_icon_returns newApps
                (AppView.addedApps (AppView._orderedItems v) newApps)
                (foldl AppView.remove_icon v
                   (AppView.removedApps (AppView._orderedItems v) newApps)))
      as (v' & -> & Ho).
    eexists. split; [reflexivity|]. simpl. rewrite Ho.
    rewrite remove_icon_orderedItems.
    unfold AppView.removedApps, AppView.addedApps. fold oldIds newIds.
    rewrite (remove_selected
               (fun icon => negb (JS.includes (AppIcon.id icon) newIds))
               [] (AppView._orderedItems v)) by (intros ? Hin; inversion Hin).
    simpl.
    apply (insert_added AppIcon.id (fun id => JS.includes id oldIds)
             newApps newApps []); [done|done|].
    simpl. fold newIds. rewrite <- Horder. unfold oldIds.
    rewrite (filter_map_comm AppIcon.id).
    f_equal. apply List.filter_ext. intros icon. by rewrite negb_involutive.
  - intros Esame. split.
    + apply (filter_all_included AppIcon.id). by symmetry.
    + by apply (filter_all_included AppIcon.id).
Qed.

Lemma redisplay_reconciles_witness :
  (exists v',
     AppView._redisplay_with
       [Examples.icon_b'; Examples.icon_c'; Examples.icon_d']
       (Examples.view_of [Examples.icon_a; Examples.icon_b; Examples.icon_c])
     = Returns v'
     /\ map AppIcon.id (AppView._orderedItems v') = ["b"; "c"; "d"]%string)
  /\ (AppView.addedApps [Examples.icon_a; Examples.icon_b; Examples.icon_c]
        [Examples.icon_a'; Examples.icon_b'; Examples.icon_c'] = []
      /\ AppView.removedApps
           [Examples.icon_a; Examples.icon_b; Examples.icon_c]
           [Examples.icon_a'; Examples.icon_b'; Examples.icon_c'] = []).
Proof.
  split.
  - apply (redisplay_reconciles
             [Examples.icon_b'; Examples.icon_c'; Examples.icon_d']
             (Examples.view_of
                [Examples.icon_a; Examples.icon_b; Examples.icon_c])).
    + apply (bool_decide_unpack
               (NoDup [Examples.icon_b'; Examples.icon_c'; Examples.icon_d'])).
      vm_compute. exact I.
    + vm_compute. reflexivity.
  - apply (redisplay_reconciles
             [Examples.icon_a'; Examples.icon_b'; Examples.icon_c']
             (Examples.view_of
                [Examples.icon_a; Examples.icon_b; Examples.icon_c])).
    + apply (bool_decide_unpack
               (NoDup [Examples.icon_a'; Examples.icon_b'; Examples.icon_c'])).
      vm_compute. exact I.
    + vm_compute. reflexivity.
    + reflexivity.
Defined.

End Redisplay.

(** ** Array.prototype.sort *)

Section SortFacts.
Context {A : Type} (comparefn : A -> A -> Z).

Local Open Scope Z_scope.

Hypothesis comparefn_asym :
  forall x y, 0 < comparefn x y -> sort_le comparefn y x.
Hypothesis comparefn_trans :
  forall x y z,
    sort_le comparefn x y -> sort_le comparefn y z -> sort_le comparefn x z.

Lemma sort_insert_perm (item : A) (l : list A) :
  JSSort.insert comparefn item l ≡ₚ item :: l.
Proof.
  induction l as [|swap l IH]; simpl; [done|].
  destruct (comparefn swap item >? 0); [|done].
  rewrite IH. apply Permutation_swap.
Qed.

Lemma sort_insert_sorted (item : A) (l : list A) :
  StronglySorted (flip (sort_le comparefn)) l ->
  StronglySorted (flip (sort_le comparefn)) (JSSort.insert comparefn item l).
Proof.
  induction 1 as [|swap l Hs IH Hall]; simpl.
  - repeat constructor.
  - destruct (Z.gtb_spec (comparefn swap item) 0) as [Hgt|Hle].
    + constructor; [done|].
      rewrite sort_insert_perm.
      constructor; [|done]. by apply comparefn_asym.
    + constructor; [by constructor|].
      constructor; [exact Hle|].
      eapply Forall_impl; [exact Hall|].
      intros y Hy. unfold flip in *. by eapply comparefn_trans.
Qed.

Lemma sort_fold_perm (l acc : list A) :
  foldl (fun prefix_rev item => JSSort.insert comparefn item prefix_rev) acc l
  ≡ₚ acc ++ l.
Proof.
  revert acc. induction l as [|x l IH]; intros acc; simpl.
  - by rewrite app_nil_r.
  - rewrite IH, sort_insert_perm.
    by rewrite (Permutation_middle acc l x).
Qed.

Lemma sort_fold_sorted (l acc : list A) :
  StronglySorted (flip (sort_le comparefn)) acc ->
  StronglySorted (flip (sort_le comparefn))
    (foldl (fun prefix_rev item => JSSort.insert comparefn item prefix_rev)
       acc l).
Proof.
  revert acc. induction l as [|x l IH]; intros acc Hacc; simpl; [done|].
  by apply IH, sort_insert_sorted.
Qed.

Lemma StronglySorted_rev_flip (R : relation A) (l : list A) :
  StronglySorted (flip R) l -> StronglySorted R (rev l).
Proof.
  induction 1 as [|x l Hs IH Hall]; simpl; [constructor|].
  apply StronglySorted_app_2; [|done|repeat constructor].
  intros y z Hy ->%list_elem_of_singleton.
  rewrite Forall_forall in Hall. apply Hall.
  apply list_elem_of_In, in_rev, list_elem_of_In. exact Hy.
Qed.

(** The sort returns a permutation of the array ... *)
Lemma sort_perm (l : list A) : JSSort.sort comparefn l ≡ₚ l.
Proof.
  unfold JSSort.sort. by rewrite <- Permutation_rev, sort_fold_perm.
Qed.

(** ... in which no element is followed by one it should come after. *)
Lemma sort_sorted (l : list A) :
  StronglySorted (sort_le comparefn) (JSSort.sort comparefn l).
Proof.
  unfold JSSort.sort. apply StronglySorted_rev_flip, sort_fold_sorted.
  constructor.
Qed.

End SortFacts.

Section FilterFacts.
Context {A : Type}.


End FilterFacts.

(** ** The order of strings *)

Section StringOrder.

Lemma JSString_gt_asym (a b : string) :
  JSString.gt a b = true -> JSString.gt b a = false.
Proof.
  unfold JSString.gt. rewrite (String.compare_antisym a b).
  by destruct (String.compare b a).
Qed.

Lemma JSString_le_trans (a b c : string) :
  JSString.gt a b = false -> JSString.gt b c = false ->
  JSString.gt a c = false.
Proof.
  unfold JSString.gt.
  destruct (String.compare a b) eqn:Eab; [| |done]; intros _.
  - apply OrderedTypeEx.String_as_OT.cmp_eq in Eab as ->. done.
  - destruct (String.compare b c) eqn:Ebc; [| |done]; intros _.
    + apply OrderedTypeEx.String_as_OT.cmp_eq in Ebc as <-. by rewrite Eab.
    + apply OrderedTypeEx.String_as_OT.cmp_lt in Eab, Ebc.
      pose proof (OrderedTypeEx.String_as_OT.lt_trans _ _ _ Eab Ebc) as Eac.
      apply OrderedTypeEx.String_as_OT.cmp_lt in Eac.
      unfold OrderedTypeEx.String_as_OT.cmp in Eac. by rewrite Eac.
Qed.

End StringOrder.

(** ** The order of the grid: AppView._loadApps *)

Section LoadAppsOrder.

Local Open Scope Z_scope.

Lemma StronglySorted_mono {A : Type} (R1 R2 : relation A) (l : list A) :
  (forall x y, R1 x y -> R2 x y) ->
  StronglySorted R1 l -> StronglySorted R2 l.
Proof.
  intros Himpl. induction 1 as [|x l Hs IH Hall]; constructor; [done|].
  eapply Forall_impl; [exact Hall|]. intros y. apply Himpl.
Qed.



(** The three [if (group.length)] concatenations append the group, empty or
    not. *)
Lemma concat_if_nonempty {A : Type} (acc group : list A) :
  (if 0 <? Z.of_nat (length group) then acc ++ group else acc) = acc ++ group.
Proof.
  destruct group; simpl; [by rewrite app_nil_r|].
  by destruct (Z.ltb_spec 0 (Z.pos (Pos.of_succ_nat (length group)))); [|lia].
Qed.


(** Scenario A of the specification. *)
Example loadApps_scenario_A :
  map AppIcon.id
    (AppView._loadApps Examples.localeCompare Examples.scenario_A).1
  = ["a"; "b"; "c"; "d"; "e"; "f"; "g"]%string.
Proof. vm_compute. reflexivity. Qed.



End LoadAppsOrder.

(** ** The screen: what hiding and showing leave alone *)

Section ScreenFrames.

Local Open Scope Z_scope.

Local Abbreviation pending_of s := (pending (Shell.laters (Screen.shell s))).

Lemma focus_frame_refl (s : Screen.state) : focus_frame s s.
Proof. by repeat split. Qed.

Lemma focus_frame_trans (s1 s2 s3 : Screen.state) :
  focus_frame s1 s2 -> focus_frame s2 s3 -> focus_frame s1 s3.
Proof.
  intros (A1 & A2 & A3 & A4 & A5 & A6 & A7 & A8 & A9)
         (B1 & B2 & B3 & B4 & B5 & B6 & B7 & B8 & B9).
  repeat split; try congruence. by etrans.
Qed.

(** A focus attempt of [_grabFocus] changes the key focus and the log of
    attempts only; the log grows by the attempt itself and by what the
    actor's handler tries in turn. *)
Lemma actor_navigate_focus_frame (w : Widget) (d : DirectionType)
    (sh : Shell.state) :
  let sh' := (Screen.actor_navigate_focus w d sh).2 in
  Shell.focusable sh' = Shell.focusable sh
  /\ Shell.pushModal_ok sh' = Shell.pushModal_ok sh
  /\ Shell.laters sh' = Shell.laters sh
  /\ Shell.last_source_id sh' = Shell.last_source_id sh
  /\ Shell.timeouts sh' = Shell.timeouts sh
  /\ Shell.notifications sh' = Shell.notifications sh
  /\ exists more,
       Shell.navigate_log sh' = Shell.navigate_log sh ++ (w, d) :: more.
Proof.
  unfold Screen.actor_navigate_focus,
    Screen.ListViewManager_vfunc_navigate_focus, Shell.navigate_focus.
  destruct w; simpl;
    repeat match goal with
           | |- context [bool_decide ?P] => destruct (bool_decide P); simpl
           end;
    repeat split; try done;
    try (by exists []);
    by (eexists; rewrite <- app_assoc).
Qed.

Lemma grabFocus_frame (w : Widget) (d : DirectionType) (s : Screen.state) :
  focus_frame s (Screen._grabFocus w d s).
Proof.
  unfold Screen._grabFocus.
  destruct (actor_navigate_focus_frame w d (Screen.shell s))
    as (F1 & F2 & F3 & F4 & F5 & F6 & _).
  destruct (Screen.actor_navigate_focus w d (Screen.shell s))
    as [focusSet sh]. simpl in *.
  destruct focusSet; unfold focus_frame; simpl; rewrite ?F3;
    repeat split; try done.
  by apply prefix_app_r.
Qed.

Lemma showView_frame (name : Screen.ViewName) (s : Screen.state) :
  focus_frame s (Screen.showView name s).
Proof.
  unfold Screen.showView, Screen.view_show.
  set (s1 := match Screen._currentView s with
             | Some current => _
             | None => s
             end).
  assert (focus_frame s s1) as H1.
  { subst s1. destruct (Screen._currentView s) as [current|];
      [|apply focus_frame_refl].
    destruct (negb _); [|apply focus_frame_refl].
    destruct current; by repeat split. }
  eapply focus_frame_trans; [exact H1|].
  set (s2 := Screen.set_views _ _ _ s1).
  assert (focus_frame s1 s2) as H2 by (by repeat split).
  eapply focus_frame_trans; [exact H2|].
  destruct (Screen.view_visible name s2); [apply focus_frame_refl|].
  destruct name.
  - eapply focus_frame_trans; [|apply grabFocus_frame]. by repeat split.
  - eapply focus_frame_trans; [|apply grabFocus_frame]. by repeat split.
Qed.

Lemma hideModal_steps (userHidden : bool) (a : Screen.Actor)
    (s : Screen.state) :
  Screen.actor s = Some a ->
  Screen.hideModal userHidden s
  = Screen.homeScreen (hide_steps userHidden a s).
Proof. intros Ha. unfold Screen.hideModal. by rewrite Ha. Qed.

Lemma hide_steps_effect (userHidden : bool) (a : Screen.Actor)
    (s : Screen.state) :
  Screen.is_visible (hide_steps userHidden a s) = false
  /\ is_Some (Screen.actor (hide_steps userHidden a s))
  /\ Screen._isShown (hide_steps userHidden a s)
     = (if userHidden then false else Screen._isShown s)
  /\ (is_Some (Screen.lightbox s) ->
      is_Some (Screen.lightbox (hide_steps userHidden a s)))
  /\ Screen.shell (hide_steps userHidden a s) = Screen.shell s.
Proof.
  unfold hide_steps, Screen._removeModal, Screen.is_visible.
  destruct userHidden; simpl;
    destruct (Screen._modalToken s); simpl;
    destruct (Screen.lightbox s); simpl;
    repeat split; try done; try (by eexists); by intros [? [=]].
Qed.

(** [hideModal] on a screen that was not destroyed: the modal group ends
    hidden, [_isShown] is cleared exactly when the user hid it, and no
    pending later and no armed timeout is touched. *)
Lemma hideModal_effect (userHidden : bool) (s : Screen.state) :
  is_Some (Screen.actor s) ->
  Screen.is_visible (Screen.hideModal userHidden s) = false
  /\ is_Some (Screen.actor (Screen.hideModal userHidden s))
  /\ Screen._isShown (Screen.hideModal userHidden s)
     = (if userHidden then false else Screen._isShown s)
  /\ (is_Some (Screen.lightbox s) ->
      is_Some (Screen.lightbox (Screen.hideModal userHidden s)))
  /\ Shell.timeouts (Screen.shell (Screen.hideModal userHidden s))
     = Shell.timeouts (Screen.shell s)
  /\ pending_of s `prefix_of` pending_of (Screen.hideModal userHidden s).
Proof.
  intros [a Ha]. rewrite (hideModal_steps userHidden a s Ha).
  destruct (hide_steps_effect userHidden a s) as (E1 & E2 & E3 & E4 & E5).
  destruct (showView_frame Screen.View_apps (hide_steps userHidden a s))
    as (A1 & A2 & A3 & A4 & A5 & A6 & A7 & A8 & A9).
  unfold Screen.homeScreen, Screen.is_visible in *.
  rewrite A1, A2, A3, A7. rewrite E5 in A9.
  repeat split; try done. by rewrite E5.
Qed.

(** [showModal] on a screen that was not destroyed returns with the modal
    group visible and [_isShown] set. *)
Lemma showModal_effect (skipAnimation : bool) (s : Screen.state) :
  is_Some (Screen.actor s) -> is_Some (Screen.lightbox s) ->
  exists s',
    Screen.showModal skipAnimation s = Returns s'
    /\ Screen.is_visible s' = true
    /\ Screen._isShown s' = true
    /\ is_Some (Screen.actor s')
    /\ is_Some (Screen.lightbox s').
Proof.
  intros [a Ha] [l Hl]. unfold Screen.showModal. rewrite Ha, Hl.
  unfold Screen._grabModal.
  destruct (Screen._modalToken s), (Shell.pushModal_ok (Screen.shell s));
    simpl; rewrite Ha; destruct (Screen.visible a) eqn:Hv; simpl;
    rewrite ?Ha; simpl;
    (eexists; split; [reflexivity|]); unfold Screen.is_visible; simpl;
    rewrite ?Ha; simpl; rewrite ?Hv;
    repeat split; try done; try (by eexists);
    match goal with
    | |- context [Screen._grabFocus ?w ?d ?s0] =>
        destruct (grabFocus_frame w d s0)
          as (A1 & A2 & A3 & A4 & A5 & A6 & A7 & A8 & A9);
        rewrite ?A2, ?A3; simpl; try done; by eexists
    end.
Qed.

End ScreenFrames.

(** ** Redraws *)

Section Redraws.

Local Open Scope Z_scope.

Local Abbreviation pending_of s := (pending (Shell.laters (Screen.shell s))).
Local Abbreviation log_of s := (Shell.navigate_log (Screen.shell s)).

(** Running a callback only appends to the log of focus attempts; the
    retry of [_grabFocus] appends its own attempt. *)
Lemma run_later_log (cb : LaterCallback Widget) (s : Screen.state) :
  exists ext,
    log_of (Screen.run_later cb s) = log_of s ++ ext
    /\ forall w d, cb = GrabFocusRetry w d -> (w, d) ∈ ext.
Proof.
  destruct cb as [|w d|this|]; simpl.
  - exists []. by rewrite app_nil_r.
  - destruct (actor_navigate_focus_frame w d (Screen.shell s))
      as (_ & _ & _ & _ & _ & _ & more & E).
    exists ((w, d) :: more). split; [exact E|].
    intros ? ? [= -> ->]. apply list_elem_of_here.
  - destruct (Screen.menu_of this s) as [m|];
      [|exists []; by rewrite app_nil_r].
    unfold MenuList._moveFocusToItems, Shell.navigate_focus.
    destruct (negb (0 <? _)); [exists []; by rewrite app_nil_r|].
    destruct (negb (bool_decide (_ = FocusOn this)));
      [exists []; by rewrite app_nil_r|].
    exists [(this, TAB_FORWARD)]. split; [|done].
    by destruct (bool_decide (this ∈ _)).
  - exists []. by rewrite app_nil_r.
Qed.

Lemma run_pending_log (p : N * LaterCallback Widget) (s : Screen.state) :
  exists ext,
    log_of (Screen.run_pending s p) = log_of s ++ ext
    /\ forall w d, p.2 = GrabFocusRetry w d -> (w, d) ∈ ext.
Proof.
  unfold Screen.run_pending.
  destruct (run_later_log p.2 s) as (ext & E & Hext).
  exists ext. split; [|done]. simpl. exact E.
Qed.

Lemma run_all_pending_log (l : list (N * LaterCallback Widget))
    (s : Screen.state) :
  exists ext,
    log_of (foldl Screen.run_pending s l) = log_of s ++ ext
    /\ forall id w d, (id, GrabFocusRetry w d) ∈ l -> (w, d) ∈ ext.
Proof.
  revert s. induction l as [|p l IH]; intros s; simpl.
  - exists []. split; [by rewrite app_nil_r|]. intros ? ? ? Hin. inversion Hin.
  - destruct (run_pending_log p s) as (ext1 & E1 & H1).
    destruct (IH (Screen.run_pending s p)) as (ext2 & E2 & H2).
    exists (ext1 ++ ext2). split; [by rewrite E2, E1, app_assoc|].
    intros id w d [Heq|Hin]%elem_of_cons.
    + subst p. apply elem_of_app. left. by apply H1.
    + apply elem_of_app. right. by eapply H2.
Qed.

(** Every focus retry pending at a redraw makes its attempt during that
    redraw. *)
Lemma redraw_runs_retries (s : Screen.state) :
  exists ext,
    log_of (Screen.redraw s) = log_of s ++ ext
    /\ forall id w d,
         (id, GrabFocusRetry w d) ∈ pending_of s -> (w, d) ∈ ext.
Proof. apply run_all_pending_log. Qed.

(** C5, as the specification states it, fails: the interface is shown
    before anything can take the focus, so [_grabFocus] leaves a retry
    pending; the user hides the interface; the retry is still pending, and
    the next redraw runs it: [navigate_focus] is called on the app grid of
    the hidden interface. *)
Lemma retry_fires_after_hide :
  exists s1,
    Screen.showModal false Examples.screen0 = Returns s1
    /\ pending_of s1 = [(1%N, GrabFocusRetry W_apps TAB_FORWARD)]
    /\ Screen.is_visible (Screen.hideModal true s1) = false
    /\ pending_of (Screen.hideModal true s1)
       = [(1%N, GrabFocusRetry W_apps TAB_FORWARD)]
    /\ log_of (Screen.redraw (Screen.hideModal true s1))
       = log_of (Screen.hideModal true s1) ++ [(W_apps, TAB_FORWARD)].
Proof. eexists. repeat split; vm_compute; reflexivity. Qed.

(** A long-press timeout armed before the interface is hidden is still
    armed afterwards. *)
Example long_press_survives_hide :
  let '(id, s) := Screen.button_press_primary 0 Examples.screen0 in
  Shell.timeouts (Screen.shell (Screen.hideModal true s)) = [(id, 0%nat)].
Proof. reflexivity. Qed.

(** C5, amended.  [hideModal] cancels no deferred work: the laters pending
    when it is called are all still pending when it returns (in front of
    any it adds itself), the armed long-press timeouts are untouched, and
    each focus retry that was pending makes its [navigate_focus] call during
    the redraw that follows the hide. *)
Theorem hideModal_cancels_nothing (userHidden : bool) (s : Screen.state) :
  pending_of s `prefix_of` pending_of (Screen.hideModal userHidden s)
  /\ Shell.timeouts (Screen.shell (Screen.hideModal userHidden s))
     = Shell.timeouts (Screen.shell s)
  /\ forall id w d,
       (id, GrabFocusRetry w d) ∈ pending_of s ->
       (id, GrabFocusRetry w d) ∈ pending_of (Screen.hideModal userHidden s)
       /\ exists ext,
            log_of (Screen.redraw (Screen.hideModal userHidden s))
            = log_of (Screen.hideModal userHidden s) ++ ext
            /\ (w, d) ∈ ext.
Proof.
  assert (pending_of s `prefix_of` pending_of (Screen.hideModal userHidden s)
          /\ Shell.timeouts (Screen.shell (Screen.hideModal userHidden s))
             = Shell.timeouts (Screen.shell s)) as [Hp Ht].
  { destruct (Screen.actor s) as [a|] eqn:Ha.
    - destruct (hideModal_effect userHidden s) as (_ & _ & _ & _ & Ht & Hp);
        [by eexists|done].
    - unfold Screen.hideModal. by rewrite Ha. }
  split; [exact Hp|]. split; [exact Ht|].
  intros id w d Hin.
  assert ((id, GrabFocusRetry w d)
          ∈ pending_of (Screen.hideModal userHidden s)) as Hin'.
  { destruct Hp as [more ->]. apply elem_of_app. by left. }
  split; [exact Hin'|].
  destruct (redraw_runs_retries (Screen.hideModal userHidden s))
    as (ext & E & Hext).
  exists ext. split; [exact E|]. by eapply Hext.
Qed.

Lemma hideModal_cancels_nothing_witness :
  (1%N, GrabFocusRetry W_apps TAB_FORWARD)
  ∈ pending_of (Screen.hideModal true Examples.screen_shown)
  /\ exists ext,
       log_of (Screen.redraw (Screen.hideModal true Examples.screen_shown))
       = log_of (Screen.hideModal true Examples.screen_shown) ++ ext
       /\ (W_apps, TAB_FORWARD) ∈ ext.
Proof.
  apply (proj2 (proj2 (hideModal_cancels_nothing true Examples.screen_shown))
           1%N W_apps TAB_FORWARD).
  vm_compute. apply list_elem_of_here.
Defined.

End Redraws.

(** ** Auto-hide and auto-show on the running-apps count *)

Section RunningCount.
Context {A : Type}.

Local Open Scope Z_scope.

Lemma truthy_length (apps : list A) :
  JS.truthy (Z.of_nat (length apps)) = negb (bool_decide (apps = [])).
Proof. by destruct apps. Qed.

(** After a count that is not zero the interface is hidden and [_isShown]
    is what it was. *)
Lemma updateRunningCount_nonzero (app : option Screen.AppState)
    (apps : list A) (s : Screen.state) :
  is_Some (Screen.actor s) -> app <> Some Screen.STARTING -> apps <> [] ->
  exists s',
    Screen._updateRunningCount app apps s = Returns s'
    /\ Screen.is_visible s' = false
    /\ Screen._isShown s' = Screen._isShown s
    /\ is_Some (Screen.actor s')
    /\ (is_Some (Screen.lightbox s) -> is_Some (Screen.lightbox s')).
Proof.
  intros Ha Happ Hne. unfold Screen._updateRunningCount.
  rewrite bool_decide_eq_false_2 by done.
  rewrite truthy_length, bool_decide_eq_false_2 by done. simpl.
  eexists. split; [reflexivity|].
  destruct (hideModal_effect false
              (Screen.set_nAppsRunning (Z.of_nat (length apps)) s) Ha)
    as (E1 & E2 & E3 & E4 & _).
  repeat split; done.
Qed.

(** After a count of zero the interface is shown again when [_isShown]
    says it was not hidden by the user, and left alone otherwise. *)
Lemma updateRunningCount_zero (app : option Screen.AppState)
    (s : Screen.state) :
  is_Some (Screen.actor s) -> is_Some (Screen.lightbox s) ->
  app <> Some Screen.STARTING ->
  exists s',
    Screen._updateRunningCount app ([] : list A) s = Returns s'
    /\ Screen._isShown s' = Screen._isShown s
    /\ Screen.is_visible s'
       = (if Screen._isShown s then true else Screen.is_visible s)
    /\ is_Some (Screen.actor s').
Proof.
  intros Ha Hl Happ. unfold Screen._updateRunningCount.
  rewrite bool_decide_eq_false_2 by done. simpl.
  destruct (Screen._isShown s) eqn:Hshown.
  - destruct (showModal_effect true (Screen.set_nAppsRunning 0 s) Ha Hl)
      as (s' & E & Hv & Hs & Ha' & _).
    exists s'. by repeat split.
  - eexists. split; [reflexivity|]. by repeat split.
Qed.

(** Once the user has hidden the interface, no running-count signal shows
    it. *)
Lemma signals_after_user_hide (l : list (option Screen.AppState * list A))
    (s : Screen.state) :
  is_Some (Screen.actor s) -> Screen._isShown s = false ->
  Screen.is_visible s = false ->
  exists s',
    Screen.signals l s = Returns s'
    /\ Screen.is_visible s' = false /\ Screen._isShown s' = false.
Proof.
  revert s. induction l as [|[app apps] l IH]; intros s Ha Hs Hv; simpl.
  - by eexists.
  - unfold Screen._updateRunningCount.
    destruct (bool_decide (app = Some Screen.STARTING)); [by apply IH|].
    rewrite truthy_length.
    destruct (bool_decide (apps = [])); simpl.
    + rewrite Hs. by apply IH.
    + destruct (hideModal_effect false
                  (Screen.set_nAppsRunning (Z.of_nat (length apps)) s) Ha)
        as (E1 & E2 & E3 & _).
      apply IH; [done| |done]. by rewrite E3.
Qed.

(** X29.  On a screen that was not destroyed, a running-count signal (for
    an app that is not merely starting) with a count that is not zero hides
    the interface without touching [_isShown]; when the interface had been
    shown, the signal that brings the count back to zero shows it again;
    and after [hideModal (true)], the hide of Escape, of a click on the
    lightbox and of [exit], no sequence of such signals shows it. *)
Theorem running_count_hides_and_shows (s : Screen.state) :
  is_Some (Screen.actor s) -> is_Some (Screen.lightbox s) ->
  (forall app (apps : list A),
     app <> Some Screen.STARTING -> apps <> [] ->
     exists s',
       Screen._updateRunningCount app apps s = Returns s'
       /\ Screen.is_visible s' = false
       /\ Screen._isShown s' = Screen._isShown s)
  /\ (forall app app' (apps : list A),
        app <> Some Screen.STARTING -> app' <> Some Screen.STARTING ->
        apps <> [] -> Screen._isShown s = true ->
        exists s' s'',
          Screen._updateRunningCount app apps s = Returns s'
          /\ Screen.is_visible s' = false
          /\ Screen._updateRunningCount app' ([] : list A) s' = Returns s''
          /\ Screen.is_visible s'' = true)
  /\ (forall l : list (option Screen.AppState * list A),
        exists s',
          Screen.signals l (Screen.hideModal true s) = Returns s'
          /\ Screen.is_visible s' = false
          /\ Screen._isShown s' = false).
Proof.
  intros Ha Hl. split; [|split].
  - intros app apps Happ Hne.
    destruct (updateRunningCount_nonzero app apps s Ha Happ Hne)
      as (s' & E & Hv & Hs & _).
    by exists s'.
  - intros app app' apps Happ Happ' Hne Hshown.
    destruct (updateRunningCount_nonzero app apps s Ha Happ Hne)
      as (s' & E & Hv & Hs & Ha' & Hl').
    destruct (updateRunningCount_zero app' s' Ha' (Hl' Hl) Happ')
      as (s'' & E' & _ & Hv' & _).
    exists s', s''. repeat split; try done.
    by rewrite Hv', Hs, Hshown.
  - intros l.
    destruct (hideModal_effect true s Ha) as (E1 & E2 & E3 & _).
    by apply signals_after_user_hide.
Qed.

End RunningCount.

Section RunningCountExamples.

(** The interface is shown, an app starts running, the user hides the
    interface by hand, the app quits: the interface stays hidden.  Without
    the user's hide it comes back. *)
Example user_hide_wins :
  exists s1 s2,
    Screen.showModal false Examples.screen0 = Returns s1
    /\ Screen.signals [(Some Screen.RUNNING, [1])] s1 = Returns s2
    /\ Screen.is_visible s2 = false
    /\ (exists s3,
          Screen.signals [(Some Screen.STOPPED, ([] : list nat))]
            (Screen.hideModal true s2)
          = Returns s3
          /\ Screen.is_visible s3 = false)
    /\ (exists s3,
          Screen.signals [(Some Screen.STOPPED, ([] : list nat))] s2
          = Returns s3
          /\ Screen.is_visible s3 = true).
Proof.
  eexists _, _. split; [vm_compute; reflexivity|].
  split; [vm_compute; reflexivity|]. split; [reflexivity|].
  split; eexists; (split; [vm_compute; reflexivity|reflexivity]).
Qed.

(** C6.  One hide by the user is not remembered.  The interface is shown
    and the user hides it with the exit shortcut, whose handler reaches
    [hideModal] without an argument; an app starts and stops; the signal
    that brings the count back to zero shows the interface again.  After
    the hide of Escape, [hideModal (true)], the same signals leave it
    hidden. *)
Lemma exit_shortcut_hide_is_undone :
  exists s1 s2 s3,
    Mouseless._exitKeyHandler Examples.screen_shown = Returns s1
    /\ Screen.is_visible s1 = false
    /\ Screen._isShown s1 = true
    /\ Screen.signals
         [(Some Screen.RUNNING, [1%nat]); (Some Screen.STOPPED, [])] s1
       = Returns s2
    /\ Screen.is_visible s2 = true
    /\ Screen.signals
         [(Some Screen.RUNNING, [1%nat]); (Some Screen.STOPPED, [])]
         (Screen.hideModal true Examples.screen_shown)
       = Returns s3
    /\ Screen.is_visible s3 = false.
Proof.
  eexists _, _, _. split; [vm_compute; reflexivity|].
  split; [reflexivity|]. split; [reflexivity|].
  split; [vm_compute; reflexivity|]. split; [reflexivity|].
  split; [vm_compute; reflexivity|reflexivity].
Qed.

Lemma running_count_hides_and_shows_witness :
  (exists s',
     Screen._updateRunningCount (Some Screen.RUNNING) [1%nat]
       Examples.screen_shown = Returns s'
     /\ Screen.is_visible s' = false
     /\ Screen._isShown s' = Screen._isShown Examples.screen_shown)
  /\ (exists s' s'',
        Screen._updateRunningCount (Some Screen.RUNNING) [1%nat]
          Examples.screen_shown = Returns s'
        /\ Screen.is_visible s' = false
        /\ Screen._updateRunningCount (Some Screen.STOPPED) ([] : list nat) s'
           = Returns s''
        /\ Screen.is_visible s'' = true)
  /\ (exists s',
        Screen.signals
          [(Some Screen.RUNNING, [1%nat]); (Some Screen.STOPPED, [])]
          (Screen.hideModal true Examples.screen_shown)
        = Returns s'
        /\ Screen.is_visible s' = false
        /\ Screen._isShown s' = false).
Proof.
  destruct (running_count_hides_and_shows (A := nat) Examples.screen_shown)
    as (H1 & H2 & H3).
  - vm_compute. by eexists.
  - vm_compute. by eexists.
  - split; [|split].
    + apply H1; discriminate.
    + apply H2; try discriminate. reflexivity.
    + apply H3.
Defined.

End RunningCountExamples.

(** ** Focus retries: bounded for the screen, unbounded for a menu list *)

Section FocusRetries.

Local Open Scope Z_scope.

Local Abbreviation pending_of s := (pending (Shell.laters (Screen.shell s))).
Local Abbreviation log_of s := (Shell.navigate_log (Screen.shell s)).

(** A redraw in that situation makes one more attempt and leaves the menu
    list waiting again, with a fresh later. *)
Lemma redraw_waiting (this : Widget) (s : Screen.state) :
  waiting this s ->
  waiting this (Screen.redraw s)
  /\ log_of (Screen.redraw s) = log_of s ++ [(this, TAB_FORWARD)].
Proof.
  intros (m & id & Hm & Hitems & Hfocus & Hnf & Hpending & Hid).
  unfold Screen.redraw. rewrite Hpending. simpl.
  unfold Screen.run_pending. simpl. rewrite Hm.
  unfold MenuList._moveFocusToItems.
  destruct (Z.ltb_spec 0 (Z.of_nat (length (map_to_list (MenuList._items m)))))
    as [_|?]; [simpl|lia].
  rewrite (bool_decide_eq_true_2 _ Hfocus). simpl.
  unfold Shell.navigate_focus. simpl.
  rewrite (bool_decide_eq_false_2 _ Hnf). simpl.
  split.
  - exists m, (N.succ (last_later_id (Shell.laters (Screen.shell s)))).
    split; [by destruct this|]. split; [done|]. split; [done|].
    split; [done|]. split; [|simpl; lia].
    simpl. rewrite Hpending. simpl.
    destruct (N.eqb_spec id id); [simpl|done].
    destruct (N.eqb_spec
                (N.succ (last_later_id (Shell.laters (Screen.shell s)))) id);
      [lia|done].
  - reflexivity.
Qed.

Lemma redraws_waiting (this : Widget) (n : nat) (s : Screen.state) :
  waiting this s ->
  waiting this (Screen.redraws n s)
  /\ log_of (Screen.redraws n s) = log_of s ++ replicate n (this, TAB_FORWARD).
Proof.
  revert s. induction n as [|n IH]; intros s Hw; simpl.
  - by rewrite app_nil_r.
  - destruct (redraw_waiting this s Hw) as [Hw' Hlog].
    destruct (IH _ Hw') as [Hw'' Hlog'].
    split; [done|]. by rewrite Hlog', Hlog, <- app_assoc.
Qed.

Lemma menu_waiting_waits : waiting W_mainView Examples.menu_waiting.
Proof.
  exists Examples.main_menu, 1%N.
  repeat split; try done.
  intros Hin. vm_compute in Hin. inversion Hin.
Qed.

(** C7, as the specification states it, fails for the menu list: while the
    main menu list keeps the key focus and none of its items can take it,
    every redraw makes another attempt and registers another retry, so no
    cap bounds the number of attempts. *)
Lemma moveFocusToItems_retries_without_bound :
  ~ exists cap : nat,
      forall n : nat,
        (length (log_of (Screen.redraws n Examples.menu_waiting)) <= cap)%nat.
Proof.
  intros [cap Hcap]. specialize (Hcap (S cap)).
  destruct (redraws_waiting W_mainView (S cap) Examples.menu_waiting
              menu_waiting_waits) as [_ Hlog].
  rewrite Hlog, length_app, length_replicate in Hcap. simpl in Hcap. lia.
Qed.

(** C7, amended.  The retry of [MouselessScreen._grabFocus] is bounded:
    [_grabFocus] registers at most one later, and that later, when it runs,
    makes one attempt and registers nothing.  The retry of
    [MenuList._moveFocusToItems] has no cap: as long as the list has items,
    holds the key focus itself and cannot hand it to an item, each redraw
    makes one more attempt and leaves one more retry pending. *)
Theorem focus_retry_bounds (s : Screen.state) :
  (forall w d,
     pending_of (Screen.run_later (GrabFocusRetry w d) s) = pending_of s
     /\ (length (pending_of (Screen._grabFocus w d s))
         <= S (length (pending_of s)))%nat)
  /\ (forall this,
        waiting this s ->
        forall n,
          waiting this (Screen.redraws n s)
          /\ log_of (Screen.redraws n s)
             = log_of s ++ replicate n (this, TAB_FORWARD)).
Proof.
  split.
  - intros w d.
    destruct (actor_navigate_focus_frame w d (Screen.shell s))
      as (_ & _ & Hlaters & _).
    split.
    + simpl. by rewrite Hlaters.
    + unfold Screen._grabFocus.
      destruct (Screen.actor_navigate_focus w d (Screen.shell s))
        as [focusSet sh]. simpl in Hlaters.
      destruct focusSet; simpl; rewrite Hlaters; [lia|].
      rewrite length_app. simpl. lia.
  - intros this Hw n. by apply redraws_waiting.
Qed.

Lemma focus_retry_bounds_witness :
  (pending_of
     (Screen.run_later (GrabFocusRetry W_apps TAB_FORWARD)
        Examples.menu_waiting)
   = pending_of Examples.menu_waiting
   /\ (length (pending_of
                 (Screen._grabFocus W_apps TAB_FORWARD Examples.menu_waiting))
       <= S (length (pending_of Examples.menu_waiting)))%nat)
  /\ (waiting W_mainView (Screen.redraws 3 Examples.menu_waiting)
      /\ log_of (Screen.redraws 3 Examples.menu_waiting)
         = log_of Examples.menu_waiting
           ++ replicate 3 (W_mainView, TAB_FORWARD)).
Proof.
  split.
  - apply (proj1 (focus_retry_bounds Examples.menu_waiting)).
  - apply (proj2 (focus_retry_bounds Examples.menu_waiting) W_mainView).
    exact menu_waiting_waits.
Defined.

End FocusRetries.
(** ** Columns and rows *)

Section LayoutLoopSpec.

Local Open Scope Z_scope.

(** What the loop computes: it stops at the first column count at which the
    limit is reached or one more item does not fit; up to there every item
    fitted. *)
Lemma _computeLayout_loop_spec (fuel : nat) (colLimit : option Z)
    (h s w k u n u' : Z) :
  IconGrid._computeLayout_loop fuel colLimit h s w k u = Some (n, u') ->
  k <= n
  /\ u' = u + (n - k) * (h + s)
  /\ (forall j, k <= j < n ->
        match colLimit with Some c => j < c | None => True end
        /\ u + (j - k) * (h + s) + h <= w)
  /\ ((exists c, colLimit = Some c /\ c <= n) \/ w < u' + h).
Proof.
  revert k u.
  assert (forall k u,
            (match colLimit with Some c => k <? c | None => true end)
            && (u + h <=? w) = false ->
            (exists c, colLimit = Some c /\ c <= k) \/ w < u + h) as Hstop.
  { intros k u E. apply andb_false_iff in E as [E|E].
    - destruct colLimit as [c|]; [|done]. left. exists c. split; [done|lia].
    - right. lia. }
  assert (forall k u,
            (match colLimit with Some c => k <? c | None => true end)
            && (u + h <=? w) = true ->
            match colLimit with Some c => k < c | None => True end
            /\ u + h <= w) as Hgo.
  { intros k u E. apply andb_true_iff in E as [E1 E2].
    split; [destruct colLimit; [lia|done] | lia]. }
  induction fuel as [|fuel IH]; intros k u; simpl.
  - destruct (_ && _) eqn:E; [done|]. intros [= <- <-].
    split; [lia|]. split; [lia|]. split; [intros; lia|].
    by apply Hstop.
  - destruct (_ && _) eqn:E.
    + intros Hloop. apply IH in Hloop as (Hk & Hu & Hall & Hend).
      apply Hgo in E as [E1 E2].
      split; [lia|]. split; [lia|]. split; [|exact Hend].
      intros j Hj. destruct (decide (j = k)) as [->|Hne].
      * split; [exact E1|]. replace (k - k) with 0 by lia. lia.
      * destruct (Hall j ltac:(lia)) as [H1 H2]. split; [exact H1|].
        replace (u + (j - k) * (h + s) + h)
          with (u + (h + s) + (j - (k + 1)) * (h + s) + h) by lia.
        exact H2.
    + intros [= <- <-].
      split; [lia|]. split; [lia|]. split; [intros; lia|].
      by apply Hstop.
Qed.

End LayoutLoopSpec.

Section Columns.
Context {Item : Type}.

Local Open Scope Z_scope.

(** [_computeLayout] in closed form. *)
Lemma _computeLayout_spec (g : IconGrid.state Item) (forWidth n used : Z) :
  IconGrid._computeLayout g forWidth = Some (n, used) ->
  0 <= n
  /\ (forall c, IconGrid._colLimit g = Some c -> n <= Z.max 0 c)
  /\ (forall j, 0 < j <= n ->
        IconGrid.usedWidthForNColumns g j <= forWidth)
  /\ (0 < n -> used = IconGrid.usedWidthForNColumns g n)
  /\ (n = 0 -> used = IconGrid.leftPadding g + IconGrid.rightPadding g)
  /\ ((exists c, IconGrid._colLimit g = Some c /\ c <= n)
      \/ forWidth < IconGrid.usedWidthForNColumns g (n + 1)).
Proof.
  unfold IconGrid._computeLayout.
  destruct (IconGrid._computeLayout_loop _ _ _ _ _ _ _) as [[n' u']|] eqn:E;
    [|done].
  simpl. intros [= <- <-].
  apply _computeLayout_loop_spec in E as (Hn & Hu & Hall & Hend).
  unfold IconGrid.usedWidthForNColumns.
  split; [exact Hn|]. split; [|split; [|split; [|split]]].
  - intros c Hc. destruct (decide (n' = 0)) as [->|Hne]; [lia|].
    destruct (Hall (n' - 1) ltac:(lia)) as [Hlim _].
    rewrite Hc in Hlim. lia.
  - intros j Hj. destruct (Hall (j - 1) ltac:(lia)) as [_ Hfit]. lia.
  - intros Hpos. destruct (Z.gtb_spec n' 0); lia.
  - intros ->. simpl. lia.
  - destruct Hend as [Hend|Hend]; [by left|right]. lia.
Qed.

(** Under a column limit, or as long as one more column takes width, the
    layout is computed for every width. *)
Lemma _computeLayout_total (g : IconGrid.state Item) (forWidth : Z) :
  is_Some (IconGrid._colLimit g)
  \/ 0 < IconGrid._getHItemSize g + IconGrid._getSpacing g ->
  is_Some (IconGrid._computeLayout g forWidth).
Proof.
  intros Hcase. apply _computeLayout_returns.
  destruct Hcase as [?|?]; [by left | right; by left].
Qed.

(** X1.  Whenever the layout loop stops (there is a column limit, or a
    column takes width), [_computeLayout] returns a column count that is
    not negative and respects the limit; a row of that many columns fits
    the width, its used width being the one [usedWidthForNColumns] gives;
    and the count is maximal: the limit is reached or one more column would
    not fit. *)
Theorem computeLayout_largest_fitting_row (g : IconGrid.state Item)
    (forWidth : Z) :
  is_Some (IconGrid._colLimit g)
  \/ 0 < IconGrid._getHItemSize g + IconGrid._getSpacing g ->
  exists n used,
    IconGrid._computeLayout g forWidth = Some (n, used)
    /\ 0 <= n
    /\ (forall c, IconGrid._colLimit g = Some c -> n <= Z.max 0 c)
    /\ (0 < n ->
        used = IconGrid.usedWidthForNColumns g n /\ used <= forWidth)
    /\ (n = 0 -> used = IconGrid.leftPadding g + IconGrid.rightPadding g)
    /\ ((exists c, IconGrid._colLimit g = Some c /\ c <= n)
        \/ forWidth < IconGrid.usedWidthForNColumns g (n + 1)).
Proof.
  intros Hcase.
  destruct (_computeLayout_total g forWidth Hcase) as [[n used] E].
  exists n, used. split; [exact E|].
  apply _computeLayout_spec in E as (Hn & Hlim & Hfit & Hused & Hzero & Hmax).
  split; [exact Hn|]. split; [exact Hlim|].
  split; [|split; [exact Hzero|exact Hmax]].
  intros Hpos. split; [by apply Hused|].
  rewrite (Hused Hpos). apply Hfit. lia.
Qed.

(** X2.  A wider row never holds fewer columns. *)
Theorem columnsForWidth_monotone (g : IconGrid.state Item) (w w' : Z) :
  is_Some (IconGrid._colLimit g)
  \/ 0 < IconGrid._getHItemSize g + IconGrid._getSpacing g ->
  w <= w' ->
  exists n n',
    IconGrid.columnsForWidth g w = Some n
    /\ IconGrid.columnsForWidth g w' = Some n'
    /\ n <= n'.
Proof.
  intros Hcase Hw. unfold IconGrid.columnsForWidth.
  destruct (_computeLayout_total g w Hcase) as [[n u] E].
  destruct (_computeLayout_total g w' Hcase) as [[n' u'] E'].
  rewrite E, E'. exists n, n'. split; [done|]. split; [done|].
  apply _computeLayout_spec in E as (Hn & Hlim & Hfit & _ & _ & _).
  apply _computeLayout_spec in E' as (Hn' & _ & _ & _ & _ & Hmax).
  destruct (Z.le_gt_cases n n') as [|Hlt]; [done|exfalso].
  destruct Hmax as [(c & Hc & Hle)|Hmax].
  - specialize (Hlim c Hc). lia.
  - specialize (Hfit (n' + 1) ltac:(lia)). lia.
Qed.

(** X3.  [columnsForWidth] undoes [usedWidthForNColumns]: when a column
    takes width, a row made exactly as wide as [n] columns use holds [n]
    columns (as long as the limit allows them), and [usedWidth] of that
    width is the width itself. *)
Theorem columnsForWidth_usedWidthForNColumns (g : IconGrid.state Item)
    (n : Z) :
  0 < IconGrid._getHItemSize g + IconGrid._getSpacing g ->
  1 <= n ->
  (forall c, IconGrid._colLimit g = Some c -> n <= c) ->
  IconGrid.columnsForWidth g (IconGrid.usedWidthForNColumns g n) = Some n
  /\ IconGrid.usedWidth g (IconGrid.usedWidthForNColumns g n)
     = Some (IconGrid.usedWidthForNColumns g n).
Proof.
  intros Hstep Hn Hlimit.
  assert (IconGrid.columnsForWidth g (IconGrid.usedWidthForNColumns g n)
          = Some n) as E.
  { unfold IconGrid.columnsForWidth.
    destruct (_computeLayout_total g (IconGrid.usedWidthForNColumns g n))
      as [[n' u'] E]; [by right|].
    rewrite E. simpl. f_equal.
    apply _computeLayout_spec in E as (Hn' & Hlim & Hfit & _ & _ & Hmax).
    unfold IconGrid.usedWidthForNColumns in *.
    destruct (Z.lt_trichotomy n' n) as [Hlt|[->|Hgt]]; [exfalso| done |exfalso].
    - destruct Hmax as [(c & Hc & Hle)|Hmax].
      + specialize (Hlimit c Hc). lia.
      + nia.
    - specialize (Hfit n' ltac:(lia)). nia. }
  split; [exact E|]. unfold IconGrid.usedWidth. by rewrite E.
Qed.

End Columns.

Section Rows.
Context {Item : Type} `{GridItem Item}.

Local Open Scope Z_scope.

(** X4.  When a row takes height, [rowsForHeight] and [usedHeightForNRows]
    undo each other as far as rounding allows: the rows of the height that
    [n] rows use are [n]; the rows that fit a height use no more than that
    height, and one more row would. *)
Theorem rowsForHeight_usedHeightForNRows (g : IconGrid.state Item)
    (n forHeight : Z) :
  0 < IconGrid._getVItemSize g + IconGrid._getSpacing g ->
  IconGrid.rowsForHeight g (IconGrid.usedHeightForNRows g n) = n
  /\ IconGrid.usedHeightForNRows g (IconGrid.rowsForHeight g forHeight)
     <= forHeight
  /\ forHeight
     < IconGrid.usedHeightForNRows g (IconGrid.rowsForHeight g forHeight + 1).
Proof.
  intros Hstep.
  unfold IconGrid.rowsForHeight, IconGrid.usedHeightForNRows.
  set (step := IconGrid._getVItemSize g + IconGrid._getSpacing g) in *.
  split.
  - replace (step * n - IconGrid._getSpacing g + IconGrid.topPadding g
             + IconGrid.bottomPadding g
             - (IconGrid.topPadding g + IconGrid.bottomPadding g)
             + IconGrid._getSpacing g) with (n * step) by lia.
    apply Z.div_mul. lia.
  - set (a := forHeight - (IconGrid.topPadding g + IconGrid.bottomPadding g)
              + IconGrid._getSpacing g).
    pose proof (Z.div_mod a step ltac:(lia)) as Hdm.
    pose proof (Z.mod_pos_bound a step Hstep) as Hm.
    split; subst a; lia.
Qed.

(** [Math.ceil (a / b)] is the least number of groups of [b] that hold
    [a]. *)
Lemma ceil_div_spec (a b : Z) :
  0 < b -> (JS.ceil_div a b - 1) * b < a <= JS.ceil_div a b * b.
Proof.
  intros Hb. unfold JS.ceil_div.
  pose proof (Z.div_mod (- a) b ltac:(lia)) as Hdm.
  pose proof (Z.mod_pos_bound (- a) b Hb) as Hm.
  lia.
Qed.

(** X5.  [nRows] gives every visible child a cell and leaves no row empty:
    with [c > 0] columns fitting the width and no row limit in force (none,
    or 0, which is falsy), the [r] rows returned satisfy
    [(r - 1) * c < count <= r * c]; with no column fitting there are no
    rows, however many children there are; a row limit other than 0 caps
    the result. *)
Theorem nRows_covers_children (g : IconGrid.state Item) (forWidth : Z) :
  is_Some (IconGrid._colLimit g)
  \/ 0 < IconGrid._getHItemSize g + IconGrid._getSpacing g ->
  0 <= forWidth ->
  exists c r,
    IconGrid.columnsForWidth g forWidth = Some c
    /\ (0 < c ->
        (r - 1) * c < Z.of_nat (length (IconGrid._getVisibleChildren g))
        <= r * c)
    /\ (c = 0 -> r = 0)
    /\ IconGrid.nRows g forWidth
       = Some (match IconGrid._rowLimit g with
               | Some limit => if limit =? 0 then r else Z.min r limit
               | None => r
               end).
Proof.
  intros Hcase Hw.
  destruct (_computeLayout_total g forWidth Hcase) as [[c u] E].
  pose proof (_computeLayout_columns g forWidth c u E) as Hc.
  exists c,
    (if c >? 0
     then JS.ceil_div (Z.of_nat (length (IconGrid._getVisibleChildren g))) c
     else 0).
  unfold IconGrid.columnsForWidth, IconGrid.nRows. rewrite E. simpl.
  destruct (Z.ltb_spec forWidth 0); [lia|]. simpl.
  split; [done|]. split; [|split].
  - intros Hpos. destruct (Z.gtb_spec c 0); [|lia]. by apply ceil_div_spec.
  - intros ->. reflexivity.
  - f_equal. destruct (IconGrid._rowLimit g) as [limit|]; [|done].
    unfold JS.truthy. by destruct (limit =? 0).
Qed.

End Rows.

Section ColumnsExamples.

Local Open Scope Z_scope.

Lemma computeLayout_largest_fitting_row_witness :
  exists n used,
    IconGrid._computeLayout Examples.grid3 1000 = Some (n, used)
    /\ 0 <= n
    /\ (forall c, IconGrid._colLimit Examples.grid3 = Some c -> n <= Z.max 0 c)
    /\ (0 < n ->
        used = IconGrid.usedWidthForNColumns Examples.grid3 n
        /\ used <= 1000)
    /\ (n = 0 ->
        used = IconGrid.leftPadding Examples.grid3
               + IconGrid.rightPadding Examples.grid3)
    /\ ((exists c, IconGrid._colLimit Examples.grid3 = Some c /\ c <= n)
        \/ 1000 < IconGrid.usedWidthForNColumns Examples.grid3 (n + 1)).
Proof.
  apply (computeLayout_largest_fitting_row Examples.grid3 1000).
  left. by eexists.
Defined.

(** A row of 1000 pixels holds 5 items of 160 pixels under a limit of 5
    columns; a row of 500 pixels holds 3 of them. *)
Example computeLayout_grid3 :
  IconGrid._computeLayout Examples.grid3 1000 = Some (5, 800)
  /\ IconGrid._computeLayout Examples.grid3 500 = Some (3, 480)
  /\ IconGrid._computeLayout Examples.grid3 100 = Some (0, 0).
Proof. repeat split; reflexivity. Qed.

Lemma columnsForWidth_monotone_witness :
  exists n n',
    IconGrid.columnsForWidth Examples.grid3 500 = Some n
    /\ IconGrid.columnsForWidth Examples.grid3 1000 = Some n'
    /\ n <= n'.
Proof.
  apply (columnsForWidth_monotone Examples.grid3 500 1000);
    [left; by eexists | lia].
Defined.

Lemma columnsForWidth_usedWidthForNColumns_witness :
  IconGrid.columnsForWidth Examples.grid3
    (IconGrid.usedWidthForNColumns Examples.grid3 4) = Some 4
  /\ IconGrid.usedWidth Examples.grid3
       (IconGrid.usedWidthForNColumns Examples.grid3 4)
     = Some (IconGrid.usedWidthForNColumns Examples.grid3 4).
Proof.
  apply (columnsForWidth_usedWidthForNColumns Examples.grid3 4).
  - vm_compute. reflexivity.
  - lia.
  - intros c [= <-]. lia.
Defined.

Lemma rowsForHeight_usedHeightForNRows_witness :
  IconGrid.rowsForHeight Examples.grid3
    (IconGrid.usedHeightForNRows Examples.grid3 4) = 4
  /\ IconGrid.usedHeightForNRows Examples.grid3
       (IconGrid.rowsForHeight Examples.grid3 600) <= 600
  /\ 600 < IconGrid.usedHeightForNRows Examples.grid3
             (IconGrid.rowsForHeight Examples.grid3 600 + 1).
Proof.
  apply (rowsForHeight_usedHeightForNRows Examples.grid3 4 600).
  vm_compute. reflexivity.
Defined.

Lemma nRows_covers_children_witness :
  exists c r,
    IconGrid.columnsForWidth Examples.grid3 400 = Some c
    /\ (0 < c ->
        (r - 1) * c
        < Z.of_nat (length (IconGrid._getVisibleChildren Examples.grid3))
        <= r * c)
    /\ (c = 0 -> r = 0)
    /\ IconGrid.nRows Examples.grid3 400
       = Some (match IconGrid._rowLimit Examples.grid3 with
               | Some limit => if limit =? 0 then r else Z.min r limit
               | None => r
               end).
Proof.
  apply (nRows_covers_children Examples.grid3 400);
    [left; by eexists | lia].
Defined.

(** Three icons in 400 pixels: two columns, two rows. *)
Example nRows_grid3 :
  IconGrid.columnsForWidth Examples.grid3 400 = Some 2
  /\ IconGrid.nRows Examples.grid3 400 = Some 2
  /\ IconGrid.nRows Examples.grid3 100 = Some 0.
Proof. repeat split; reflexivity. Qed.

End ColumnsExamples.
(** ** The allocation of the children *)

Section Allocation.
Context {Item : Type} `{GridItem Item}.
Variable get_content_box : ActorBox.t -> ActorBox.t.
Variable parent_allocation : ActorBox.t.
Variable natural_size : Item -> Z * Z.
Variable text_direction_rtl : bool.
Variable _xAlign : Align.

Local Open Scope Z_scope.

(** Counting cells row by row: the column and the row of the next index. *)
Lemma next_cell (n i : Z) :
  0 < n -> 0 <= i ->
  (if i mod n + 1 =? n then (0, i / n + 1) else (i mod n + 1, i / n))
  = ((i + 1) mod n, (i + 1) / n).
Proof.
  intros Hn Hi.
  pose proof (Z.div_mod i n ltac:(lia)) as Hdm.
  pose proof (Z.mod_pos_bound i n Hn) as Hm.
  destruct (Z.eqb_spec (i mod n + 1) n) as [E|E]; f_equal.
  - apply (Z.mod_unique_pos (i + 1) n (i / n + 1) 0); lia.
  - apply (Z.div_unique_pos (i + 1) n (i / n + 1) 0); lia.
  - apply (Z.mod_unique_pos (i + 1) n (i / n) (i mod n + 1)); lia.
  - apply (Z.div_unique_pos (i + 1) n (i / n) (i mod n + 1)); lia.
Qed.

(** The box of a child: anchored at the cell's corner (the two spacings
    that would centre it are always 0), as large as the item size lets the
    child's natural size be. *)
Lemma _calculateChildBox_spec (g : IconGrid.state Item) (child : Item)
    (x y : Z) (box : ActorBox.t) :
  let width := Z.min (IconGrid._getHItemSize g) (natural_size child).1 in
  let height := Z.min (IconGrid._getVItemSize g) (natural_size child).2 in
  let x1 :=
    if text_direction_rtl then ActorBox.x2 box - (x + width) else x in
  IconGrid._calculateChildBox natural_size text_direction_rtl g child x y box
  = {| ActorBox.x1 := x1; ActorBox.y1 := y;
       ActorBox.x2 := x1 + width; ActorBox.y2 := y + height |}.
Proof.
  unfold IconGrid._calculateChildBox, IconGrid._getAllocatedChildSizeAndSpacing.
  destruct (natural_size child) as [natWidth natHeight]. simpl.
  rewrite (Z.max_l 0 (Z.min (IconGrid._getHItemSize g) natWidth - natWidth))
    by lia.
  rewrite (Z.max_l 0 (Z.min (IconGrid._getVItemSize g) natHeight - natHeight))
    by lia.
  change (0 / 2) with 0.
  destruct text_direction_rtl; f_equal; lia.
Qed.

(** The loop, started at the cell of index [i], gives the child [k] places
    further the cell of index [i + k]. *)
Lemma allocate_children_cells (g : IconGrid.state Item) (box : ActorBox.t)
    (leftEmptySpace availHeight n : Z) (kids : list Item)
    (y0 i x y columnIndex rowIndex : Z)
    (k : nat) (child : Item) (placed : option ActorBox.t) :
  let x0 := ActorBox.x1 box + leftEmptySpace + IconGrid.leftPadding g in
  let hstep := IconGrid._getHItemSize g + IconGrid._getSpacing g in
  let vstep := IconGrid._getVItemSize g + IconGrid._getSpacing g in
  0 < n -> 0 <= i ->
  columnIndex = i mod n -> rowIndex = i / n ->
  x = x0 + columnIndex * hstep -> y = y0 + rowIndex * vstep ->
  IconGrid.allocate_children natural_size text_direction_rtl false g box
    leftEmptySpace availHeight n (IconGrid._getSpacing g) kids
    x y columnIndex rowIndex !! k
  = Some (child, placed) ->
  kids !! k = Some child
  /\ placed
     = if match IconGrid._rowLimit g with
          | Some limit =>
              JS.truthy limit && ((i + Z.of_nat k) / n >=? limit)
          | None => false
          end
       then None
       else Some (IconGrid._calculateChildBox natural_size
                    text_direction_rtl g child
                    (x0 + (i + Z.of_nat k) mod n * hstep)
                    (y0 + (i + Z.of_nat k) / n * vstep) box).
Proof.
  intros x0 hstep vstep Hn. revert i x y columnIndex rowIndex k.
  induction kids as [|kid kids IH];
    intros i x y columnIndex rowIndex k Hi Ecol Erow Ex Ey; [done|].
  simpl.
  pose proof (next_cell n i Hn Hi) as Hnext.
  pose proof (Z.mod_pos_bound i n Hn) as Hm.
  rewrite <- Ecol, <- Erow in Hnext.
  assert (forall rest : list (Item * option ActorBox.t),
            ((kid,
              if (match IconGrid._rowLimit g with
                  | Some limit => JS.truthy limit && (rowIndex >=? limit)
                  | None => false
                  end) || false
              then None
              else Some (IconGrid._calculateChildBox natural_size
                           text_direction_rtl g kid x y box)) :: rest) !! 0%nat
            = Some (child, placed) ->
            (kid :: kids) !! 0%nat = Some child
            /\ placed
               = if match IconGrid._rowLimit g with
                    | Some limit =>
                        JS.truthy limit && ((i + Z.of_nat 0) / n >=? limit)
                    | None => false
                    end
                 then None
                 else Some (IconGrid._calculateChildBox natural_size
                              text_direction_rtl g child
                              (x0 + (i + Z.of_nat 0) mod n * hstep)
                              (y0 + (i + Z.of_nat 0) / n * vstep) box)) as Hhead.
  { intros rest. simpl. intros [= <- <-].
    rewrite Z.add_0_r, orb_false_r, <- Ecol, <- Erow, <- Ex, <- Ey. done. }
  destruct (Z.eqb_spec (columnIndex + 1) n) as [Ewrap|Ewrap];
    injection Hnext as Hcol Hrow.
  - simpl. destruct k as [|k]; [apply Hhead|].
    replace (i + Z.of_nat (S k)) with (i + 1 + Z.of_nat k) by lia.
    simpl. apply IH; [lia|done|done| |].
    + unfold x0. lia.
    + rewrite Ey. unfold vstep. lia.
  - destruct (Z.eqb_spec (columnIndex + 1) 0) as [E0|E0]; [lia|].
    destruct k as [|k]; [apply Hhead|].
    replace (i + Z.of_nat (S k)) with (i + 1 + Z.of_nat k) by lia.
    simpl. apply IH; [lia|done|done| |].
    + rewrite Ex. unfold hstep. lia.
    + exact Ey.
Qed.

(** With no column fitting, the loop never starts a new row: the children
    are laid side by side. *)
Lemma allocate_children_no_columns (g : IconGrid.state Item)
    (box : ActorBox.t) (leftEmptySpace availHeight : Z) (kids : list Item)
    (x y columnIndex : Z) (k : nat) (child : Item)
    (placed : option ActorBox.t) :
  let hstep := IconGrid._getHItemSize g + IconGrid._getSpacing g in
  0 <= columnIndex ->
  IconGrid.allocate_children natural_size text_direction_rtl false g box
    leftEmptySpace availHeight 0 (IconGrid._getSpacing g) kids
    x y columnIndex 0 !! k
  = Some (child, placed) ->
  kids !! k = Some child
  /\ placed
     = if match IconGrid._rowLimit g with
          | Some limit => JS.truthy limit && (0 >=? limit)
          | None => false
          end
       then None
       else Some (IconGrid._calculateChildBox natural_size
                    text_direction_rtl g child (x + Z.of_nat k * hstep) y box).
Proof.
  intros hstep. revert x columnIndex k.
  induction kids as [|kid kids IH]; intros x columnIndex k Hc; [done|].
  simpl.
  assert ((columnIndex + 1 =? 0) = false) as E0 by lia.
  rewrite E0. simpl. rewrite E0. destruct k as [|k].
  - simpl. intros [= <- <-]. rewrite orb_false_r.
    by replace (x + Z.of_nat 0 * hstep) with x by lia.
  - simpl. intros E. apply IH in E as [E1 E2]; [|lia].
    split; [exact E1|]. rewrite E2.
    fold hstep.
    assert (x + hstep + Z.of_nat k * hstep = x + Z.of_nat (S k) * hstep)
      as -> by lia.
    done.
Qed.

Lemma allocate_children_fst (fillParent : bool) (g : IconGrid.state Item)
    (box : ActorBox.t) (leftEmptySpace availHeight n spacing : Z)
    (kids : list Item) (x y columnIndex rowIndex : Z) :
  map fst
    (IconGrid.allocate_children natural_size text_direction_rtl fillParent g
       box leftEmptySpace availHeight n spacing kids x y columnIndex rowIndex)
  = kids.
Proof.
  revert x y columnIndex rowIndex.
  induction kids as [|kid kids IH]; intros x y columnIndex rowIndex; [done|].
  simpl.
  destruct (columnIndex + 1 =? n); simpl;
    [|destruct (columnIndex + 1 =? 0); simpl]; by rewrite IH.
Qed.

(** X6.  [vfunc_allocate] lays the visible children out row by row.  On a
    grid that does not fill its parent (as every grid of the extension),
    with [n] the number of columns that fit the content box, the [k]-th
    visible child gets the cell in column [k mod n] of row [k / n]: its box
    starts at the cell's corner, a step of item size plus spacing apart
    from its neighbours, and is as large as the item size lets the child's
    natural size be; it is never centred in the cell.  A child whose row
    reaches a row limit other than 0 is made transparent and gets no box.
    With no column fitting ([n = 0]) all children are laid side by side in
    one row. *)
Theorem vfunc_allocate_row_major (box : ActorBox.t)
    (g : IconGrid.state Item) :
  is_Some (IconGrid._colLimit g)
  \/ 0 < IconGrid._getHItemSize g + IconGrid._getSpacing g ->
  exists g' cells n used,
    let content := get_content_box box in
    let availWidth := ActorBox.x2 content - ActorBox.x1 content in
    let leftEmptySpace :=
      match _xAlign with
      | Align_START => 0
      | Align_MIDDLE => (availWidth - used) / 2
      | Align_END => availWidth - used
      end in
    IconGrid.vfunc_allocate get_content_box parent_allocation natural_size
      text_direction_rtl _xAlign false box g = Some (g', cells)
    /\ IconGrid._computeLayout g availWidth = Some (n, used)
    /\ map fst cells = IconGrid._getVisibleChildren g
    /\ forall (k : nat) child placed,
         cells !! k = Some (child, placed) ->
         let column := if n =? 0 then Z.of_nat k else Z.of_nat k mod n in
         let row := if n =? 0 then 0 else Z.of_nat k / n in
         let x :=
           ActorBox.x1 content + leftEmptySpace + IconGrid.leftPadding g
           + column * (IconGrid._getHItemSize g + IconGrid._getSpacing g) in
         let y :=
           ActorBox.y1 content + IconGrid.topPadding g
           + row * (IconGrid._getVItemSize g + IconGrid._getSpacing g) in
         let width :=
           Z.min (IconGrid._getHItemSize g) (natural_size child).1 in
         let height :=
           Z.min (IconGrid._getVItemSize g) (natural_size child).2 in
         let x1 :=
           if text_direction_rtl then ActorBox.x2 content - (x + width)
           else x in
         placed
         = if match IconGrid._rowLimit g with
              | Some limit => JS.truthy limit && (row >=? limit)
              | None => false
              end
           then None
           else Some {| ActorBox.x1 := x1; ActorBox.y1 := y;
                        ActorBox.x2 := x1 + width;
                        ActorBox.y2 := y + height |}.
Proof.
  intros Hcase.
  set (content := get_content_box box).
  set (availWidth := ActorBox.x2 content - ActorBox.x1 content).
  destruct (_computeLayout_total g availWidth Hcase) as [[n used] E].
  pose proof (_computeLayout_columns g availWidth n used E) as Hn.
  set (g' := IconGrid.set_allocation (ActorBox.x1 box) (ActorBox.x2 box) g).
  set (leftEmptySpace :=
         match _xAlign with
         | Align_START => 0
         | Align_MIDDLE => (availWidth - used) / 2
         | Align_END => availWidth - used
         end).
  exists g',
    (IconGrid.allocate_children natural_size text_direction_rtl false g'
       content leftEmptySpace
       (ActorBox.y2 content - ActorBox.y1 content) n (IconGrid._getSpacing g')
       (IconGrid._getVisibleChildren g')
       (ActorBox.x1 content + leftEmptySpace + IconGrid.leftPadding g')
       (ActorBox.y1 content + IconGrid.topPadding g') 0 0),
    n, used.
  cbv zeta. fold content availWidth leftEmptySpace.
  split; [|split; [exact E|split]].
  - unfold IconGrid.vfunc_allocate. fold g' content availWidth.
    change (IconGrid._computeLayout g' availWidth)
      with (IconGrid._computeLayout g availWidth).
    rewrite E. reflexivity.
  - apply allocate_children_fst.
  - intros k child placed Ek.
    destruct (Z.eqb_spec n 0) as [->|Hne].
    + apply allocate_children_no_columns in Ek as [_ ->]; [|lia].
      rewrite _calculateChildBox_spec. cbv zeta.
      change (0 * (IconGrid._getVItemSize g + IconGrid._getSpacing g)) with 0.
      rewrite !Z.add_0_r. reflexivity.
    + apply (allocate_children_cells g' content leftEmptySpace _ n _
               (ActorBox.y1 content + IconGrid.topPadding g') 0) in Ek
        as [_ ->]; [|lia|lia|done|done|cbv zeta; lia |cbv zeta; lia].
      rewrite _calculateChildBox_spec, Z.add_0_l. reflexivity.
Qed.

End Allocation.

Section NavigationGeometry.
Context {Item : Type} `{GridItem Item}.
Variable parent_allocation : ActorBox.t.
Variable natural_size : Item -> Z * Z.
Variable _xAlign : Align.

Local Open Scope Z_scope.


End NavigationGeometry.

Section AllocationExamples.

Local Open Scope Z_scope.

Lemma vfunc_allocate_row_major_witness :
  exists g' cells n used,
    let box := {| ActorBox.x1 := 0; ActorBox.y1 := 0;
                  ActorBox.x2 := 400; ActorBox.y2 := 600 |} in
    let leftEmptySpace := (400 - used) / 2 in
    IconGrid.vfunc_allocate (fun b => b) box (fun _ => (200, 100)) false
      Align_MIDDLE false box Examples.grid3 = Some (g', cells)
    /\ IconGrid._computeLayout Examples.grid3 400 = Some (n, used)
    /\ map fst cells = IconGrid._getVisibleChildren Examples.grid3
    /\ forall (k : nat) child placed,
         cells !! k = Some (child, placed) ->
         let column := if n =? 0 then Z.of_nat k else Z.of_nat k mod n in
         let row := if n =? 0 then 0 else Z.of_nat k / n in
         let x := 0 + leftEmptySpace + 0 + column * (160 + 0) in
         let y := 0 + 0 + row * (160 + 0) in
         placed
         = Some {| ActorBox.x1 := x; ActorBox.y1 := y;
                   ActorBox.x2 := x + 160; ActorBox.y2 := y + 100 |}.
Proof.
  apply (vfunc_allocate_row_major (fun b => b)
           {| ActorBox.x1 := 0; ActorBox.y1 := 0;
              ActorBox.x2 := 400; ActorBox.y2 := 600 |}
           (fun _ => (200, 100)) false Align_MIDDLE
           {| ActorBox.x1 := 0; ActorBox.y1 := 0;
              ActorBox.x2 := 400; ActorBox.y2 := 600 |}
           Examples.grid3).
  left. by eexists.
Defined.

(** Three icons in a box of 400 by 600 pixels: two columns of 160 pixels,
    centred with 40 pixels on the left; the third icon starts the second
    row. *)
Example vfunc_allocate_grid3 :
  let box := {| ActorBox.x1 := 0; ActorBox.y1 := 0;
                ActorBox.x2 := 400; ActorBox.y2 := 600 |} in
  snd <$> IconGrid.vfunc_allocate (fun b => b) box (fun _ => (200, 100))
            false Align_MIDDLE false box Examples.grid3
  = Some [(Examples.icon_a,
           Some {| ActorBox.x1 := 40; ActorBox.y1 := 0;
                   ActorBox.x2 := 200; ActorBox.y2 := 100 |});
          (Examples.icon_b,
           Some {| ActorBox.x1 := 200; ActorBox.y1 := 0;
                   ActorBox.x2 := 360; ActorBox.y2 := 100 |});
          (Examples.icon_c,
           Some {| ActorBox.x1 := 40; ActorBox.y1 := 160;
                   ActorBox.x2 := 200; ActorBox.y2 := 260 |})].
Proof. vm_compute. reflexivity. Qed.


End AllocationExamples.
(** ** Spacing and icon sizes *)

Section Sizes.
Context {Item : Type}.

Local Open Scope Z_scope.

(** [_updateSpacingForSize] rewrites the fixed spacing and, when padding
    with spacing, the paddings; nothing else. *)
Lemma _updateSpacingForSize_fields (availWidth availHeight : Z)
    (g : IconGrid.state Item) :
  let g' := IconGrid._updateSpacingForSize availWidth availHeight g in
  IconGrid._fixedHItemSize g' = IconGrid._fixedHItemSize g
  /\ IconGrid._fixedVItemSize g' = IconGrid._fixedVItemSize g
  /\ IconGrid._nonIconWidth g' = IconGrid._nonIconWidth g
  /\ IconGrid._nonIconHeight g' = IconGrid._nonIconHeight g
  /\ IconGrid._hItemSize g' = IconGrid._hItemSize g
  /\ IconGrid._vItemSize g' = IconGrid._vItemSize g
  /\ IconGrid._spacing g' = IconGrid._spacing g
  /\ exists m,
       IconGrid._fixedSpacing g' = Some (Z.max (IconGrid._spacing g) m)
       /\ m <= Z.min (IconGrid._getVItemSize g) (IconGrid._getHItemSize g)
       /\ (if IconGrid._padWithSpacing g
           then IconGrid.topPadding g' = Z.max (IconGrid._spacing g) m
                /\ IconGrid.bottomPadding g' = Z.max (IconGrid._spacing g) m
                /\ IconGrid.leftPadding g' = Z.max (IconGrid._spacing g) m
                /\ IconGrid.rightPadding g' = Z.max (IconGrid._spacing g) m
           else IconGrid.topPadding g' = IconGrid.topPadding g
                /\ IconGrid.bottomPadding g' = IconGrid.bottomPadding g
                /\ IconGrid.leftPadding g' = IconGrid.leftPadding g
                /\ IconGrid.rightPadding g' = IconGrid.rightPadding g).
Proof.
  destruct g as [? ? ? ? pad ? ? ? ? ? ? ? ? ? ? ? ? ? ? ? ? ?].
  unfold IconGrid._updateSpacingForSize.
  destruct pad; simpl; (do 7 (split; [reflexivity|]));
    (eexists; split; [reflexivity|]); (split; [lia|]); done.
Qed.

(** X8.  The spacing [_updateSpacingForSize] settles on is never below the
    spacing of the style and never above the smaller item dimension, unless
    the style's own spacing is; when the grid pads with spacing and the
    style's spacing is not negative, the four paddings equal that
    spacing. *)
Theorem updateSpacingForSize_bounds (availWidth availHeight : Z)
    (g : IconGrid.state Item) :
  let g' := IconGrid._updateSpacingForSize availWidth availHeight g in
  IconGrid._spacing g <= IconGrid._getSpacing g'
  /\ IconGrid._getSpacing g'
     <= Z.max (IconGrid._spacing g)
          (Z.min (IconGrid._getVItemSize g) (IconGrid._getHItemSize g))
  /\ (IconGrid._padWithSpacing g = true -> 0 <= IconGrid._spacing g ->
      IconGrid.topPadding g' = IconGrid._getSpacing g'
      /\ IconGrid.bottomPadding g' = IconGrid._getSpacing g'
      /\ IconGrid.leftPadding g' = IconGrid._getSpacing g'
      /\ IconGrid.rightPadding g' = IconGrid._getSpacing g').
Proof.
  intros g'.
  destruct (_updateSpacingForSize_fields availWidth availHeight g)
    as (_ & _ & _ & _ & _ & _ & Es & m & Ef & Hm & Hpad).
  fold g' in Es, Ef, Hpad.
  unfold IconGrid._getSpacing at 1 2 3 4 5 6. rewrite Ef, Es.
  unfold JS.pick, JS.truthy.
  destruct (Z.eqb_spec (Z.max (IconGrid._spacing g) m) 0) as [E0|E0]; simpl.
  - split; [lia|]. split; [lia|]. intros Hp Hs. rewrite Hp in Hpad. lia.
  - split; [lia|]. split; [lia|]. intros Hp Hs. rewrite Hp in Hpad. lia.
Qed.

(** The grid a layout pass prepares. *)
Lemma layout_prepare_fields (scaleFactor availWidth availHeight : Z)
    (g : IconGrid.state Item) :
  let g0 := layout_prepare scaleFactor availWidth availHeight g in
  IconGrid._fixedHItemSize g0 = Some (IconGrid._hItemSize g)
  /\ IconGrid._fixedVItemSize g0 = Some (IconGrid._vItemSize g)
  /\ IconGrid._nonIconWidth g0
     = Z.max 0 (IconGrid._hItemSize g - scaleFactor * IconGrid.ICON_SIZE)
  /\ IconGrid._nonIconHeight g0
     = Z.max 0 (IconGrid._vItemSize g - scaleFactor * IconGrid.ICON_SIZE)
  /\ IconGrid._hItemSize g0 = IconGrid._hItemSize g
  /\ IconGrid._vItemSize g0 = IconGrid._vItemSize g
  /\ IconGrid._minColumns g0 = IconGrid._minColumns g
  /\ IconGrid._minRows g0 = IconGrid._minRows g
  /\ IconGrid._colLimit g0 = IconGrid._colLimit g
  /\ (0 <= IconGrid._spacing g -> 0 <= IconGrid._getSpacing g0).
Proof.
  destruct g as [? ? ? ? pad ? ? ? ? ? ? ? sp ? ? ? ? ? ? ? ? ?].
  unfold layout_prepare, IconGrid._updateSpacingForSize.
  destruct pad; simpl; (do 9 (split; [reflexivity|])); intros Hs;
    unfold IconGrid._getSpacing, JS.pick, JS.truthy; simpl;
    match goal with
    | |- context [Z.max sp ?m =? 0] => destruct (Z.eqb_spec (Z.max sp m) 0)
    end; simpl; lia.
Qed.

(** A quotient below [m] has its dividend below [m] times the divisor. *)
Lemma div_lt_inv (a b m : Z) : 0 < b -> a / b < m -> a < m * b.
Proof.
  intros Hb Hlt.
  pose proof (Z.div_mod a b ltac:(lia)) as Hdm.
  pose proof (Z.mod_pos_bound a b Hb) as Hm.
  nia.
Qed.

Lemma ceil_div_pos (a b : Z) : 0 < a -> 0 < b -> 1 <= JS.ceil_div a b.
Proof.
  intros Ha Hb. pose proof (ceil_div_spec a b Hb) as [_ Hle]. nia.
Qed.

(** When the minima are not met although the column limit allows them, the
    space that [adaptToSize] takes from each item is positive. *)
Lemma neededSpacePerItem_pos (g0 : IconGrid.state Item)
    (availWidth availHeight columns : Z) :
  1 <= IconGrid._minRows g0 -> 1 <= IconGrid._minColumns g0 ->
  0 <= IconGrid._getHItemSize g0 + IconGrid._getSpacing g0 ->
  0 < IconGrid._getVItemSize g0 + IconGrid._getSpacing g0 ->
  (forall c, IconGrid._colLimit g0 = Some c -> IconGrid._minColumns g0 <= c) ->
  IconGrid.columnsForWidth g0 availWidth = Some columns ->
  (columns <? IconGrid._minColumns g0)
  || (IconGrid.rowsForHeight g0 availHeight <? IconGrid._minRows g0) = true ->
  let neededWidth :=
    IconGrid.usedWidthForNColumns g0 (IconGrid._minColumns g0) - availWidth in
  let neededHeight :=
    IconGrid.usedHeightForNRows g0 (IconGrid._minRows g0) - availHeight in
  1 <= (if neededWidth >? neededHeight
        then JS.ceil_div neededWidth (IconGrid._minColumns g0)
        else JS.ceil_div neededHeight (IconGrid._minRows g0)).
Proof.
  intros Hrows Hcols Hh Hv Hlimit Ecols Hshort neededWidth neededHeight.
  assert (0 < neededWidth \/ 0 < neededHeight) as Hneed.
  { apply orb_true_iff in Hshort as [Hc|Hr].
    - left. unfold IconGrid.columnsForWidth in Ecols.
      destruct (IconGrid._computeLayout g0 availWidth) as [[n used]|] eqn:E;
        [|done].
      simpl in Ecols. injection Ecols as ->.
      apply _computeLayout_spec in E as (Hn & _ & _ & _ & _ & Hmax).
      destruct Hmax as [(c & Hc' & Hle)|Hmax].
      + specialize (Hlimit c Hc'). lia.
      + unfold neededWidth. unfold IconGrid.usedWidthForNColumns in *.
        assert (columns + 1 <= IconGrid._minColumns g0) by lia. nia.
    - right. unfold neededHeight, IconGrid.usedHeightForNRows.
      unfold IconGrid.rowsForHeight in Hr.
      apply Z.ltb_lt, div_lt_inv in Hr; [|exact Hv]. lia. }
  destruct (Z.gtb_spec neededWidth neededHeight).
  - apply ceil_div_pos; lia.
  - apply ceil_div_pos; lia.
Qed.

(** X9.  [adaptToSize] only ever shrinks the items, and never so far that
    the icons drop below [MIN_ICON_SIZE].  On a grid whose column limit, if
    any, allows the minimum number of columns, with item sizes of at least
    [MIN_ICON_SIZE] scaled pixels: the layout pass returns; the item sizes
    it fixes do not exceed the sizes of the style; and the dividend from
    which [_updateIconSizes] then computes the icon size lies between
    [MIN_ICON_SIZE] and [ICON_SIZE] times the scale factor. *)
Theorem adaptToSize_icon_size_bounds (scaleFactor availWidth availHeight : Z)
    (g : IconGrid.state Item) :
  1 <= IconGrid._minRows g -> 1 <= IconGrid._minColumns g ->
  IconGrid.MIN_ICON_SIZE * scaleFactor <= IconGrid._hItemSize g ->
  IconGrid.MIN_ICON_SIZE * scaleFactor <= IconGrid._vItemSize g ->
  0 <= IconGrid._spacing g -> 1 <= scaleFactor ->
  (forall c, IconGrid._colLimit g = Some c -> IconGrid._minColumns g <= c) ->
  exists g' m,
    IconGrid.adaptToSize_layout scaleFactor availWidth availHeight g = Some g'
    /\ (IconGrid._updateIconSizes g').1 = Some m
    /\ IconGrid.MIN_ICON_SIZE * scaleFactor <= m
       <= IconGrid.ICON_SIZE * scaleFactor
    /\ IconGrid._getHItemSize g' <= IconGrid._hItemSize g
    /\ IconGrid._getVItemSize g' <= IconGrid._vItemSize g.
Proof.
  intros Hrows Hcols HH HV Hs Hsf Hlimit.
  unfold IconGrid.MIN_ICON_SIZE, IconGrid.ICON_SIZE in *.
  destruct (adaptToSize_layout_returns scaleFactor availWidth availHeight g
              ltac:(lia) Hs) as [g' E].
  rewrite E. rewrite adaptToSize_layout_split in E.
  destruct (layout_prepare_fields scaleFactor availWidth availHeight g)
    as (EfH & EfV & EnW & EnH & EH & EV & EmC & EmR & EcL & Hsp).
  specialize (Hsp Hs).
  set (g0 := layout_prepare scaleFactor availWidth availHeight g) in *.
  unfold IconGrid.ICON_SIZE in EnW, EnH.
  assert (IconGrid._getHItemSize g0 = IconGrid._hItemSize g) as EgH.
  { unfold IconGrid._getHItemSize, JS.pick. rewrite EfH, EH.
    by destruct (JS.truthy _). }
  assert (IconGrid._getVItemSize g0 = IconGrid._vItemSize g) as EgV.
  { unfold IconGrid._getVItemSize, JS.pick. rewrite EfV, EV.
    by destruct (JS.truthy _). }
  clearbody g0. unfold layout_finish in E.
  destruct (IconGrid.columnsForWidth g0 availWidth) as [columns|] eqn:Ecols;
    [|done].
  change (Some columns ≫= ?f) with (f columns) in E. cbv beta in E.
  destruct ((columns <? IconGrid._minColumns g0)
            || (IconGrid.rowsForHeight g0 availHeight
                <? IconGrid._minRows g0)) eqn:Hshort.
  - (* the minima are not met: the items shrink *)
    pose proof (neededSpacePerItem_pos g0 availWidth availHeight columns
                  ltac:(lia) ltac:(lia) ltac:(lia) ltac:(lia)
                  ltac:(intros c Hc; rewrite EmC; apply Hlimit;
                        by rewrite <- EcL)
                  Ecols Hshort) as Hneeded.
    cbv zeta in Hneeded.
    match type of Hneeded with 1 <= ?n => set (needed := n) in * end.
    injection E as <-.
    match goal with
    | |- context [IconGrid._updateSpacingForSize _ _ ?g1] =>
        destruct (_updateSpacingForSize_fields availWidth availHeight g1)
          as (EfH' & EfV' & EnW' & EnH' & EH' & EV' & _)
    end.
    cbv zeta in EfH', EfV', EnW', EnH', EH', EV'.
    simpl in EfH', EfV', EnW', EnH', EH', EV'.
    eexists _, _. split; [reflexivity|].
    unfold IconGrid._updateIconSizes, IconGrid._getHItemSize,
      IconGrid._getVItemSize.
    rewrite EfH', EfV', EnW', EnH', EH', EV', EH, EV, EnW, EnH. simpl.
    split; [reflexivity|].
    unfold JS.pick, JS.truthy.
    repeat match goal with
           | |- context [?a =? 0] => destruct (Z.eqb_spec a 0)
           end; simpl; unfold IconGrid.MIN_ICON_SIZE in *; clearbody needed;
      lia.
  - (* the minima are met: the style's sizes stay *)
    injection E as <-.
    eexists _, _. split; [reflexivity|].
    unfold IconGrid._updateIconSizes. rewrite EfH, EfV, EnW, EnH, EgH, EgV.
    simpl. split; [reflexivity|]. lia.
Qed.

End Sizes.

Section IconSizesLater.
Context {Item Widget : Type}.

Local Open Scope Z_scope.

(** A layout pass leaves [_updateIconSizesLaterId] alone. *)
Lemma adaptToSize_layout_laterId (scaleFactor availWidth availHeight : Z)
    (g g' : IconGrid.state Item) :
  IconGrid.adaptToSize_layout scaleFactor availWidth availHeight g = Some g' ->
  IconGrid._updateIconSizesLaterId g' = IconGrid._updateIconSizesLaterId g.
Proof.
  rewrite adaptToSize_layout_split. intros E.
  apply layout_finish_same_inputs in E as [_ ->].
  apply layout_prepare_laterId.
Qed.

(** X10.  Destroying the grid cancels exactly the later that [adaptToSize]
    registered.  On a grid with no later of its own pending, [adaptToSize]
    registers [_updateIconSizes] under a fresh id, which the grid keeps;
    [_onDestroy] then clears the id and leaves the table of pending laters
    as it was before [adaptToSize]. *)
Theorem onDestroy_cancels_updateIconSizes
    (scaleFactor availWidth availHeight : Z) (g : IconGrid.state Item)
    (laters : Laters Widget) :
  0 < IconGrid._hItemSize g -> 0 <= IconGrid._spacing g ->
  IconGrid._updateIconSizesLaterId g = 0%N ->
  Forall (fun p => (p.1 <= last_later_id laters)%N) (pending laters) ->
  exists g1 laters1,
    IconGrid.adaptToSize scaleFactor availWidth availHeight (g, laters)
    = Some (g1, laters1)
    /\ IconGrid._updateIconSizesLaterId g1 <> 0%N
    /\ pending laters1
       = pending laters
         ++ [(IconGrid._updateIconSizesLaterId g1, UpdateIconSizes)]
    /\ IconGrid._updateIconSizesLaterId
         (IconGrid._onDestroy (g1, laters1)).1 = 0%N
    /\ pending (IconGrid._onDestroy (g1, laters1)).2 = pending laters.
Proof.
  intros Hh Hs Hid Hpending.
  destruct (adaptToSize_layout_returns scaleFactor availWidth availHeight g
              Hh Hs) as [g' E].
  pose proof (adaptToSize_layout_laterId _ _ _ _ _ E) as Hid'.
  rewrite Hid in Hid'.
  unfold IconGrid.adaptToSize. rewrite E. simpl. rewrite Hid'. simpl.
  eexists _, _. split; [reflexivity|]. simpl.
  split; [lia|]. split; [reflexivity|].
  destruct (N.eqb_spec (N.succ (last_later_id laters)) 0) as [|_]; [lia|].
  simpl. split; [reflexivity|].
  rewrite List.filter_app. simpl. rewrite N.eqb_refl. simpl.
  rewrite app_nil_r.
  induction Hpending as [|p l Hp _ IH]; [done|]. simpl.
  destruct (N.eqb_spec p.1 (N.succ (last_later_id laters))); [lia|].
  simpl. by rewrite IH.
Qed.

End IconSizesLater.

Section SizesExamples.

Local Open Scope Z_scope.

Lemma adaptToSize_icon_size_bounds_witness :
  exists g' m,
    IconGrid.adaptToSize_layout 1 800 600 Examples.grid3 = Some g'
    /\ (IconGrid._updateIconSizes g').1 = Some m
    /\ IconGrid.MIN_ICON_SIZE * 1 <= m <= IconGrid.ICON_SIZE * 1
    /\ IconGrid._getHItemSize g' <= IconGrid._hItemSize Examples.grid3
    /\ IconGrid._getVItemSize g' <= IconGrid._vItemSize Examples.grid3.
Proof.
  apply (adaptToSize_icon_size_bounds 1 800 600 Examples.grid3);
    try (vm_compute; discriminate).
  intros c [= <-]. vm_compute. discriminate.
Defined.

Lemma onDestroy_cancels_updateIconSizes_witness :
  exists g1 laters1,
    IconGrid.adaptToSize 1 800 600 (Examples.grid3, Examples.no_laters)
    = Some (g1, laters1)
    /\ IconGrid._updateIconSizesLaterId g1 <> 0%N
    /\ pending laters1
       = pending Examples.no_laters
         ++ [(IconGrid._updateIconSizesLaterId g1, UpdateIconSizes)]
    /\ IconGrid._updateIconSizesLaterId
         (IconGrid._onDestroy (g1, laters1)).1 = 0%N
    /\ pending (IconGrid._onDestroy (g1, laters1)).2
       = pending Examples.no_laters.
Proof.
  apply (onDestroy_cancels_updateIconSizes 1 800 600 Examples.grid3
           Examples.no_laters).
  - vm_compute. reflexivity.
  - vm_compute. discriminate.
  - reflexivity.
  - constructor.
Defined.

(** In 800 by 600 pixels the icons of [grid3] shrink from 160 to 150
    pixels.  A column limit below the minimum number of columns breaks the
    bound: with at most 2 columns where 3 are required, in 10000 by 10000
    pixels the pass "shrinks" the items from 160 to 3226 pixels. *)
Example updateIconSizes_grid3 :
  (fun g' => (IconGrid._updateIconSizes g').1)
  <$> IconGrid.adaptToSize_layout 1 800 600 Examples.grid3
  = Some (Some 150)
  /\ IconGrid._getHItemSize
     <$> IconGrid.adaptToSize_layout 1 10000 10000
           (IconGrid.init None (Some 2) 1 3 false
              : IconGrid.state AppIcon.t)
     = Some 3226.
Proof. split; vm_compute; reflexivity. Qed.

End SizesExamples.
(** ** The backend's list of apps *)

Section ObjectFacts.
Context {V : Type}.

Lemma JSObject_set_keys (k : string) (v : V) (o : JSObject.t V) :
  JSObject.keys (JSObject.set k v o)
  = if bool_decide (k ∈ JSObject.keys o) then JSObject.keys o
    else JSObject.keys o ++ [k].
Proof.
  induction o as [|[k' v'] o IH]; simpl; [done|].
  destruct (decide (k' = k)) as [->|Hne]; simpl.
  - rewrite bool_decide_eq_true_2 by apply list_elem_of_here. done.
  - rewrite IH. destruct (bool_decide_reflect (k ∈ JSObject.keys o)) as [Hin|Hin].
    + rewrite bool_decide_eq_true_2 by (by apply list_elem_of_further). done.
    + rewrite bool_decide_eq_false_2; [done|].
      intros [?|?]%elem_of_cons; [by subst|done].
Qed.

Lemma JSObject_set_values (k : string) (v v0 : V) (o : JSObject.t V) :
  v0 ∈ JSObject.values (JSObject.set k v o) ->
  v0 = v \/ v0 ∈ JSObject.values o.
Proof.
  induction o as [|[k' v'] o IH]; simpl.
  - intros ?%list_elem_of_singleton. by left.
  - destruct (decide (k' = k)) as [->|Hne]; simpl.
    + intros [->|?]%elem_of_cons; [by left|right].
      by apply list_elem_of_further.
    + intros [->|Hin]%elem_of_cons; [right; apply list_elem_of_here|].
      destruct (IH Hin); [by left|right]. by apply list_elem_of_further.
Qed.

Lemma JSObject_set_entries (k : string) (v : V) (o : JSObject.t V)
    (P : string * V -> Prop) :
  P (k, v) -> Forall P o -> Forall P (JSObject.set k v o).
Proof.
  intros Hkv. induction 1 as [|[k' v'] o Hhd Htl IH]; simpl.
  - by constructor.
  - destruct (decide (k' = k)); by constructor.
Qed.

End ObjectFacts.

Section SortedInput.
Context {A : Type} (comparefn : A -> A -> Z).

Local Open Scope Z_scope.

(** On an array that is in order already the engine's sort moves
    nothing. *)
Lemma sort_fold_sorted_id (l acc : list A) :
  StronglySorted (sort_le comparefn) (rev acc ++ l) ->
  foldl (fun prefix_rev item => JSSort.insert comparefn item prefix_rev) acc l
  = rev l ++ acc.
Proof.
  revert acc. induction l as [|x l IH]; intros acc Hsorted; [done|].
  simpl.
  assert (JSSort.insert comparefn x acc = x :: acc) as ->.
  { destruct acc as [|swap rest]; [done|]. simpl.
    assert (sort_le comparefn swap x) as Hle.
    { apply (StronglySorted_app_1_elem_of _ _ _ _ _ Hsorted).
      - simpl. apply elem_of_app. right. by apply list_elem_of_singleton.
      - apply list_elem_of_here. }
    unfold sort_le in Hle. by destruct (Z.gtb_spec (comparefn swap x) 0); [lia|]. }
  rewrite IH.
  - by rewrite <- app_assoc.
  - simpl. by rewrite <- app_assoc.
Qed.

Lemma sort_of_sorted (l : list A) :
  StronglySorted (sort_le comparefn) l -> JSSort.sort comparefn l = l.
Proof.
  intros Hsorted. unfold JSSort.sort.
  rewrite sort_fold_sorted_id by done.
  by rewrite app_nil_r, rev_involutive.
Qed.

End SortedInput.

Section AllApps.

Local Open Scope Z_scope.

(** The comparator of [getAllApps] is the strict part of a total preorder,
    seen as numbers. *)
Lemma getAllApps_comparefn_asym (x y : App.t) :
  0 < JSSort.of_bool AppBackend.getAllApps_comparefn x y ->
  sort_le (JSSort.of_bool AppBackend.getAllApps_comparefn) y x.
Proof.
  unfold sort_le, JSSort.of_bool, AppBackend.getAllApps_comparefn.
  destruct (JSString.gt _ _) eqn:E; simpl; [intros _|lia].
  by rewrite (JSString_gt_asym _ _ E).
Qed.

Lemma getAllApps_comparefn_trans (x y z : App.t) :
  sort_le (JSSort.of_bool AppBackend.getAllApps_comparefn) x y ->
  sort_le (JSSort.of_bool AppBackend.getAllApps_comparefn) y z ->
  sort_le (JSSort.of_bool AppBackend.getAllApps_comparefn) x z.
Proof.
  unfold sort_le, JSSort.of_bool, AppBackend.getAllApps_comparefn.
  destruct (JSString.gt _ (JSString.toLowerCase (App.get_name y))) eqn:E1;
    simpl; [lia|intros _].
  destruct (JSString.gt _ (JSString.toLowerCase (App.get_name z))) eqn:E2;
    simpl; [lia|intros _].
  by rewrite (JSString_le_trans _ _ _ E1 E2).
Qed.

Lemma sort_le_app_name_le (x y : App.t) :
  sort_le (JSSort.of_bool AppBackend.getAllApps_comparefn) x y ->
  app_name_le x y.
Proof.
  unfold sort_le, JSSort.of_bool, app_name_le.
  destruct (AppBackend.getAllApps_comparefn x y); simpl; [lia|done].
Qed.

(** The object [_allApps] collects the apps in: its keys are pairwise
    distinct and are the ids of the apps seen so far, and every entry is an
    app seen so far, stored under its id. *)
Lemma unique_fold (apps : list App.t) (unique : JSObject.t App.t) :
  let unique' :=
    foldl (fun unique app => JSObject.set (App.get_id app) app unique)
      unique apps in
  NoDup (JSObject.keys unique) ->
  Forall (fun kv => kv.1 = App.get_id kv.2) unique ->
  NoDup (JSObject.keys unique')
  /\ Forall (fun kv => kv.1 = App.get_id kv.2) unique'
  /\ (forall a, a ∈ JSObject.values unique' ->
                a ∈ apps \/ a ∈ JSObject.values unique)
  /\ (forall k, k ∈ JSObject.keys unique' <->
                k ∈ map App.get_id apps \/ k ∈ JSObject.keys unique).
Proof.
  revert unique. induction apps as [|app apps IH]; intros unique; simpl.
  - intros Hnd Hall. split; [done|]. split; [done|]. split; [by right|].
    intros k. split; [by right|]. intros [Hin|?]; [|done].
    by apply elem_of_nil in Hin.
  - intros Hnd Hall.
    destruct (IH (JSObject.set (App.get_id app) app unique))
      as (Hnd' & Hall' & Hval & Hkey).
    + rewrite JSObject_set_keys.
      destruct (bool_decide_reflect
                  (App.get_id app ∈ JSObject.keys unique)) as [Hin|Hin];
        [done|].
      apply NoDup_app. split; [done|]. split; [|apply NoDup_singleton].
      intros k Hk ->%list_elem_of_singleton. done.
    + by apply JSObject_set_entries.
    + split; [exact Hnd'|]. split; [exact Hall'|]. split.
      * intros a Ha. destruct (Hval a Ha) as [?|Hin];
          [left; by apply list_elem_of_further|].
        apply JSObject_set_values in Hin as [->|?];
          [left; apply list_elem_of_here|by right].
      * intros k. rewrite Hkey, JSObject_set_keys, elem_of_cons.
        destruct (bool_decide_reflect
                    (App.get_id app ∈ JSObject.keys unique)) as [Hin|Hin].
        -- split; [tauto|]. intros [[->|?]|?]; tauto.
        -- rewrite elem_of_app, list_elem_of_singleton. tauto.
Qed.

Lemma values_ids (o : JSObject.t App.t) :
  Forall (fun kv => kv.1 = App.get_id kv.2) o ->
  map App.get_id (JSObject.values o) = JSObject.keys o.
Proof.
  unfold JSObject.values, JSObject.keys.
  induction 1 as [|[k v] o Hhd Htl IH]; simpl in *; [done|].
  by rewrite IH, Hhd.
Qed.

(** X11.  [getAllApps] lists every app id once.  While nothing is cached,
    the apps it returns have pairwise distinct ids, each of them is an app
    of some category, and every app of every category is represented by an
    app with its id. *)
Theorem getAllApps_unique_ids (b : AppBackend.state) :
  AppBackend._allAppsCache b = None ->
  let apps := concat (JSObject.values (AppBackend._appsByCategory b)) in
  let all := (AppBackend.getAllApps b).1 in
  NoDup (map App.get_id all)
  /\ (forall a, a ∈ all -> a ∈ apps)
  /\ (forall a, a ∈ apps -> App.get_id a ∈ map App.get_id all).
Proof.
  intros Hcache apps all.
  destruct (unique_fold apps []) as (Hnd & Hall & Hval & Hkey);
    [apply NoDup_nil_2 | constructor |].
  cbv zeta in Hnd, Hall, Hval, Hkey.
  assert (all
          ≡ₚ JSObject.values
               (foldl (fun unique app =>
                         JSObject.set (App.get_id app) app unique) [] apps))
    as Hperm.
  { unfold all, AppBackend.getAllApps, AppBackend._allApps.
    rewrite Hcache. simpl. apply sort_perm. }
  split; [|split].
  - rewrite Hperm, values_ids by done. exact Hnd.
  - intros a Ha. rewrite Hperm in Ha.
    destruct (Hval a Ha) as [?|Hin]; [done|]. by apply elem_of_nil in Hin.
  - intros a Ha. rewrite Hperm, values_ids by done.
    apply Hkey. left. by apply list_elem_of_fmap_2.
Qed.

Lemma getAllApps_unique_ids_witness :
  let apps :=
    concat (JSObject.values
              (AppBackend._appsByCategory Examples.scenario_A_backend)) in
  let all := (AppBackend.getAllApps Examples.scenario_A_backend).1 in
  NoDup (map App.get_id all)
  /\ (forall a, a ∈ all -> a ∈ apps)
  /\ (forall a, a ∈ apps -> App.get_id a ∈ map App.get_id all).
Proof.
  apply (getAllApps_unique_ids Examples.scenario_A_backend). reflexivity.
Defined.

(** Scenario A: eight entries in two categories, [d] in both; seven apps,
    in alphabetical order. *)
Example getAllApps_scenario_A :
  map App.get_id (AppBackend.getAllApps Examples.scenario_A_backend).1
  = ["a"; "b"; "c"; "d"; "e"; "f"; "g"]%string.
Proof. reflexivity. Qed.

(** X12.  [getAllApps] sorts the cache itself, and a second call changes
    nothing: it returns the same list and leaves the same backend, and
    [_allApps] now returns the sorted list too. *)
Theorem getAllApps_idempotent (b : AppBackend.state) :
  AppBackend.getAllApps (AppBackend.getAllApps b).2 = AppBackend.getAllApps b
  /\ AppBackend._allApps (AppBackend.getAllApps b).2
     = AppBackend.getAllApps b.
Proof.
  unfold AppBackend.getAllApps at 2 3 4 5.
  destruct (AppBackend._allApps b) as [apps b']. simpl.
  split; [|reflexivity].
  unfold AppBackend.getAllApps, AppBackend._allApps. simpl.
  rewrite sort_of_sorted; [reflexivity|].
  apply sort_sorted;
    [apply getAllApps_comparefn_asym | apply getAllApps_comparefn_trans].
Qed.

(** X13.  [getAppsByCategory] for a category other than ["all_apps"]:
    when the backend has the category, the result is that category's apps
    put in alphabetical order of their lower-cased names, and the backend
    stays as it is (the category's own array and the cache are not
    touched); when it has no such category, the call throws.  The names are
    taken to be ASCII, where the order of the embedding is that of the
    code. *)
Theorem getAppsByCategory_sorted_copy (category : string)
    (b : AppBackend.state) :
  category <> "all_apps"%string -> category <> ""%string ->
  (forall apps,
     JSObject.get category (AppBackend._appsByCategory b) = Some apps ->
     ascii_names apps = true) ->
  match JSObject.get category (AppBackend._appsByCategory b) with
  | Some apps =>
      exists sorted,
        AppBackend.getAppsByCategory (Some category) b = Returns (sorted, b)
        /\ sorted ≡ₚ apps
        /\ StronglySorted app_name_le sorted
  | None =>
      exists error,
        AppBackend.getAppsByCategory (Some category) b
        = Throws error ([], b)
  end.
Proof.
  intros Hall Hempty _. unfold AppBackend.getAppsByCategory.
  rewrite bool_decide_eq_false_2 by done.
  assert (JSString.nonempty category = true) as ->
    by (by destruct category).
  destruct (JSObject.get category (AppBackend._appsByCategory b))
    as [apps|]; [|by eexists].
  eexists. split; [reflexivity|]. split; [apply sort_perm|].
  apply (StronglySorted_mono
           (sort_le (JSSort.of_bool AppBackend.getAllApps_comparefn)));
    [apply sort_le_app_name_le|].
  apply sort_sorted;
    [apply getAllApps_comparefn_asym | apply getAllApps_comparefn_trans].
Qed.

Lemma getAppsByCategory_sorted_copy_witness :
  exists sorted,
    AppBackend.getAppsByCategory (Some "Games"%string)
      Examples.scenario_A_backend
    = Returns (sorted, Examples.scenario_A_backend)
    /\ sorted
       ≡ₚ [Examples.app "f" "f"; Examples.app "b" "b"; Examples.app "e" "e";
           Examples.app "c" "c"; Examples.app "d" "d"]
    /\ StronglySorted app_name_le sorted.
Proof.
  apply (getAppsByCategory_sorted_copy "Games" Examples.scenario_A_backend);
    [discriminate|discriminate|].
  intros apps [= <-]. reflexivity.
Defined.

(** The other arguments: ["all_apps"] is [getAllApps]; no category, or the
    empty one, gives no apps; an unknown category throws. *)
Example getAppsByCategory_edges :
  AppBackend.getAppsByCategory (Some "all_apps"%string)
    Examples.scenario_A_backend
  = Returns (AppBackend.getAllApps Examples.scenario_A_backend)
  /\ AppBackend.getAppsByCategory None Examples.scenario_A_backend
     = Returns ([], Examples.scenario_A_backend)
  /\ AppBackend.getAppsByCategory (Some ""%string) Examples.scenario_A_backend
     = Returns ([], Examples.scenario_A_backend)
  /\ AppBackend.getAppsByCategory (Some "Office"%string)
       Examples.scenario_A_backend
     = Throws "TypeError" ([], Examples.scenario_A_backend).
Proof. repeat split. Qed.

End AllApps.
(** ** No app is lost or shown twice *)

Section Partition.
Context {A : Type}.

(** Three filters that split a list: every element passes exactly one. *)
Lemma filter_partition3 (p1 p2 p3 : A -> bool) (l : list A) :
  (forall x, x ∈ l ->
     (p1 x = true /\ p2 x = false /\ p3 x = false)
     \/ (p1 x = false /\ p2 x = true /\ p3 x = false)
     \/ (p1 x = false /\ p2 x = false /\ p3 x = true)) ->
  List.filter p1 l ++ List.filter p2 l ++ List.filter p3 l ≡ₚ l.
Proof.
  induction l as [|x l IH]; intros Hone; [done|].
  specialize (IH (fun y Hy => Hone y (list_elem_of_further _ _ _ Hy))).
  simpl.
  destruct (Hone x (list_elem_of_here _ _))
    as [(-> & -> & ->)|[(-> & -> & ->)|(-> & -> & ->)]]; simpl.
  - by rewrite IH.
  - rewrite <- Permutation_middle. by rewrite IH.
  - rewrite app_assoc, <- Permutation_middle, <- app_assoc. by rewrite IH.
Qed.

Lemma elem_of_filter_bool (p : A -> bool) (l : list A) (x : A) :
  x ∈ List.filter p l <-> x ∈ l /\ p x = true.
Proof. rewrite !list_elem_of_In. apply filter_In. Qed.

Lemma find_Some_elem_of (p : A -> bool) (l : list A) (x : A) :
  List.find p l = Some x -> x ∈ l /\ p x = true.
Proof. intros E. apply find_some in E. by rewrite list_elem_of_In. Qed.

Lemma find_is_Some (p : A -> bool) (l : list A) (x : A) :
  x ∈ l -> p x = true -> is_Some (List.find p l).
Proof.
  intros Hin Hp. destruct (List.find p l) eqn:E; [by eexists|].
  apply list_elem_of_In in Hin.
  pose proof (find_none _ _ E x Hin). congruence.
Qed.

End Partition.

Section LowerCase.

(** A string that starts with a lower-case prefix still does once it is
    lower-cased. *)
Lemma prefix_toLowerCase (p s : string) :
  JSString.toLowerCase p = p ->
  String.prefix p s = true ->
  String.prefix p (JSString.toLowerCase s) = true.
Proof.
  revert s. induction p as [|a p IH]; intros s Hp;
    [by destruct (JSString.toLowerCase s)|].
  destruct s as [|b s]; [done|]. simpl in *.
  injection Hp as Ha Hp.
  destruct (Ascii.ascii_dec a b) as [<-|]; [|done].
  rewrite Ha. destruct (Ascii.ascii_dec a a); [|done]. by apply IH.
Qed.

End LowerCase.

Section LoadAppsPermutation.
Variable localeCompare : string -> string -> Z.

Local Open Scope Z_scope.

Local Abbreviation lower_id icon :=
  (JSString.toLowerCase (AppIcon.getId icon)).

(** The icons [_loadApps] creates for apps without a window id: each keeps
    its app's id, and the id under which it counts as running is that id
    lower-cased. *)
Lemma new_icons_ids (apps : list App.t) (ref : nat) (icon : AppIcon.t) :
  (forall app, app ∈ apps ->
     JSString.startsWith (JSString.toLowerCase (App.get_id app)) "window:"
     = false) ->
  icon ∈ AppView.new_icons ref apps ->
  getRunningAppId (AppIcon.app icon) = Some (lower_id icon).
Proof.
  intros Hwin. revert ref.
  induction apps as [|app apps IH]; intros ref; simpl;
    [by intros ?%elem_of_nil|].
  intros [->|Hin]%elem_of_cons.
  - pose proof (Hwin app (list_elem_of_here _ _)) as Hw.
    unfold getRunningAppId, AppIcon.new, AppIcon.getId. simpl.
    rewrite Hw.
    destruct (JSString.startsWith (App.get_id app) "window:") eqn:E; [|done].
    unfold JSString.startsWith in *.
    by rewrite (prefix_toLowerCase "window:" _ eq_refl E) in Hw.
  - apply (IH (fun a Ha => Hwin a (list_elem_of_further _ _ _ Ha)) _ Hin).
Qed.

Lemma new_icons_lower_ids (apps : list App.t) (ref : nat) :
  (forall app, app ∈ apps ->
     JSString.startsWith (JSString.toLowerCase (App.get_id app)) "window:"
     = false) ->
  map (fun icon => lower_id icon) (AppView.new_icons ref apps)
  = map (fun app => JSString.toLowerCase (App.get_id app)) apps.
Proof.
  intros Hwin. revert ref.
  induction apps as [|app apps IH]; intros ref; simpl; [done|].
  rewrite (IH (fun a Ha => Hwin a (list_elem_of_further _ _ _ Ha))).
  f_equal.
  pose proof (Hwin app (list_elem_of_here _ _)) as Hw.
  unfold AppIcon.new, AppIcon.getId. simpl.
  destruct (JSString.startsWith (App.get_id app) "window:") eqn:E; [|done].
  unfold JSString.startsWith in *.
  by rewrite (prefix_toLowerCase "window:" _ eq_refl E) in Hw.
Qed.

(** With distinct lower-cased ids on both sides, the favorite icons are
    the icons whose id is a favorite, each once. *)
Lemma favIcons_of_perm (favoriteAppIds : list string)
    (icons : list AppIcon.t) :
  NoDup (map (fun icon => lower_id icon) icons) ->
  NoDup favoriteAppIds ->
  AppView.favIcons_of favoriteAppIds icons
  ≡ₚ List.filter (fun icon => JS.includes (lower_id icon) favoriteAppIds)
       icons.
Proof.
  intros Hicons Hfav.
  assert (forall x y, x ∈ icons -> y ∈ icons -> lower_id x = lower_id y ->
                      x = y) as Hinj.
  { clear Hfav. induction icons as [|i icons IH]; intros x y;
      [by intros ?%elem_of_nil|].
    simpl in Hicons. apply NoDup_cons in Hicons as [Hni Hnd].
    intros [->|Hx]%elem_of_cons [->|Hy]%elem_of_cons E; [done| | |by apply IH].
    - exfalso. apply Hni. rewrite E.
      by apply list_elem_of_In, (in_map (fun icon => lower_id icon)),
        list_elem_of_In.
    - exfalso. apply Hni. rewrite <- E.
      by apply list_elem_of_In, (in_map (fun icon => lower_id icon)),
        list_elem_of_In. }
  apply NoDup_Permutation.
  - unfold AppView.favIcons_of. clear Hicons.
    induction Hfav as [|id ids Hid Hnd IH]; simpl; [apply NoDup_nil_2|].
    destruct (AppView.find _ icons) as [icon|] eqn:E; [|exact IH].
    apply NoDup_cons. split; [|exact IH].
    intros (id' & Hid' & E')%list_elem_of_omap.
    apply find_Some_elem_of in E as [_ E]. apply find_Some_elem_of in E' as [_ E'].
    apply bool_decide_eq_true in E, E'. congruence.
  - apply NoDup_ListNoDup, List.NoDup_filter, NoDup_ListNoDup.
    by apply (NoDup_fmap_1 (fun icon => lower_id icon)).
  - intros icon. unfold AppView.favIcons_of.
    rewrite list_elem_of_omap, elem_of_filter_bool. unfold JS.includes.
    split.
    + intros (id & Hid & E). apply find_Some_elem_of in E as [Hin E].
      apply bool_decide_eq_true in E. subst id.
      split; [done|]. by apply bool_decide_eq_true.
    + intros [Hin Hfavorite]. apply bool_decide_eq_true in Hfavorite.
      exists (lower_id icon). split; [done|].
      destruct (find_is_Some
                  (fun i => bool_decide (lower_id i = lower_id icon))
                  icons icon Hin) as [icon' E];
        [by apply bool_decide_eq_true|].
      unfold AppView.find. rewrite E. f_equal.
      apply find_Some_elem_of in E as [Hin' E].
      apply bool_decide_eq_true in E. by apply Hinj.
Qed.

(** X14.  [_loadApps] neither loses an app nor shows one twice.  When no
    app has a window id, the lower-cased ids of the backend's apps are
    pairwise distinct and so are the lower-cased ids of the favorites, the
    icons returned are a rearrangement of the icons created, one for each
    app of the backend.  All ids are taken to be ASCII, where the case map
    of the embedding is that of the code. *)
Theorem loadApps_keeps_every_app (backendApps : list App.t)
    (env : AppView.Env) :
  ascii_ids backendApps = true -> ascii_session env = true ->
  (forall app, app ∈ backendApps ->
     JSString.startsWith (JSString.toLowerCase (App.get_id app)) "window:"
     = false) ->
  NoDup (map (fun app => JSString.toLowerCase (App.get_id app)) backendApps) ->
  NoDup (AppView.favoriteAppIds_of (AppView.favorites env)) ->
  AppView._loadApps_from localeCompare backendApps env
  ≡ₚ AppView.new_icons (AppView.next_ref env) backendApps.
Proof.
  intros _ _ Hwin Hids Hfav. unfold AppView._loadApps_from.
  set (icons := AppView.new_icons (AppView.next_ref env) backendApps).
  set (runningAppIds := AppView.runningAppIds_of (AppView.window_apps env)).
  set (favoriteAppIds := AppView.favoriteAppIds_of (AppView.favorites env))
    in *.
  rewrite !concat_if_nonempty, app_nil_l, <- app_assoc.
  rewrite sort_perm, favIcons_of_perm; [| |done].
  - apply filter_partition3. intros icon Hin.
    unfold AppView.is_runningIcon, AppView.is_otherIcon.
    rewrite (new_icons_ids _ _ _ Hwin Hin).
    destruct (JS.includes (lower_id icon) favoriteAppIds),
      (JS.includes (lower_id icon) runningAppIds); simpl; tauto.
  - unfold icons. by rewrite new_icons_lower_ids.
Qed.

End LoadAppsPermutation.

Section LoadAppsPermutationExamples.

Lemma loadApps_keeps_every_app_witness :
  AppView._loadApps_from Examples.localeCompare
    (AppBackend.getAllApps Examples.scenario_A_backend).1 Examples.scenario_A
  ≡ₚ AppView.new_icons (AppView.next_ref Examples.scenario_A)
       (AppBackend.getAllApps Examples.scenario_A_backend).1.
Proof.
  apply (loadApps_keeps_every_app Examples.localeCompare
           (AppBackend.getAllApps Examples.scenario_A_backend).1
           Examples.scenario_A).
  - reflexivity.
  - reflexivity.
  - apply Forall_forall. vm_compute. repeat constructor.
  - apply (bool_decide_unpack
             (NoDup (map (fun app => JSString.toLowerCase (App.get_id app))
                       (AppBackend.getAllApps
                          Examples.scenario_A_backend).1))).
    vm_compute. exact I.
  - apply (bool_decide_unpack
             (NoDup (AppView.favoriteAppIds_of
                       (AppView.favorites Examples.scenario_A)))).
    vm_compute. exact I.
Defined.

(** The hypothesis on window ids is needed.  An app with a window id whose
    desktop-file lookup throws is neither running (its running id is
    [null]) nor other (its own id is among the running ones): it gets no
    icon.  One whose desktop-file id is blank is running under its window
    id and other under its desktop-file id: it is shown twice. *)
Example loadApps_window_ids :
  let window_app desktopId :=
    {| App.get_id := "window:1"; App.get_name := "w";
       App.desktop_file_id := desktopId |} in
  let shown desktopId :=
    map AppIcon.id
      (AppView._loadApps_from Examples.localeCompare
         [window_app desktopId; Examples.app "b" "b"]
         {| AppView.appBackend := None; AppView.new_AppBackend := None;
            AppView.window_apps := [Some (window_app desktopId)];
            AppView.favorites := [];
            AppView.next_ref := 0 |}) in
  shown None = ["b"]%string
  /\ shown (Some " "%string) = [" "; "b"; " "]%string
  /\ shown (Some ""%string) = ["window:1"; "b"]%string.
Proof. repeat split; reflexivity. Qed.

(** Favorites that differ in case only break it: the one icon they both
    match is shown twice. *)
Example loadApps_duplicate_favorite :
  map AppIcon.id
    (AppView._loadApps_from Examples.localeCompare
       [Examples.app "a" "a"; Examples.app "b" "b"]
       {| AppView.appBackend := None; AppView.new_AppBackend := None;
          AppView.window_apps := [];
          AppView.favorites :=
            [("a", Examples.app "a" "a"); ("A", Examples.app "a" "a")];
          AppView.next_ref := 0 |})
  = ["a"; "a"; "b"]%string.
Proof. reflexivity. Qed.

End LoadAppsPermutationExamples.
(** ** The order of the grid, from what the backend and the session hold *)

Section LoadAppsGroups.

Local Open Scope Z_scope.

Local Abbreviation lower_id icon :=
  (JSString.toLowerCase (AppIcon.getId icon)).






End LoadAppsGroups.
(** ** The view's three records of its icons stay in step *)

Section FilterFacts2.
Context {A : Type}.

Lemma filter_all (p : A -> bool) (l : list A) :
  (forall x, x ∈ l -> p x = true) -> List.filter p l = l.
Proof.
  induction l as [|x l IH]; intros Hall; [done|]. simpl.
  rewrite (Hall x (list_elem_of_here _ _)).
  by rewrite (IH (fun y Hy => Hall y (list_elem_of_further _ _ _ Hy))).
Qed.

Lemma filter_filter_bool (p q : A -> bool) (l : list A) :
  List.filter p (List.filter q l) = List.filter (fun x => q x && p x) l.
Proof.
  induction l as [|x l IH]; [done|]. simpl.
  destruct (q x); simpl; [destruct (p x)|]; by rewrite IH.
Qed.

Lemma filter_ext_elem_of (p q : A -> bool) (l : list A) :
  (forall x, x ∈ l -> p x = q x) -> List.filter p l = List.filter q l.
Proof.
  intros Hext. apply filter_ext_in. intros x Hx. apply Hext.
  by apply list_elem_of_In.
Qed.

End FilterFacts2.

Section RedisplayRecords.

Local Open Scope Z_scope.

(** Where the index is not negative and the actor has no parent yet,
    Clutter's insertion and the array's [splice] put the element at the same
    place. *)
Lemma insert_child_at_index_splice {Item : Type} `{GridItem Item}
    (kids : list Item) (child : Item) (index : Z) :
  0 <= index -> child ∉ kids ->
  IconGrid.insert_child_at_index kids child index
  = JS.splice_insert kids index child.
Proof.
  intros Hi Hnew. unfold IconGrid.insert_child_at_index, JS.splice_insert,
    JS.splice_start.
  rewrite bool_decide_eq_false_2 by done.
  destruct (Z.ltb_spec index 0); [lia|]. simpl.
  destruct (Z.ltb_spec (Z.of_nat (length kids)) index).
  - rewrite Z.min_r, Nat2Z.id by lia.
    by rewrite firstn_all, drop_all.
  - by rewrite Z.min_l by lia.
Qed.

Lemma splice_insert_perm {A : Type} `{EqDecision A} (l : list A) (i : Z)
    (x : A) :
  JS.splice_insert l i x ≡ₚ x :: l.
Proof.
  unfold JS.splice_insert.
  by rewrite <- Permutation_middle, take_drop.
Qed.

Lemma indexOf_elem_of {A : Type} `{EqDecision A} (x : A) (l : list A) :
  x ∈ l -> 0 <= JS.indexOf x l.
Proof.
  intros (pre & post & -> & Hpre)%list_elem_of_split_l.
  rewrite indexOf_app_notin by done. lia.
Qed.

(** The removals: the grid loses the removed icons as children, the map
    loses their ids, the grid's [_items] loses nothing. *)
Lemma remove_icon_fold (removed : list AppIcon.t) (v : AppView.state) :
  let v' := foldl AppView.remove_icon v removed in
  IconGrid.children (AppView._grid v')
  = List.filter (fun c => negb (bool_decide (c ∈ removed)))
      (IconGrid.children (AppView._grid v))
  /\ IconGrid._items (AppView._grid v') = IconGrid._items (AppView._grid v)
  /\ (forall id,
        AppView._items v' !! id
        = if bool_decide (id ∈ map AppIcon.id removed) then None
          else AppView._items v !! id)
  /\ AppView._viewIsReady v' = AppView._viewIsReady v
  /\ AppView._lastFocused v' = AppView._lastFocused v.
Proof.
  revert v. induction removed as [|icon removed IH]; intros v; simpl.
  - split; [|done]. symmetry. by apply filter_all.
  - destruct (IH (AppView.remove_icon v icon)) as (Hc & Hi & Hm & Hr & Hf).
    cbv zeta in Hc, Hi, Hm, Hr, Hf.
    rewrite Hc, Hi, Hr, Hf. simpl.
    split; [|split; [done|split; [|done]]].
    + rewrite filter_filter_bool. apply filter_ext_elem_of. intros c _.
      destruct (decide (c = icon)) as [->|Hne].
      * rewrite (bool_decide_eq_true_2 (icon = icon)) by done.
        rewrite (bool_decide_eq_true_2 (icon ∈ icon :: removed))
          by apply list_elem_of_here.
        done.
      * rewrite (bool_decide_eq_false_2 (c = icon)) by done. simpl.
        f_equal. apply bool_decide_ext. rewrite elem_of_cons. tauto.
    + intros id. rewrite Hm.
      destruct (bool_decide_reflect (id ∈ map AppIcon.id removed))
        as [Hin|Hin].
      * rewrite bool_decide_eq_true_2 by (by apply list_elem_of_further).
        done.
      * destruct (decide (id = AppIcon.id icon)) as [->|Hne].
        -- rewrite bool_decide_eq_true_2 by apply list_elem_of_here.
           apply lookup_delete_eq.
        -- rewrite bool_decide_eq_false_2
             by (by intros [?|?]%elem_of_cons).
           by apply lookup_delete_ne.
Qed.

(** The additions: each icon, as long as it is no child yet, enters the
    grid's children where it enters [_orderedItems], is stored under its id,
    and is appended to the grid's [_items]. *)
Lemma add_icon_fold (newApps added : list AppIcon.t) (v : AppView.state) :
  IconGrid.children (AppView._grid v) = AppView._orderedItems v ->
  (forall id, is_Some (AppView._items v !! id)
              <-> id ∈ map AppIcon.id (AppView._orderedItems v)) ->
  (forall icon, icon ∈ added -> icon ∈ newApps) ->
  NoDup added ->
  (forall icon, icon ∈ added -> icon ∉ AppView._orderedItems v) ->
  exists v',
    foldl (AppView.add_icon newApps) (Returns v) added = Returns v'
    /\ IconGrid.children (AppView._grid v') = AppView._orderedItems v'
    /\ (forall id, is_Some (AppView._items v' !! id)
                   <-> id ∈ map AppIcon.id (AppView._orderedItems v'))
    /\ IconGrid._items (AppView._grid v')
       = IconGrid._items (AppView._grid v) ++ added
    /\ AppView._viewIsReady v' = AppView._viewIsReady v
    /\ AppView._lastFocused v' = AppView._lastFocused v.
Proof.
  revert v.
  induction added as [|icon added IH]; intros v Hkids Hmap Hnew Hnd Hfresh.
  - exists v. simpl. by rewrite app_nil_r.
  - simpl. apply NoDup_cons in Hnd as [Hicon Hnd].
    pose proof (indexOf_elem_of icon newApps
                  (Hnew icon (list_elem_of_here _ _))) as Hidx.
    destruct (IH
      {| AppView._grid :=
           IconGrid.set_items (IconGrid._items (AppView._grid v) ++ [icon])
             (IconGrid.insert_child_at_index
                (IconGrid.children (AppView._grid v)) icon
                (JS.indexOf icon newApps))
             (AppView._grid v);
         AppView._items := <[AppIcon.id icon := icon]> (AppView._items v);
         AppView._orderedItems :=
           JS.splice_insert (AppView._orderedItems v)
             (JS.indexOf icon newApps) icon;
         AppView._viewIsReady := AppView._viewIsReady v;
         AppView._lastFocused := AppView._lastFocused v |})
      as (v' & E & Hc & Hm & Hi & Hr & Hf).
    + simpl. rewrite Hkids. apply insert_child_at_index_splice; [done|].
      apply Hfresh, list_elem_of_here.
    + simpl. intros id.
      rewrite lookup_insert_is_Some, splice_insert_perm. simpl.
      rewrite elem_of_cons, Hmap.
      destruct (decide (AppIcon.id icon = id)) as [->|Hne]; [tauto|].
      split; [intros [?|[_ ?]]; [done|by right]|].
      intros [?|?]; [by subst|right; done].
    + intros i Hin. apply Hnew. by apply list_elem_of_further.
    + exact Hnd.
    + simpl. intros i Hin. rewrite splice_insert_perm.
      intros [->|Hold]%elem_of_cons; [done|].
      by apply (Hfresh i (list_elem_of_further _ _ _ Hin)).
    + exists v'. split; [exact E|]. split; [exact Hc|]. split; [exact Hm|].
      simpl in Hi, Hr, Hf. rewrite Hi, <- app_assoc. done.
Qed.

(** X15.  [_redisplay] keeps the view's records in step.  If the grid's
    children are the icons of [_orderedItems], in that order, and the map
    [_items] holds exactly their ids, then after [_redisplay] both hold
    again, provided [_loadApps] returned no icon twice.  The grid's own
    [_items] array, however, only grows: the added icons are appended and
    the removed icons stay in it, although they are no children any
    more. *)
Theorem redisplay_keeps_records_in_step (newApps : list AppIcon.t)
    (v : AppView.state) :
  NoDup newApps ->
  IconGrid.children (AppView._grid v) = AppView._orderedItems v ->
  (forall id, is_Some (AppView._items v !! id)
              <-> id ∈ map AppIcon.id (AppView._orderedItems v)) ->
  exists v',
    AppView._redisplay_with newApps v = Returns v'
    /\ IconGrid.children (AppView._grid v') = AppView._orderedItems v'
    /\ (forall id, is_Some (AppView._items v' !! id)
                   <-> id ∈ map AppIcon.id (AppView._orderedItems v'))
    /\ IconGrid._items (AppView._grid v')
       = IconGrid._items (AppView._grid v)
         ++ AppView.addedApps (AppView._orderedItems v) newApps
    /\ AppView._viewIsReady v' = true.
Proof.
  intros Hnodup Hkids Hmap. unfold AppView._redisplay_with.
  set (old := AppView._orderedItems v) in *.
  set (P := fun icon : AppIcon.t =>
              negb (JS.includes (AppIcon.id icon) (map AppIcon.id newApps))).
  assert (AppView.removedApps old newApps = List.filter P old) as Hremoved
    by reflexivity.
  destruct (remove_icon_fold (AppView.removedApps old newApps) v)
    as (Hc & Hi & Hm & _ & _).
  cbv zeta in Hc, Hi, Hm.
  set (v1 := foldl AppView.remove_icon v (AppView.removedApps old newApps))
    in *.
  assert (AppView._orderedItems v1 = List.filter (fun x => negb (P x)) old)
    as Hordered.
  { unfold v1. rewrite remove_icon_orderedItems, Hremoved.
    by apply (remove_selected P [] old); intros x ?%elem_of_nil. }
  destruct (add_icon_fold newApps (AppView.addedApps old newApps) v1)
    as (v2 & E & Hc2 & Hm2 & Hi2 & _ & _).
  - rewrite Hc, Hkids, Hordered, Hremoved. fold old.
    apply filter_ext_elem_of. intros c Hin. f_equal.
    destruct (P c) eqn:EP.
    + apply bool_decide_eq_true_2, elem_of_filter_bool. by split.
    + apply bool_decide_eq_false_2. intros [_ ?]%elem_of_filter_bool.
      congruence.
  - intros id. rewrite Hm, Hordered, Hremoved.
    destruct (bool_decide_reflect
                (id ∈ map AppIcon.id (List.filter P old))) as [Hin|Hin].
    + split; [by intros [? [=]]|]. intros Hid. exfalso.
      apply list_elem_of_fmap in Hin as (icon & -> & Hicon).
      apply list_elem_of_fmap in Hid as (icon' & Eid & Hicon').
      apply elem_of_filter_bool in Hicon as [_ HP].
      apply elem_of_filter_bool in Hicon' as [_ HP'].
      unfold P in HP, HP'. rewrite Eid in HP. rewrite HP in HP'. done.
    + rewrite Hmap. fold old. split.
      * intros (icon & -> & Hicon)%list_elem_of_fmap.
        apply list_elem_of_fmap. exists icon. split; [done|].
        apply elem_of_filter_bool. split; [done|].
        destruct (P icon) eqn:EP; [|done]. exfalso. apply Hin.
        apply list_elem_of_fmap. exists icon. split; [done|].
        by apply elem_of_filter_bool.
      * intros (icon & -> & Hicon)%list_elem_of_fmap.
        apply elem_of_filter_bool in Hicon as [Hicon _].
        apply list_elem_of_fmap. by exists icon.
  - intros icon Hin. unfold AppView.addedApps in Hin.
    by apply elem_of_filter_bool in Hin as [Hin _].
  - unfold AppView.addedApps.
    by apply NoDup_ListNoDup, List.NoDup_filter, NoDup_ListNoDup.
  - intros icon Hin Hold. rewrite Hordered in Hold.
    apply elem_of_filter_bool in Hold as [Hold _].
    unfold AppView.addedApps in Hin.
    apply elem_of_filter_bool in Hin as [_ Hid].
    apply negb_true_iff in Hid. unfold JS.includes in Hid.
    apply bool_decide_eq_false in Hid. apply Hid.
    apply list_elem_of_fmap. by exists icon.
  - rewrite E. eexists. split; [reflexivity|]. simpl.
    split; [exact Hc2|]. split; [exact Hm2|]. split; [|done].
    by rewrite Hi2, Hi.
Qed.

End RedisplayRecords.

Section RedisplayRecordsExamples.

Lemma redisplay_keeps_records_in_step_witness :
  exists v',
    AppView._redisplay_with
      [Examples.icon_b'; Examples.icon_c'; Examples.icon_d']
      (Examples.view_of [Examples.icon_a; Examples.icon_b; Examples.icon_c])
    = Returns v'
    /\ IconGrid.children (AppView._grid v') = AppView._orderedItems v'
    /\ (forall id, is_Some (AppView._items v' !! id)
                   <-> id ∈ map AppIcon.id (AppView._orderedItems v'))
    /\ IconGrid._items (AppView._grid v')
       = [Examples.icon_a; Examples.icon_b; Examples.icon_c]
         ++ [Examples.icon_d']
    /\ AppView._viewIsReady v' = true.
Proof.
  apply (redisplay_keeps_records_in_step
           [Examples.icon_b'; Examples.icon_c'; Examples.icon_d']
           (Examples.view_of
              [Examples.icon_a; Examples.icon_b; Examples.icon_c])).
  - apply (bool_decide_unpack
             (NoDup [Examples.icon_b'; Examples.icon_c'; Examples.icon_d'])).
    vm_compute. exact I.
  - reflexivity.
  - intros id. simpl.
    change (map AppIcon.id [Examples.icon_a; Examples.icon_b; Examples.icon_c])
      with ["a"; "b"; "c"]%string.
    rewrite !lookup_insert_is_Some, lookup_empty, !elem_of_cons, elem_of_nil.
    unfold Examples.icon_a, Examples.icon_b, Examples.icon_c. simpl.
    split.
    + intros [?|[_ [?|[_ [?|[_ [? [=]]]]]]]]; auto.
    + intros [->|[->|[->|[]]]].
      * by left.
      * right. split; [done|]. by left.
      * right. split; [done|]. right. split; [done|]. by left.
Defined.

(** Scenario C: [a] is removed and [d] added; the grid shows [b], [c],
    [d], and its [_items] array still holds the icon of [a]. *)
Example redisplay_scenario_C_grid :
  exists v',
    AppView._redisplay_with
      [Examples.icon_b'; Examples.icon_c'; Examples.icon_d']
      (Examples.view_of [Examples.icon_a; Examples.icon_b; Examples.icon_c])
    = Returns v'
    /\ IconGrid.children (AppView._grid v')
       = [Examples.icon_b; Examples.icon_c; Examples.icon_d']
    /\ IconGrid._items (AppView._grid v')
       = [Examples.icon_a; Examples.icon_b; Examples.icon_c;
          Examples.icon_d'].
Proof.
  eexists. split; [vm_compute; reflexivity|]. split; reflexivity.
Qed.

(** The proviso is needed.  When [_loadApps] returns one icon twice (an app
    that the favorite map names in two spellings), the second insertion is
    refused: the grid shows the icon once, [_orderedItems] holds it
    twice. *)
Example redisplay_duplicate_icon :
  exists v',
    AppView._redisplay_with [Examples.icon_a; Examples.icon_a; Examples.icon_b]
      (Examples.view_of [])
    = Returns v'
    /\ IconGrid.children (AppView._grid v')
       = [Examples.icon_a; Examples.icon_b]
    /\ AppView._orderedItems v'
       = [Examples.icon_a; Examples.icon_a; Examples.icon_b].
Proof.
  eexists. split; [vm_compute; reflexivity|]. split; reflexivity.
Qed.

End RedisplayRecordsExamples.
(** ** Views, keys and the life of the screen *)

Section Views.

Local Open Scope Z_scope.

(** A focus attempt changes the shell and nothing else; there it changes
    neither the notifications nor what the environment decides. *)
Lemma grabFocus_shell (w : Widget) (d : DirectionType) (s : Screen.state) :
  exists sh,
    Screen._grabFocus w d s = Screen.set_shell sh s
    /\ Shell.notifications sh = Shell.notifications (Screen.shell s)
    /\ Shell.pushModal_ok sh = Shell.pushModal_ok (Screen.shell s)
    /\ Shell.focusable sh = Shell.focusable (Screen.shell s).
Proof.
  unfold Screen._grabFocus.
  destruct (actor_navigate_focus_frame w d (Screen.shell s))
    as (F1 & F2 & _ & _ & _ & F6 & _).
  destruct (Screen.actor_navigate_focus w d (Screen.shell s))
    as [focusSet sh]. simpl in *.
  destruct focusSet; simpl; eexists; (split; [reflexivity|]); done.
Qed.

Lemma ListViewManager_navigate_shell (d : DirectionType) (sh : Shell.state) :
  Shell.notifications (Screen.ListViewManager_vfunc_navigate_focus d sh)
  = Shell.notifications sh
  /\ Shell.pushModal_ok (Screen.ListViewManager_vfunc_navigate_focus d sh)
     = Shell.pushModal_ok sh
  /\ Shell.focusable (Screen.ListViewManager_vfunc_navigate_focus d sh)
     = Shell.focusable sh.
Proof.
  destruct (actor_navigate_focus_frame W_list d sh)
    as (F1 & F2 & _ & _ & _ & F6 & _).
  by repeat split.
Qed.

(** After [showView (name)] the current view is [name] and it alone is
    visible, provided no other view than the current one was visible. *)
Lemma showView_views (name : Screen.ViewName) (s : Screen.state) :
  (forall n, Screen.view_visible n s = true ->
             Screen._currentView s = Some n) ->
  Screen._currentView (Screen.showView name s) = Some name
  /\ forall n, Screen.view_visible n (Screen.showView name s)
               = bool_decide (n = name).
Proof.
  intros Hone.
  pose proof (Hone Screen.View_list) as Hlist.
  pose proof (Hone Screen.View_apps) as Happs.
  unfold Screen.showView, Screen.view_show, Screen.view_hide,
    Screen.view_visible in *.
  destruct (Screen._currentView s) as [[|]|] eqn:Ecur;
    destruct (Screen.list_visible s) eqn:El;
    destruct (Screen.apps_visible s) eqn:Ea;
    try (specialize (Hlist eq_refl); discriminate);
    try (specialize (Happs eq_refl); discriminate);
    destruct name; simpl;
    rewrite ?El, ?Ea; simpl;
    repeat match goal with
           | |- context [Screen._grabFocus ?w ?d ?s0] =>
               destruct (grabFocus_shell w d s0) as (? & -> & _)
           end;
    simpl; (split; [reflexivity|]); intros [|]; reflexivity.
Qed.

(** Showing the view that is current and visible changes nothing. *)
Lemma showView_current_noop (name : Screen.ViewName) (s : Screen.state) :
  Screen._currentView s = Some name ->
  Screen.view_visible name s = true ->
  Screen.showView name s = s.
Proof.
  destruct s. unfold Screen.showView, Screen.view_show, Screen.view_visible.
  simpl. intros -> Hvisible.
  rewrite bool_decide_eq_true_2 by done. simpl.
  destruct name; simpl in *; rewrite Hvisible; reflexivity.
Qed.

(** X16.  The view manager shows one view at a time.  If no view other
    than the current one is visible, then after [showView (name)] the
    current view is [name], it is visible, the other view is not, and the
    same can be said again of the new state; the modal group, the flags and
    the modal grab are not touched. *)
Theorem showView_shows_one_view (name : Screen.ViewName) (s : Screen.state) :
  (forall n, Screen.view_visible n s = true ->
             Screen._currentView s = Some n) ->
  Screen._currentView (Screen.showView name s) = Some name
  /\ (forall n, Screen.view_visible n (Screen.showView name s)
                = bool_decide (n = name))
  /\ (forall n, Screen.view_visible n (Screen.showView name s) = true ->
                Screen._currentView (Screen.showView name s) = Some n)
  /\ Screen.actor (Screen.showView name s) = Screen.actor s
  /\ Screen._isShown (Screen.showView name s) = Screen._isShown s
  /\ Screen._modalToken (Screen.showView name s) = Screen._modalToken s.
Proof.
  intros Hone. destruct (showView_views name s Hone) as [Hcur Hvis].
  destruct (showView_frame name s) as (Ha & _ & Hs & Ht & _).
  split; [exact Hcur|]. split; [exact Hvis|]. split; [|done].
  intros n. rewrite Hvis, Hcur. by intros ->%bool_decide_eq_true.
Qed.

Lemma showView_shows_one_view_witness :
  let s' := Screen.showView Screen.View_list Examples.screen0 in
  Screen._currentView s' = Some Screen.View_list
  /\ (forall n, Screen.view_visible n s' = bool_decide (n = Screen.View_list))
  /\ (forall n, Screen.view_visible n s' = true ->
                Screen._currentView s' = Some n)
  /\ Screen.actor s' = Screen.actor Examples.screen0
  /\ Screen._isShown s' = Screen._isShown Examples.screen0
  /\ Screen._modalToken s' = Screen._modalToken Examples.screen0.
Proof.
  apply (showView_shows_one_view Screen.View_list Examples.screen0).
  intros [|]; simpl; [discriminate|reflexivity].
Defined.

Lemma showView_handlers (name : Screen.ViewName) (s : Screen.state) :
  Screen.lightbox_handlers (Screen.showView name s)
  = Screen.lightbox_handlers s
  /\ Shell.notifications (Screen.shell (Screen.showView name s))
     = Shell.notifications (Screen.shell s)
  /\ Shell.pushModal_ok (Screen.shell (Screen.showView name s))
     = Shell.pushModal_ok (Screen.shell s).
Proof.
  unfold Screen.showView, Screen.view_show, Screen.view_hide,
    Screen.view_visible.
  destruct (Screen._currentView s) as [[|]|], name; simpl;
    destruct (Screen.list_visible s), (Screen.apps_visible s); simpl;
    repeat match goal with
           | |- context [Screen._grabFocus ?w ?d ?s0] =>
               let Hn := fresh "Hn" in
               let Hp := fresh "Hp" in
               destruct (grabFocus_shell w d s0) as (? & -> & Hn & Hp & _);
               simpl in *; rewrite ?Hn, ?Hp
           end;
    try match goal with
        | |- context [Screen.ListViewManager_vfunc_navigate_focus ?d ?sh] =>
            destruct (ListViewManager_navigate_shell d sh) as (-> & -> & _)
        end;
    done.
Qed.

(** X30.  Showing the settings list always leaves a focus retry pending.
    The list manager's [navigate_focus] handler returns nothing, so
    [_grabFocus] takes for failed an attempt that was made, on the manager
    and on its main list, and registers its later: whenever the hidden list
    is shown, one retry for the list is added to the pending laters and the
    two attempts are made at once. *)
Theorem showSettings_always_retries (s : Screen.state) :
  Screen.list_visible s = false ->
  let s' := Screen.showSettings s in
  pending (Shell.laters (Screen.shell s'))
  = pending (Shell.laters (Screen.shell s))
    ++ [(N.succ (last_later_id (Shell.laters (Screen.shell s))),
         GrabFocusRetry W_list TAB_FORWARD)]
  /\ Shell.navigate_log (Screen.shell s')
     = Shell.navigate_log (Screen.shell s)
       ++ [(W_list, TAB_FORWARD); (W_mainView, TAB_FORWARD)].
Proof.
  intros Hlist.
  unfold Screen.showSettings, Screen.showView, Screen.view_show,
    Screen.view_hide, Screen.view_visible.
  destruct (Screen._currentView s) as [[|]|]; simpl; rewrite ?Hlist; simpl;
    unfold Screen._grabFocus, Screen.actor_navigate_focus,
      Screen.ListViewManager_vfunc_navigate_focus, Shell.navigate_focus;
    simpl;
    repeat match goal with
           | |- context [bool_decide ?P] => destruct (bool_decide P); simpl
           end;
    rewrite <- ?app_assoc; done.
Qed.

Lemma showSettings_always_retries_witness :
  let s' := Screen.showSettings Examples.screen_shown in
  pending (Shell.laters (Screen.shell s'))
  = pending (Shell.laters (Screen.shell Examples.screen_shown))
    ++ [(N.succ
           (last_later_id
              (Shell.laters (Screen.shell Examples.screen_shown))),
         GrabFocusRetry W_list TAB_FORWARD)]
  /\ Shell.navigate_log (Screen.shell s')
     = Shell.navigate_log (Screen.shell Examples.screen_shown)
       ++ [(W_list, TAB_FORWARD); (W_mainView, TAB_FORWARD)].
Proof.
  apply (showSettings_always_retries Examples.screen_shown). reflexivity.
Defined.

(** What [hideModal] leaves besides a hidden interface: no modal grab, the
    views as [homeScreen] sets them, and the handlers of the lightbox. *)
Lemma hideModal_releases (userHidden : bool) (s : Screen.state) :
  is_Some (Screen.actor s) ->
  (forall n, Screen.view_visible n s = true ->
             Screen._currentView s = Some n) ->
  Screen._modalToken (Screen.hideModal userHidden s) = false
  /\ Screen._currentView (Screen.hideModal userHidden s)
     = Some Screen.View_apps
  /\ (forall n, Screen.view_visible n (Screen.hideModal userHidden s)
                = bool_decide (n = Screen.View_apps))
  /\ Screen.lightbox_handlers (Screen.hideModal userHidden s)
     = Screen.lightbox_handlers s
  /\ Shell.notifications (Screen.shell (Screen.hideModal userHidden s))
     = Shell.notifications (Screen.shell s).
Proof.
  intros [a Ha] Hone. rewrite (hideModal_steps userHidden a s Ha).
  set (s1 := hide_steps userHidden a s).
  assert (Screen._modalToken s1 = false
          /\ Screen._currentView s1 = Screen._currentView s
          /\ Screen.list_visible s1 = Screen.list_visible s
          /\ Screen.apps_visible s1 = Screen.apps_visible s
          /\ Screen.lightbox_handlers s1 = Screen.lightbox_handlers s
          /\ Screen.shell s1 = Screen.shell s) as (Ht & Hc & Hl & Hp & Hh & Hsh).
  { unfold s1, hide_steps, Screen._removeModal.
    destruct userHidden, (Screen._modalToken s) eqn:Et,
      (Screen.lightbox s) eqn:El; simpl; rewrite ?Et, ?El; simpl;
      rewrite ?El; simpl; done. }
  assert (forall n, Screen.view_visible n s1 = true ->
                    Screen._currentView s1 = Some n) as Hone1.
  { intros n. rewrite Hc. unfold Screen.view_visible. rewrite Hl, Hp.
    apply Hone. }
  destruct (showView_views Screen.View_apps s1 Hone1) as [Hcur Hvis].
  destruct (showView_frame Screen.View_apps s1) as (_ & _ & _ & Htok & _).
  destruct (showView_handlers Screen.View_apps s1) as (Hh' & Hn' & _).
  unfold Screen.homeScreen.
  split; [by rewrite Htok|]. split; [exact Hcur|]. split; [exact Hvis|].
  by rewrite Hh', Hn', Hh, Hsh.
Qed.

(** X17.  Leaving the interface.  On a screen that is alive, [exit ()] does
    what [hideModal (true)] does (its own [homeScreen ()] finds the apps
    view current and visible already), and so does the Escape key, which is
    consumed: the interface is hidden and marked as hidden by the user, the
    modal grab is released, and the apps view is the current and the only
    visible view. *)
Theorem exit_hides_and_goes_home
    (focused_activate : option (Screen.state -> Screen.state))
    (s : Screen.state) (v : AppView.state) :
  is_Some (Screen.actor s) ->
  (forall n, Screen.view_visible n s = true ->
             Screen._currentView s = Some n) ->
  Screen.exit s = Screen.hideModal true s
  /\ Screen.key_press_event focused_activate KeyEvents.KEY_Escape (s, v)
     = Some (EVENT_STOP, (Screen.hideModal true s, v))
  /\ Screen.is_visible (Screen.exit s) = false
  /\ Screen._isShown (Screen.exit s) = false
  /\ Screen._modalToken (Screen.exit s) = false
  /\ Screen._currentView (Screen.exit s) = Some Screen.View_apps
  /\ forall n, Screen.view_visible n (Screen.exit s)
               = bool_decide (n = Screen.View_apps).
Proof.
  intros Ha Hone.
  destruct (hideModal_releases true s Ha Hone) as (Ht & Hc & Hv & _ & _).
  destruct (hideModal_effect true s Ha) as (Hvis & _ & Hshown & _).
  assert (Screen.exit s = Screen.hideModal true s) as ->.
  { unfold Screen.exit, Screen.homeScreen.
    apply showView_current_noop; [exact Hc|]. by rewrite Hv. }
  split; [reflexivity|]. split; [reflexivity|]. done.
Qed.

Lemma exit_hides_and_goes_home_witness :
  Screen.exit Examples.screen_shown
  = Screen.hideModal true Examples.screen_shown
  /\ Screen.key_press_event None KeyEvents.KEY_Escape
       (Examples.screen_shown, Examples.view3 Examples.icon_a)
     = Some (EVENT_STOP,
             (Screen.hideModal true Examples.screen_shown,
              Examples.view3 Examples.icon_a))
  /\ Screen.is_visible (Screen.exit Examples.screen_shown) = false
  /\ Screen._isShown (Screen.exit Examples.screen_shown) = false
  /\ Screen._modalToken (Screen.exit Examples.screen_shown) = false
  /\ Screen._currentView (Screen.exit Examples.screen_shown)
     = Some Screen.View_apps
  /\ forall n, Screen.view_visible n (Screen.exit Examples.screen_shown)
               = bool_decide (n = Screen.View_apps).
Proof.
  apply (exit_hides_and_goes_home None Examples.screen_shown
           (Examples.view3 Examples.icon_a)).
  - vm_compute. by eexists.
  - intros [|]; vm_compute; [discriminate|reflexivity].
Defined.

End Views.

Section ModalGrab.

Local Open Scope Z_scope.

Lemma hideModal_handlers (userHidden : bool) (s : Screen.state) :
  Screen.lightbox_handlers (Screen.hideModal userHidden s)
  = Screen.lightbox_handlers s.
Proof.
  destruct (Screen.actor s) as [a|] eqn:Ha.
  - rewrite (hideModal_steps userHidden a s Ha). unfold Screen.homeScreen.
    destruct (showView_handlers Screen.View_apps (hide_steps userHidden a s))
      as (-> & _).
    unfold hide_steps, Screen._removeModal.
    destruct userHidden, (Screen._modalToken s) eqn:Et,
      (Screen.lightbox s) eqn:El; simpl; rewrite ?Et, ?El; simpl;
      rewrite ?El; simpl; done.
  - unfold Screen.hideModal. by rewrite Ha.
Qed.

Lemma showModal_spec (skipAnimation : bool) (s : Screen.state) :
  is_Some (Screen.actor s) -> is_Some (Screen.lightbox s) ->
  exists s',
    Screen.showModal skipAnimation s = Returns s'
    /\ Screen.is_visible s' = true
    /\ Screen._isShown s' = true
    /\ Shell.key_focus (Screen.shell s') = FocusOn W_actor
    /\ Screen._modalToken s'
       = Screen._modalToken s || Shell.pushModal_ok (Screen.shell s)
    /\ Shell.notifications (Screen.shell s')
       = Shell.notifications (Screen.shell s)
         ++ (if Screen._modalToken s || Shell.pushModal_ok (Screen.shell s)
             then []
             else ["Unable to acquire modal grab for the interface!"%string])
    /\ Screen.lightbox_handlers s' = S (Screen.lightbox_handlers s).
Proof.
  intros [a Ha] [l Hl].
  destruct s as [act lb h shown tok n cur lv av mv ifs sh].
  simpl in Ha, Hl. subst act lb.
  unfold Screen.showModal, Screen._grabModal. simpl.
  destruct tok, (Shell.pushModal_ok sh) eqn:Epush, (Screen.visible a) eqn:Ev;
    simpl; rewrite ?Ev; simpl;
    unfold Screen._grabFocus, Screen.actor_navigate_focus,
      Shell.navigate_focus; simpl;
    repeat match goal with
           | |- context [bool_decide ?P] => destruct (bool_decide P)
           end; simpl;
    (eexists; split; [reflexivity|]); simpl; rewrite ?Epush, ?app_nil_r;
    repeat split; exact Ev.
Qed.

(** X18.  Showing the interface without a modal grab.  On a screen that is
    alive [showModal] always returns with the interface visible, marked as
    shown, and the modal group holding the key focus.  A grab is requested
    only when none is held; when the shell refuses it, exactly one
    notification is sent and no token is stored, so the next [showModal]
    asks again.  Every call connects one more click handler to the
    lightbox, and [hideModal] disconnects none. *)
Theorem showModal_without_grab (skipAnimation userHidden : bool)
    (s : Screen.state) :
  is_Some (Screen.actor s) -> is_Some (Screen.lightbox s) ->
  exists s',
    Screen.showModal skipAnimation s = Returns s'
    /\ Screen.is_visible s' = true
    /\ Screen._isShown s' = true
    /\ Shell.key_focus (Screen.shell s') = FocusOn W_actor
    /\ Screen._modalToken s'
       = Screen._modalToken s || Shell.pushModal_ok (Screen.shell s)
    /\ Shell.notifications (Screen.shell s')
       = Shell.notifications (Screen.shell s)
         ++ (if Screen._modalToken s || Shell.pushModal_ok (Screen.shell s)
             then []
             else ["Unable to acquire modal grab for the interface!"%string])
    /\ Screen.lightbox_handlers s' = S (Screen.lightbox_handlers s)
    /\ Screen.lightbox_handlers (Screen.hideModal userHidden s')
       = S (Screen.lightbox_handlers s).
Proof.
  intros Ha Hl.
  destruct (showModal_spec skipAnimation s Ha Hl)
    as (s' & E & Hv & Hs & Hk & Ht & Hn & Hh).
  exists s'. rewrite hideModal_handlers. done.
Qed.

End ModalGrab.

Section ModalGrabExamples.

(** The screen as built, but on a shell that refuses the modal grab. *)
Lemma showModal_without_grab_witness :
  let s :=
    Screen.set_shell
      {| Shell.key_focus := FocusNone; Shell.focusable := [];
         Shell.pushModal_ok := false;
         Shell.laters := Examples.no_laters;
         Shell.last_source_id := 0%N; Shell.timeouts := [];
         Shell.navigate_log := []; Shell.notifications := [] |}
      Examples.screen0 in
  exists s',
    Screen.showModal false s = Returns s'
    /\ Screen.is_visible s' = true
    /\ Screen._isShown s' = true
    /\ Shell.key_focus (Screen.shell s') = FocusOn W_actor
    /\ Screen._modalToken s' = false
    /\ Shell.notifications (Screen.shell s')
       = ["Unable to acquire modal grab for the interface!"%string]
    /\ Screen.lightbox_handlers s' = 1%nat
    /\ Screen.lightbox_handlers (Screen.hideModal true s') = 1%nat.
Proof.
  intros s.
  refine (showModal_without_grab false true s _ _); vm_compute; by eexists.
Defined.

End ModalGrabExamples.

Section LifeOfTheScreen.
Context {A : Type}.

Local Open Scope Z_scope.

(** X19.  A disabled extension leaves a screen that still reacts to
    ['app-state-changed'].  [disable ()] hides and destroys the screen but
    neither disconnects that handler nor resets [_isShown] (it calls
    [hideModal] without an argument).  On the destroyed screen [hideModal]
    does nothing and [showModal] throws; so a signal that reports running
    apps passes, and a signal that reports none while the interface counted
    as shown ends in an exception. *)
Theorem disabled_screen_throws_on_signal (app : option Screen.AppState)
    (apps : list A) (userHidden skipAnimation : bool) (s : Screen.state) :
  is_Some (Screen.actor s) -> Screen._isShown s = true ->
  app <> Some Screen.STARTING ->
  let s' := Mouseless.disable s in
  Screen.actor s' = None
  /\ Screen.lightbox s' = None
  /\ Screen._isShown s' = true
  /\ Screen.hideModal userHidden s' = s'
  /\ (exists error, Screen.showModal skipAnimation s' = Throws error s')
  /\ (apps <> [] ->
      exists s'', Screen._updateRunningCount app apps s' = Returns s'')
  /\ exists error s'',
       Screen._updateRunningCount app ([] : list A) s' = Throws error s''.
Proof.
  intros Ha Hshown Happ s'.
  destruct (hideModal_effect false s Ha) as (_ & [a' Ha'] & Hs & _).
  assert (Screen.actor s' = None /\ Screen.lightbox s' = None
          /\ Screen._isShown s' = true) as (Hact & Hlb & Hsh).
  { unfold s', Mouseless.disable, Screen.destroy. rewrite Ha'.
    destruct (Screen.lightbox (Screen.set_actor None _)) eqn:El; simpl;
      rewrite ?El, Hs; done. }
  split; [exact Hact|]. split; [exact Hlb|]. split; [exact Hsh|].
  assert (forall u s0, Screen.actor s0 = None -> Screen.hideModal u s0 = s0)
    as Hhide by (intros u s0 E; unfold Screen.hideModal; by rewrite E).
  split; [by apply Hhide|].
  split; [unfold Screen.showModal; rewrite Hact; by eexists|].
  unfold Screen._updateRunningCount.
  rewrite bool_decide_eq_false_2 by done.
  split.
  - intros Hne. rewrite truthy_length, bool_decide_eq_false_2 by done.
    simpl. by eexists.
  - simpl. change (Screen._isShown (Screen.set_nAppsRunning 0 s'))
      with (Screen._isShown s').
    rewrite Hsh. unfold Screen.showModal. simpl. rewrite Hact. by eexists _, _.
Qed.

(** X20.  The exit shortcut is not a hide by the user.  Its handler calls
    [hideModal] without an argument: the interface is hidden but still
    counts as shown, so the next ['app-state-changed'] with no app running
    shows it again (after Escape or a click on the lightbox it would stay
    hidden). *)
Theorem exit_shortcut_is_not_remembered (app : option Screen.AppState)
    (s : Screen.state) :
  is_Some (Screen.actor s) -> is_Some (Screen.lightbox s) ->
  Screen._isShown s = true -> app <> Some Screen.STARTING ->
  exists s1 s2,
    Mouseless._exitKeyHandler s = Returns s1
    /\ Screen.is_visible s1 = false
    /\ Screen._isShown s1 = true
    /\ Screen._updateRunningCount app ([] : list A) s1 = Returns s2
    /\ Screen.is_visible s2 = true.
Proof.
  intros Ha Hl Hshown Happ.
  destruct (hideModal_effect false s Ha) as (Hv & Ha1 & Hs & Hl1 & _).
  specialize (Hl1 Hl). rewrite Hshown in Hs.
  destruct (updateRunningCount_zero (A := A) app (Screen.hideModal false s)
              Ha1 Hl1 Happ) as (s2 & E & _ & Hv2 & _).
  rewrite Hs in Hv2.
  exists (Screen.hideModal false s), s2.
  split; [reflexivity|]. done.
Qed.

End LifeOfTheScreen.

Section LifeOfTheScreenExamples.

Lemma disabled_screen_throws_on_signal_witness :
  let s' := Mouseless.disable Examples.screen_shown in
  Screen.actor s' = None
  /\ Screen.lightbox s' = None
  /\ Screen._isShown s' = true
  /\ Screen.hideModal true s' = s'
  /\ (exists error, Screen.showModal false s' = Throws error s')
  /\ ([1%nat] <> [] ->
      exists s'',
        Screen._updateRunningCount (Some Screen.RUNNING) [1%nat] s'
        = Returns s'')
  /\ exists error s'',
       Screen._updateRunningCount (Some Screen.RUNNING) ([] : list nat) s'
       = Throws error s''.
Proof.
  refine (disabled_screen_throws_on_signal (Some Screen.RUNNING) [1%nat]
            true false Examples.screen_shown _ _ _).
  - vm_compute. by eexists.
  - reflexivity.
  - discriminate.
Defined.

Lemma exit_shortcut_is_not_remembered_witness :
  exists s1 s2,
    Mouseless._exitKeyHandler Examples.screen_shown = Returns s1
    /\ Screen.is_visible s1 = false
    /\ Screen._isShown s1 = true
    /\ Screen._updateRunningCount (Some Screen.STOPPED) ([] : list nat) s1
       = Returns s2
    /\ Screen.is_visible s2 = true.
Proof.
  refine (exit_shortcut_is_not_remembered (Some Screen.STOPPED)
            Examples.screen_shown _ _ _ _).
  - vm_compute. by eexists.
  - vm_compute. by eexists.
  - reflexivity.
  - discriminate.
Defined.

End LifeOfTheScreenExamples.

Section Keys.

Local Open Scope Z_scope.

(** X21.  An arrow key always moves the focus within the grid.  For each
    of the four arrow keys the stage handler emits ['movement'] with the
    matching direction, none of which is falsy, and lets the event
    propagate; on a view whose last focused icon is a visible child of a
    grid whose layout loop stops, [movement] then hands the focus to a
    visible child, records it as the last focused one and returns
    [EVENT_STOP]; the screen is not touched.  Any key other than Escape,
    the arrows, Return and keypad Enter changes nothing and propagates. *)
Theorem arrow_key_moves_focus
    (focused_activate : option (Screen.state -> Screen.state)) (symbol : Z)
    (s : Screen.state) (v : AppView.state) (current : AppIcon.t) :
  let g := AppView._grid v in
  let kids := IconGrid._getVisibleChildren g in
  is_Some (IconGrid._computeLayout g
             (IconGrid.allocation_x2 g - IconGrid.allocation_x1 g)) ->
  AppView._lastFocused v = Some current ->
  0 <= JS.indexOf current kids ->
  (symbol ∈ [KeyEvents.KEY_Up; KeyEvents.KEY_Down; KeyEvents.KEY_Left;
             KeyEvents.KEY_Right] ->
   exists direction child,
     KeyEvents.handleStageKeyPress symbol
     = (Some (KeyEvents.Movement (Some direction)), EVENT_PROPAGATE)
     /\ direction
        = (if symbol =? KeyEvents.KEY_Up then UP
           else if symbol =? KeyEvents.KEY_Down then DOWN
           else if symbol =? KeyEvents.KEY_Left then LEFT else RIGHT)
     /\ child ∈ kids
     /\ AppView.movement (Some direction) v
        = Some (EVENT_STOP, Some child,
                {| AppView._grid := AppView._grid v;
                   AppView._items := AppView._items v;
                   AppView._orderedItems := AppView._orderedItems v;
                   AppView._viewIsReady := AppView._viewIsReady v;
                   AppView._lastFocused := Some child |})
     /\ Screen.key_press_event focused_activate symbol (s, v)
        = Some (EVENT_PROPAGATE,
                (s,
                 {| AppView._grid := AppView._grid v;
                    AppView._items := AppView._items v;
                    AppView._orderedItems := AppView._orderedItems v;
                    AppView._viewIsReady := AppView._viewIsReady v;
                    AppView._lastFocused := Some child |})))
  /\ (symbol ∉ [KeyEvents.KEY_Escape; KeyEvents.KEY_Up; KeyEvents.KEY_Down;
                KeyEvents.KEY_Left; KeyEvents.KEY_Right;
                KeyEvents.KEY_Return; KeyEvents.KEY_KP_Enter] ->
      Screen.key_press_event focused_activate symbol (s, v)
      = Some (EVENT_PROPAGATE, (s, v))).
Proof.
  intros g kids Hl Hlast Hidx. split.
  - intros Hsym.
    assert (forall direction,
              direction <> TAB_FORWARD -> direction <> TAB_BACKWARD ->
              exists child,
                child ∈ kids
                /\ AppView.movement (Some direction) v
                   = Some (EVENT_STOP, Some child,
                           {| AppView._grid := AppView._grid v;
                              AppView._items := AppView._items v;
                              AppView._orderedItems := AppView._orderedItems v;
                              AppView._viewIsReady := AppView._viewIsReady v;
                              AppView._lastFocused := Some child |}))
      as Hmove.
    { intros direction Hf Hb.
      destruct (navigate_focus_spatial g current direction false Hl Hidx Hf Hb)
        as (layout & j & child & _ & _ & Hget & Hnav).
      exists child. split.
      - unfold JS.get in Hget. destruct (j <? 0); [done|].
        by apply list_elem_of_lookup_2 in Hget.
      - unfold AppView.movement. rewrite Hlast. fold g. rewrite Hnav.
        by destruct direction. }
    unfold Screen.key_press_event.
    apply elem_of_cons in Hsym as [->|Hsym];
      [|apply elem_of_cons in Hsym as [->|Hsym];
        [|apply elem_of_cons in Hsym as [->|Hsym];
          [|apply list_elem_of_singleton in Hsym as ->]]].
    + destruct (Hmove UP) as (child & Hin & E); [done..|].
      exists UP, child. change (KeyEvents.handleStageKeyPress KeyEvents.KEY_Up)
        with (Some (KeyEvents.Movement (Some UP)), EVENT_PROPAGATE).
      cbv beta iota. rewrite E. done.
    + destruct (Hmove DOWN) as (child & Hin & E); [done..|].
      exists DOWN, child.
      change (KeyEvents.handleStageKeyPress KeyEvents.KEY_Down)
        with (Some (KeyEvents.Movement (Some DOWN)), EVENT_PROPAGATE).
      cbv beta iota. rewrite E. done.
    + destruct (Hmove LEFT) as (child & Hin & E); [done..|].
      exists LEFT, child.
      change (KeyEvents.handleStageKeyPress KeyEvents.KEY_Left)
        with (Some (KeyEvents.Movement (Some LEFT)), EVENT_PROPAGATE).
      cbv beta iota. rewrite E. done.
    + destruct (Hmove RIGHT) as (child & Hin & E); [done..|].
      exists RIGHT, child.
      change (KeyEvents.handleStageKeyPress KeyEvents.KEY_Right)
        with (Some (KeyEvents.Movement (Some RIGHT)), EVENT_PROPAGATE).
      cbv beta iota. rewrite E. done.
  - intros Hother.
    repeat (apply not_elem_of_cons in Hother as [? Hother]).
    unfold Screen.key_press_event, KeyEvents.handleStageKeyPress, JS.includes.
    destruct (Z.eqb_spec symbol KeyEvents.KEY_Escape); [done|].
    rewrite bool_decide_eq_false_2.
    + destruct (Z.eqb_spec symbol KeyEvents.KEY_Return); [done|].
      destruct (Z.eqb_spec symbol KeyEvents.KEY_KP_Enter); [done|].
      reflexivity.
    + intros Hin. repeat (apply elem_of_cons in Hin as [?|Hin]; [done|]).
      by apply elem_of_nil in Hin.
Qed.

End Keys.

Section KeysExamples.

Local Open Scope Z_scope.

Lemma arrow_key_moves_focus_witness :
  (exists direction child,
     KeyEvents.handleStageKeyPress KeyEvents.KEY_Right
     = (Some (KeyEvents.Movement (Some direction)), EVENT_PROPAGATE)
     /\ direction = RIGHT
     /\ child ∈ IconGrid._getVisibleChildren Examples.grid3
     /\ AppView.movement (Some direction) (Examples.view3 Examples.icon_a)
        = Some (EVENT_STOP, Some child, Examples.view3 child)
     /\ Screen.key_press_event None KeyEvents.KEY_Right
          (Examples.screen_shown, Examples.view3 Examples.icon_a)
        = Some (EVENT_PROPAGATE,
                (Examples.screen_shown, Examples.view3 child)))
  /\ Screen.key_press_event None 97
       (Examples.screen_shown, Examples.view3 Examples.icon_a)
     = Some (EVENT_PROPAGATE,
             (Examples.screen_shown, Examples.view3 Examples.icon_a)).
Proof.
  destruct (arrow_key_moves_focus None KeyEvents.KEY_Right
              Examples.screen_shown (Examples.view3 Examples.icon_a)
              Examples.icon_a) as [Harrow _].
  { vm_compute. by eexists. }
  { reflexivity. }
  { vm_compute. discriminate. }
  destruct (arrow_key_moves_focus None 97
              Examples.screen_shown (Examples.view3 Examples.icon_a)
              Examples.icon_a) as [_ Hother].
  { vm_compute. by eexists. }
  { reflexivity. }
  { vm_compute. discriminate. }
  split.
  - apply Harrow. apply list_elem_of_In. vm_compute. tauto.
  - apply Hother. intros Hin. apply list_elem_of_In in Hin. vm_compute in Hin.
    intuition discriminate.
Defined.

(** Right from the first of three icons focuses the second one. *)
Example key_right_grid3 :
  Screen.key_press_event None KeyEvents.KEY_Right
    (Examples.screen_shown, Examples.view3 Examples.icon_a)
  = Some (EVENT_PROPAGATE,
          (Examples.screen_shown, Examples.view3 Examples.icon_b)).
Proof. vm_compute. reflexivity. Qed.

End KeysExamples.
(** ** The items of a menu list *)

Section MenuItems.

Local Open Scope Z_scope.

(** X22.  Items of a menu list are kept by id.  After [addItem (data)] the
    list holds [data] under its id; the number of items has grown by one
    if the id was new and is unchanged if an item with that id was
    replaced.  [removeItem] takes the id, not the label its documentation
    speaks of: with the id of an item just added under a new id it
    restores the list as it was, with a string that is no id (the label of
    the item, say) it changes nothing. *)
Theorem menu_items_are_kept_by_id (this : Widget)
    (data : MenuList.MenuListItem) (m : MenuList.state) (sh : Shell.state) :
  let m' := (MenuList.addItem this data m sh).1 in
  MenuList._items m' !! MenuList.id data = Some data
  /\ MenuList.numItems m'
     = match MenuList._items m !! MenuList.id data with
       | Some _ => MenuList.numItems m
       | None => MenuList.numItems m + 1
       end
  /\ (MenuList._items m !! MenuList.id data = None ->
      MenuList.removeItem (MenuList.id data) m' = m)
  /\ (forall label,
        MenuList._items m' !! label = None ->
        MenuList.removeItem label m' = m').
Proof.
  intros m'. unfold m', MenuList.addItem, MenuList.numItems,
    MenuList.removeItem. simpl.
  split; [apply lookup_insert_eq|]. split; [|split].
  - rewrite !length_map_to_list, map_size_insert.
    destruct (MenuList._items m !! MenuList.id data); simpl; lia.
  - intros Hfresh. rewrite lookup_insert_eq.
    rewrite delete_insert_id by done. by destruct m.
  - intros label ->. reflexivity.
Qed.

(** The main menu has five items; adding a second ["exit"] entry replaces
    the first; removing by the label ["Exit Interface"] removes nothing,
    removing by the id ["exit"] does. *)
Example main_menu_items :
  MenuList.numItems Examples.main_menu = 5
  /\ MenuList.numItems
       (MenuList.addItem W_mainView (Examples.menu_entry "exit" "Quit")
          Examples.main_menu Examples.shell0).1 = 5
  /\ MenuList.numItems
       (MenuList.removeItem "Exit Interface" Examples.main_menu) = 5
  /\ MenuList.numItems (MenuList.removeItem "exit" Examples.main_menu) = 4.
Proof. repeat split; vm_compute; reflexivity. Qed.

End MenuItems.

(** ** The zoom-out animation *)

Section ZoomOut.

Local Open Scope Z_scope.

(** X23.  The clone that zooms out of an activated icon stays on its
    monitor.  Scaled three times around its centre, the clone would cover
    [x - width, x + 2 * width); with the translation that
    [zoomOutActorAtPos] eases it to, that span lies within the monitor
    whenever the monitor is at least three times as wide as the icon, and
    the translation is 0 when the span lies within it already.  A clone
    wider than the monitor is aligned with the monitor's left edge.  The
    same holds vertically. *)
Theorem zoomOut_stays_on_monitor (width height x y : Z)
    (monitor : IconGrid.Monitor) :
  let '(translation_x, translation_y) :=
    IconGrid.zoomOutActorAtPos width height x y monitor in
  let left := x - width + translation_x in
  let top := y - height + translation_y in
  (3 * width <= IconGrid.monitor_width monitor ->
   IconGrid.monitor_x monitor <= left
   /\ left + 3 * width
      <= IconGrid.monitor_x monitor + IconGrid.monitor_width monitor
   /\ (IconGrid.monitor_x monitor <= x - width
       /\ x + 2 * width
          <= IconGrid.monitor_x monitor + IconGrid.monitor_width monitor ->
       translation_x = 0))
  /\ (IconGrid.monitor_width monitor < 3 * width ->
      left = IconGrid.monitor_x monitor)
  /\ (3 * height <= IconGrid.monitor_height monitor ->
      IconGrid.monitor_y monitor <= top
      /\ top + 3 * height
         <= IconGrid.monitor_y monitor + IconGrid.monitor_height monitor
      /\ (IconGrid.monitor_y monitor <= y - height
          /\ y + 2 * height
             <= IconGrid.monitor_y monitor + IconGrid.monitor_height monitor ->
          translation_y = 0))
  /\ (IconGrid.monitor_height monitor < 3 * height ->
      top = IconGrid.monitor_y monitor).
Proof.
  unfold IconGrid.zoomOutActorAtPos, IconGrid.clamp,
    IconGrid.APPICON_ANIMATION_OUT_SCALE.
  replace ((width * 3 - width) / 2) with width
    by (replace (width * 3 - width) with (width * 2) by lia;
        by rewrite Z.div_mul).
  replace ((height * 3 - height) / 2) with height
    by (replace (height * 3 - height) with (height * 2) by lia;
        by rewrite Z.div_mul).
  cbv zeta. lia.
Qed.

(** An icon of 100 by 100 pixels at the right edge of a monitor of 1920 by
    1080 pixels: the clone is moved 100 pixels to the left. *)
Example zoomOut_at_the_edge :
  IconGrid.zoomOutActorAtPos 100 100 1820 500
    {| IconGrid.monitor_x := 0; IconGrid.monitor_y := 0;
       IconGrid.monitor_width := 1920; IconGrid.monitor_height := 1080 |}
  = (-100, 0).
Proof. reflexivity. Qed.

End ZoomOut.
(** ** Who gets the focus, and what a tap leaves behind *)

Section FocusTargets.
Context {Item : Type} `{GridItem Item}.

Local Open Scope Z_scope.

(** X24.  [navigate_focus] gives the key focus to visible children of the
    grid only, and returns [true] exactly when it has given it to one.  It
    gives it to none only when the grid has no visible child or, from a
    visible child, for a direction that is none of Up, Down, Left and
    Right.  (It does not return when the layout loop does not stop.) *)
Theorem navigate_focus_only_visible_children (g : IconGrid.state Item)
    (current : option Item) (direction : DirectionType) (wrap : bool) :
  match IconGrid.navigate_focus g current direction wrap with
  | Some (Some child, result) =>
      result = true /\ child ∈ IconGrid._getVisibleChildren g
  | Some (None, result) =>
      result = false
      /\ (IconGrid._getVisibleChildren g = []
          \/ direction = TAB_FORWARD \/ direction = TAB_BACKWARD)
  | None =>
      IconGrid._computeLayout g
        (IconGrid.allocation_x2 g - IconGrid.allocation_x1 g) = None
  end.
Proof.
  unfold IconGrid.navigate_focus.
  destruct (IconGrid._getVisibleChildren g) as [|first rest] eqn:Ekids.
  - split; [done|by left].
  - set (kids := first :: rest) in *.
    set (idx := match current with
                | Some c => JS.indexOf c kids
                | None => -1
                end).
    destruct (Z.ltb_spec idx 0) as [Hneg|Hidx].
    + split; [done|]. apply list_elem_of_here.
    + destruct (IconGrid._computeLayout g _) as [[n u]|] eqn:El; [|done].
      change (Some (n, u) ≫= ?f) with (f (n, u)). cbv beta. cbn [fst].
      pose proof (_computeLayout_columns g _ n u El) as Hn.
      assert (1 <= JS.or_else n 1) as Hcols.
      { unfold JS.or_else, JS.truthy. destruct (Z.eqb_spec n 0); simpl; lia. }
      assert (idx < Z.of_nat (length kids)) as Hlt.
      { unfold idx. destruct current; [apply indexOf_lt_length|lia]. }
      destruct (decide (direction = TAB_FORWARD)) as [->|Hf];
        [simpl; split; [done|right; by left]|].
      destruct (decide (direction = TAB_BACKWARD)) as [->|Hb];
        [simpl; split; [done|right; by right]|].
      destruct (newIndex_spatial direction wrap (JS.or_else n 1)
                  (Z.of_nat (length kids)) idx Hcols ltac:(lia) Hf Hb)
        as (j & -> & Hj).
      destruct (get_in_range kids j Hj) as [child Eget]. rewrite Eget.
      split; [done|]. unfold JS.get in Eget.
      destruct (j <? 0); [done|]. by apply list_elem_of_lookup_2 in Eget.
Qed.

End FocusTargets.

Section Taps.

Local Open Scope Z_scope.

Lemma source_remove_fresh (id : N) (icon_ref : nat)
    (timeouts : list (N * nat)) (last : N) :
  Forall (fun p => (p.1 <= last)%N) timeouts -> (last < id)%N ->
  List.filter (fun p => negb (p.1 =? id)%N) (timeouts ++ [(id, icon_ref)])
  = timeouts.
Proof.
  intros Hall Hlt. rewrite List.filter_app. simpl. rewrite N.eqb_refl. simpl.
  rewrite app_nil_r. induction Hall as [|p l Hp _ IH]; [done|]. simpl.
  destruct (N.eqb_spec p.1 id); [lia|]. simpl. by rewrite IH.
Qed.

(** X25.  A tap leaves no long-press timer behind, also when the interface
    is hidden between press and release; a second press before any release
    does: the icon forgets the first timer, which stays armed.  (The ids of
    the armed timers are ids that GLib has handed out.) *)
Theorem tap_leaves_no_timer (icon_ref : nat) (userHidden : bool)
    (s : Screen.state) :
  Forall (fun p => (p.1 <= Shell.last_source_id (Screen.shell s))%N)
    (Shell.timeouts (Screen.shell s)) ->
  let '(id, s1) := Screen.button_press_primary icon_ref s in
  let '(id2, s2) := Screen.button_press_primary icon_ref s1 in
  Shell.timeouts (Screen.shell (Screen.button_release (Some id) s1))
  = Shell.timeouts (Screen.shell s)
  /\ Shell.timeouts
       (Screen.shell
          (Screen.button_release (Some id) (Screen.hideModal userHidden s1)))
     = Shell.timeouts (Screen.shell s)
  /\ Shell.timeouts (Screen.shell (Screen.button_release (Some id2) s2))
     = Shell.timeouts (Screen.shell s) ++ [(id, icon_ref)].
Proof.
  intros Hall. unfold Screen.button_press_primary, Shell.timeout_add. simpl.
  split; [|split].
  - apply (source_remove_fresh _ _ _ _ Hall). lia.
  - unfold Screen.button_release, Shell.source_remove. simpl.
    match goal with
    | |- context [Screen.hideModal ?u ?s0] =>
        destruct (Screen.actor s0) as [a|] eqn:Ea;
        [destruct (hideModal_effect u s0 ltac:(by eexists))
           as (_ & _ & _ & _ & -> & _)
        |unfold Screen.hideModal; rewrite Ea]
    end; simpl; apply (source_remove_fresh _ _ _ _ Hall); lia.
  - rewrite <- (source_remove_fresh
                  (N.succ (N.succ (Shell.last_source_id (Screen.shell s))))
                  icon_ref
                  (Shell.timeouts (Screen.shell s)
                   ++ [(N.succ (Shell.last_source_id (Screen.shell s)),
                        icon_ref)])
                  (N.succ (Shell.last_source_id (Screen.shell s))))
      at 2; [done| |lia].
    apply Forall_app. split.
    + eapply Forall_impl; [exact Hall|]. simpl. intros p Hp. lia.
    + constructor; [simpl; lia|constructor].
Qed.

End Taps.

Section TapsExamples.

Lemma tap_leaves_no_timer_witness :
  let '(id, s1) := Screen.button_press_primary 0 Examples.screen0 in
  let '(id2, s2) := Screen.button_press_primary 0 s1 in
  Shell.timeouts (Screen.shell (Screen.button_release (Some id) s1))
  = Shell.timeouts (Screen.shell Examples.screen0)
  /\ Shell.timeouts
       (Screen.shell
          (Screen.button_release (Some id) (Screen.hideModal true s1)))
     = Shell.timeouts (Screen.shell Examples.screen0)
  /\ Shell.timeouts (Screen.shell (Screen.button_release (Some id2) s2))
     = Shell.timeouts (Screen.shell Examples.screen0) ++ [(id, 0%nat)].
Proof.
  apply (tap_leaves_no_timer 0 true Examples.screen0). constructor.
Defined.

End TapsExamples.
(** ** Rows stay inside the grid; items that leave it *)

Section RowsInside.
Context {Item : Type} `{GridItem Item}.
Variable get_content_box : ActorBox.t -> ActorBox.t.
Variable parent_allocation : ActorBox.t.
Variable natural_size : Item -> Z * Z.
Variable _xAlign : Align.

Local Open Scope Z_scope.

(** What [vfunc_allocate] returned, taken apart. *)
Lemma vfunc_allocate_inv (rtl : bool) (box : ActorBox.t)
    (g g' : IconGrid.state Item) (cells : list (Item * option ActorBox.t)) :
  IconGrid.vfunc_allocate get_content_box parent_allocation natural_size rtl
    _xAlign false box g = Some (g', cells) ->
  let content := get_content_box box in
  let availWidth := ActorBox.x2 content - ActorBox.x1 content in
  let g0 := IconGrid.set_allocation (ActorBox.x1 box) (ActorBox.x2 box) g in
  exists n used,
    IconGrid._computeLayout g availWidth = Some (n, used)
    /\ cells
       = IconGrid.allocate_children natural_size rtl false g0 content
           (match _xAlign with
            | Align_START => 0
            | Align_MIDDLE => (availWidth - used) / 2
            | Align_END => availWidth - used
            end)
           (ActorBox.y2 content - ActorBox.y1 content) n
           (IconGrid._getSpacing g0) (IconGrid._getVisibleChildren g0)
           (ActorBox.x1 content
            + match _xAlign with
              | Align_START => 0
              | Align_MIDDLE => (availWidth - used) / 2
              | Align_END => availWidth - used
              end
            + IconGrid.leftPadding g0)
           (ActorBox.y1 content + IconGrid.topPadding g0) 0 0.
Proof.
  intros Halloc content availWidth g0.
  unfold IconGrid.vfunc_allocate in Halloc.
  fold content availWidth g0 in Halloc.
  change (IconGrid._computeLayout g0 availWidth)
    with (IconGrid._computeLayout g availWidth) in Halloc.
  destruct (IconGrid._computeLayout g availWidth) as [[n used]|]; [|done].
  exists n, used. split; [done|].
  change (Some (n, used) ≫= ?f) with (f (n, used)) in Halloc.
  cbv beta iota in Halloc. by injection Halloc as _ <-.
Qed.

(** X26.  A row stays inside the grid and its items do not overlap.  With
    left-to-right text, item size and spacing not negative and at least
    one column fitting the content box, every child that [vfunc_allocate]
    allocates lies, horizontally, between the left and the right padding of
    the content box, whatever the alignment; and where the next child is in
    the same row, it starts at or after the end of this one. *)
Theorem allocated_rows_stay_inside (box : ActorBox.t)
    (g g' : IconGrid.state Item) (cells : list (Item * option ActorBox.t))
    (n : Z) :
  let content := get_content_box box in
  let availWidth := ActorBox.x2 content - ActorBox.x1 content in
  0 <= IconGrid._getHItemSize g -> 0 <= IconGrid._getSpacing g ->
  IconGrid.vfunc_allocate get_content_box parent_allocation natural_size false
    _xAlign false box g = Some (g', cells) ->
  IconGrid.columnsForWidth g availWidth = Some n -> 0 < n ->
  forall (k : nat) child b,
    cells !! k = Some (child, Some b) ->
    ActorBox.x1 content + IconGrid.leftPadding g <= ActorBox.x1 b
    /\ ActorBox.x2 b <= ActorBox.x2 content - IconGrid.rightPadding g
    /\ forall child' b',
         cells !! S k = Some (child', Some b') ->
         Z.of_nat (S k) mod n <> 0 ->
         ActorBox.y1 b' = ActorBox.y1 b
         /\ ActorBox.x2 b <= ActorBox.x1 b'.
Proof.
  intros content availWidth Hh Hs Halloc Hcols Hn k child b Hk.
  destruct (vfunc_allocate_inv false box g g' cells Halloc)
    as (n' & used & El & ->).
  fold content availWidth in El.
  set (g0 := IconGrid.set_allocation (ActorBox.x1 box) (ActorBox.x2 box) g)
    in *.
  unfold IconGrid.columnsForWidth in Hcols. fold availWidth in Hcols.
  rewrite El in Hcols. simpl in Hcols. injection Hcols as ->.
  apply _computeLayout_spec in El as (_ & _ & Hfit & Hused & _ & _).
  specialize (Hused Hn). specialize (Hfit n ltac:(lia)). rewrite <- Hused in Hfit.
  unfold IconGrid.usedWidthForNColumns in Hused.
  set (leftEmptySpace :=
         match _xAlign with
         | Align_START => 0
         | Align_MIDDLE => (availWidth - used) / 2
         | Align_END => availWidth - used
         end) in *.
  assert (0 <= leftEmptySpace /\ leftEmptySpace + used <= availWidth)
    as [Hleft Hright].
  { unfold leftEmptySpace. destruct _xAlign; [lia| |lia].
    pose proof (Z.div_mod (availWidth - used) 2 ltac:(lia)).
    pose proof (Z.mod_pos_bound (availWidth - used) 2 ltac:(lia)). lia. }
  fold content in Hk. fold availWidth in Hk.
  assert (forall (j : nat) c bx,
            IconGrid.allocate_children natural_size false false g0 content
              leftEmptySpace (ActorBox.y2 content - ActorBox.y1 content) n
              (IconGrid._getSpacing g0) (IconGrid._getVisibleChildren g0)
              (ActorBox.x1 content + leftEmptySpace + IconGrid.leftPadding g0)
              (ActorBox.y1 content + IconGrid.topPadding g0) 0 0 !! j
            = Some (c, Some bx) ->
            ActorBox.x1 bx
            = ActorBox.x1 content + leftEmptySpace + IconGrid.leftPadding g
              + Z.of_nat j mod n
                * (IconGrid._getHItemSize g + IconGrid._getSpacing g)
            /\ ActorBox.y1 bx
               = ActorBox.y1 content + IconGrid.topPadding g
                 + Z.of_nat j / n
                   * (IconGrid._getVItemSize g + IconGrid._getSpacing g)
            /\ ActorBox.x2 bx
               = ActorBox.x1 bx
                 + Z.min (IconGrid._getHItemSize g) (natural_size c).1)
    as Hcell.
  { intros j c bx Ej.
    apply (allocate_children_cells natural_size false g0 content
             leftEmptySpace _ n _
             (ActorBox.y1 content + IconGrid.topPadding g0) 0) in Ej
      as [_ Ej]; [|lia|lia|done|done|cbv zeta; lia |cbv zeta; lia].
    match type of Ej with
    | _ = (if ?hidden then _ else _) => destruct hidden; [done|]
    end.
    injection Ej as ->. rewrite !Z.add_0_l.
    by rewrite _calculateChildBox_spec. }
  destruct (Hcell k child b Hk) as (Ex1 & Ey1 & Ex2).
  pose proof (Z.mod_pos_bound (Z.of_nat k) n Hn) as Hcol.
  split; [|split].
  - rewrite Ex1. nia.
  - rewrite Ex2, Ex1.
    assert (Z.of_nat k mod n
            * (IconGrid._getHItemSize g + IconGrid._getSpacing g)
            <= (n - 1) * (IconGrid._getHItemSize g + IconGrid._getSpacing g))
      by nia.
    unfold availWidth in Hright. lia.
  - intros child' b' Ek' Hsame.
    destruct (Hcell (S k) child' b' Ek') as (Ex1' & Ey1' & _).
    pose proof (next_cell n (Z.of_nat k) Hn ltac:(lia)) as Hnext.
    replace (Z.of_nat k + 1) with (Z.of_nat (S k)) in Hnext by lia.
    destruct (Z.eqb_spec (Z.of_nat k mod n + 1) n) as [Ewrap|Ewrap];
      injection Hnext as Hc Hr; [congruence|].
    split.
    + rewrite Ey1', Ey1, <- Hr. done.
    + rewrite Ex1', Ex2, Ex1, <- Hc. lia.
Qed.

End RowsInside.

Section ItemsThatLeave.
Context {Item : Type} `{GridItem Item}.

Local Open Scope Z_scope.

(** X27.  Removing an item from the grid does not make the grid forget
    it.  For an item with a [BaseIcon] that is no child yet, [addItem]
    followed by [removeItem] restores the children, and with them the
    count of visible items, but the item stays in [_items], the array
    [_updateIconSizes] walks; only [removeAll] (or [destroyAll]) empties
    that array, after which [navigate_focus] has nothing to focus. *)
Theorem removeItem_keeps_the_item (item : Item) (index : option Z)
    (g : IconGrid.state Item) (current : option Item)
    (direction : DirectionType) (wrap : bool) :
  icon_instanceof_BaseIcon item = true -> item ∉ IconGrid.children g ->
  exists g1,
    IconGrid.addItem item index g = Returns g1
    /\ IconGrid.children (IconGrid.removeItem item g1) = IconGrid.children g
    /\ IconGrid.visibleItemsCount (IconGrid.removeItem item g1)
       = IconGrid.visibleItemsCount g
    /\ IconGrid._items (IconGrid.removeItem item g1)
       = IconGrid._items g ++ [item]
    /\ IconGrid._items (IconGrid.removeAll g1) = []
    /\ IconGrid.visibleItemsCount (IconGrid.removeAll g1) = 0
    /\ IconGrid.navigate_focus (IconGrid.removeAll g1) current direction wrap
       = Some (None, false).
Proof.
  intros Hicon Hnew.
  assert (forall l, item ∉ l ->
            List.filter (fun c => negb (bool_decide (c = item))) l = l)
    as Hkeep.
  { intros l Hl. apply filter_all. intros c Hc.
    rewrite bool_decide_eq_false_2; [done|]. by intros ->. }
  assert (forall pre post, item ∉ pre -> item ∉ post ->
            List.filter (fun c => negb (bool_decide (c = item)))
              (pre ++ item :: post) = pre ++ post) as Hdrop.
  { intros pre post Hpre Hpost. rewrite List.filter_app. simpl.
    rewrite bool_decide_eq_true_2 by done. simpl.
    by rewrite !Hkeep. }
  unfold IconGrid.addItem. rewrite Hicon. simpl.
  assert (forall kids',
            List.filter (fun c => negb (bool_decide (c = item))) kids'
            = IconGrid.children g ->
            let g1 := IconGrid.set_items (IconGrid._items g ++ [item]) kids' g
            in
            IconGrid.children (IconGrid.removeItem item g1)
            = IconGrid.children g
            /\ IconGrid.visibleItemsCount (IconGrid.removeItem item g1)
               = IconGrid.visibleItemsCount g
            /\ IconGrid._items (IconGrid.removeItem item g1)
               = IconGrid._items g ++ [item]
            /\ IconGrid._items (IconGrid.removeAll g1) = []
            /\ IconGrid.visibleItemsCount (IconGrid.removeAll g1) = 0
            /\ IconGrid.navigate_focus (IconGrid.removeAll g1) current
                 direction wrap = Some (None, false)) as Hall.
  { intros kids' Ekids g1.
    unfold IconGrid.removeItem, IconGrid.visibleItemsCount. simpl.
    rewrite Ekids. done. }
  destruct index as [i|]; eexists; (split; [reflexivity|]); apply Hall.
  - unfold IconGrid.insert_child_at_index.
    rewrite bool_decide_eq_false_2 by done.
    destruct (_ || _).
    + rewrite <- (app_nil_r (IconGrid.children g)) at 2.
      apply Hdrop; [done|apply not_elem_of_nil].
    + rewrite <- (take_drop (Z.to_nat i) (IconGrid.children g)) at 3.
      apply Hdrop.
      * intros Hin. apply Hnew.
        rewrite <- (take_drop (Z.to_nat i) (IconGrid.children g)).
        apply elem_of_app. by left.
      * intros Hin. apply Hnew.
        rewrite <- (take_drop (Z.to_nat i) (IconGrid.children g)).
        apply elem_of_app. by right.
  - unfold IconGrid.add_actor.
    rewrite bool_decide_eq_false_2 by done.
    rewrite <- (app_nil_r (IconGrid.children g)) at 2.
    apply Hdrop; [done|apply not_elem_of_nil].
Qed.

End ItemsThatLeave.

Section RowsInsideExamples.

Local Open Scope Z_scope.

Lemma allocated_rows_stay_inside_witness :
  let first := {| ActorBox.x1 := 40; ActorBox.y1 := 0;
                  ActorBox.x2 := 200; ActorBox.y2 := 100 |} in
  let second := {| ActorBox.x1 := 200; ActorBox.y1 := 0;
                   ActorBox.x2 := 360; ActorBox.y2 := 100 |} in
  0 + 0 <= ActorBox.x1 first
  /\ ActorBox.x2 first <= 400 - 0
  /\ ActorBox.y1 second = ActorBox.y1 first
  /\ ActorBox.x2 first <= ActorBox.x1 second.
Proof.
  intros first second.
  set (box := {| ActorBox.x1 := 0; ActorBox.y1 := 0;
                 ActorBox.x2 := 400; ActorBox.y2 := 600 |}).
  set (cells :=
         [(Examples.icon_a, Some first); (Examples.icon_b, Some second);
          (Examples.icon_c,
           Some {| ActorBox.x1 := 40; ActorBox.y1 := 160;
                   ActorBox.x2 := 200; ActorBox.y2 := 260 |})]).
  assert (0 <= IconGrid._getHItemSize Examples.grid3) as Hh
    by (vm_compute; discriminate).
  assert (0 <= IconGrid._getSpacing Examples.grid3) as Hs
    by (vm_compute; discriminate).
  assert (IconGrid.vfunc_allocate (fun b => b) box (fun _ => (200, 100))
            false Align_MIDDLE false box Examples.grid3
          = Some (IconGrid.set_allocation 0 400 Examples.grid3, cells))
    as Halloc by (vm_compute; reflexivity).
  destruct (allocated_rows_stay_inside (fun b => b) box (fun _ => (200, 100))
              Align_MIDDLE box Examples.grid3
              (IconGrid.set_allocation 0 400 Examples.grid3) cells 2
              Hh Hs Halloc eq_refl eq_refl 0%nat Examples.icon_a first
              eq_refl) as (Hleft & Hright & Hnext).
  destruct (Hnext Examples.icon_b second eq_refl) as [Hy Hx];
    [vm_compute; discriminate|].
  exact (conj Hleft (conj Hright (conj Hy Hx))).
Defined.

Lemma removeItem_keeps_the_item_witness :
  exists g1,
    IconGrid.addItem Examples.icon_d (Some 1) Examples.grid3 = Returns g1
    /\ IconGrid.children (IconGrid.removeItem Examples.icon_d g1)
       = IconGrid.children Examples.grid3
    /\ IconGrid.visibleItemsCount (IconGrid.removeItem Examples.icon_d g1)
       = IconGrid.visibleItemsCount Examples.grid3
    /\ IconGrid._items (IconGrid.removeItem Examples.icon_d g1)
       = IconGrid._items Examples.grid3 ++ [Examples.icon_d]
    /\ IconGrid._items (IconGrid.removeAll g1) = []
    /\ IconGrid.visibleItemsCount (IconGrid.removeAll g1) = 0
    /\ IconGrid.navigate_focus (IconGrid.removeAll g1)
         (Some Examples.icon_a) DOWN true
       = Some (None, false).
Proof.
  refine (removeItem_keeps_the_item Examples.icon_d (Some 1) Examples.grid3
            (Some Examples.icon_a) DOWN true _ _).
  - reflexivity.
  - intros Hin. apply list_elem_of_In in Hin. vm_compute in Hin.
    intuition discriminate.
Defined.

End RowsInsideExamples.
